(** * FalconMesh ground-control client: telemetry synchronisation

    A shallow embedding of the client-side telemetry engine of the
    FalconMesh GCS user interface, and the properties its specification
    states about it.

    - [FmMap] is the Leaflet map page, [gcs-ui/fm-map.js]: the anchor and
      the coordinate projector, the maps [drones], [trails], [markers]
      and [polylines], [selectedNodeId], [applyTelemetry], the frame
      classifier [ws.onmessage], and the reconnect loop of [connectWs].
    - [App] is the React application (v3, "World Map + Mission"): the
      entity map [byIdRef], [upsertNode], [setSnapshot] and the frame
      classifier.  [upsertNode] and [setSnapshot] are the same, letter for
      letter, in v1 and v2.

    Modelling decisions.

    - A JavaScript number is an IEEE-754 binary64 value: [spec_float] with
      precision 53 and maximal exponent 1024.  [Math.cos] is
      implementation-approximated and is a parameter ([MathLib]).
    - A frame is given by what [JSON.parse] made of it.  Objects and
      arrays carry the address they were allocated at, because a [Map]
      compares object keys by reference.
    - A [Map] is the list of its entries in insertion order.
    - Leaflet is outside the repository; a marker is represented by its
      position, a polyline by its points, and its calls return normally.
      The HUD rendering reads the state and does not change it.
    - The browser side of the reconnect loop (clock, timers, socket
      events) is an explicit event loop with a logical clock in
      milliseconds.  A connection ends with a close event; when it
      failed, the browser fires an error event first and the close event
      right after it ([Ending]).

    The second half of Part I covers the rest of the client: the icons,
    the HUD and the mission overlay of the map page ([FmHud],
    [FmOverlay]); the helpers, the event log, the commands, the target
    updates and the map centre of the React application v3 ([AppUi]);
    the canvas picking and the frame handler of v2 ([AppV2]); and the
    mission page ([MissionPage]).  A reply of the server is given by what
    [fetch] and [res.json()] made of it. *)

From Stdlib Require Import ZArith List Ascii String Bool Lia PeanoNat.
From Stdlib Require Import SpecFloat QArith.
Import ListNotations.
Close Scope Q_scope.
Open Scope nat_scope.

Set Warnings "-register-all".

(* ================================================================== *)
(** * Part I: definitions *)
(* ================================================================== *)

(** ** JavaScript values *)

Module JS.

Definition num : Type := spec_float.

Definition prec : Z := 53%Z.
Definition emax : Z := 1024%Z.

Definition fadd : num -> num -> num := SFadd prec emax.
Definition fmul : num -> num -> num := SFmul prec emax.
Definition fdiv : num -> num -> num := SFdiv prec emax.

(** The binary64 value of an integer literal. *)
Definition of_Z (z : Z) : num := binary_normalize prec emax z 0 false.

(** The binary64 value of the decimal literal [n / 10^k]: both operands
    are exact, so the correctly rounded quotient is the literal's value. *)
Definition decimal (n : Z) (k : nat) : num :=
  fdiv (of_Z n) (of_Z (10 ^ Z.of_nat k)).

(** [Math.PI], bit pattern 0x400921FB54442D18. *)
Definition Math_PI : num := S754_finite false 7074237752028440 (-51).

(** [Math.cos] is implementation-approximated; it is a parameter. *)
Class MathLib : Type := { Math_cos : num -> num }.

(** The result of [JSON.parse]: objects and arrays are heap allocated,
    [addr] is their identity. *)
Inductive json : Type :=
| JNull
| JBool (b : bool)
| JNum (x : num)
| JStr (s : string)
| JArr (addr : nat) (items : list json)
| JObj (addr : nat) (fields : list (string * json)).

(** A JavaScript value: [None] is [undefined]. *)
Definition value : Type := option json.

Definition undefined : value := None.
Definition null : value := Some JNull.

Definition is_zero_or_nan (x : num) : bool :=
  match x with
  | S754_zero _ | S754_nan => true
  | _ => false
  end.

(** ToBoolean. *)
Definition truthy (v : value) : bool :=
  match v with
  | None => false
  | Some JNull => false
  | Some (JBool b) => b
  | Some (JNum x) => negb (is_zero_or_nan x)
  | Some (JStr s) => negb (String.eqb s "")
  | Some (JArr _ _) => true
  | Some (JObj _ _) => true
  end.

(** The own properties of a parsed object. *)
Fixpoint assoc (name : string) (fs : list (string * json)) : value :=
  match fs with
  | [] => None
  | (k, v) :: rest => if String.eqb name k then Some v else assoc name rest
  end.

(** [v?.name] for the property names this program reads ([type], [nodes],
    [mission], [node_id], [pos], [base], [lat], [lon], [x], [y]): none of
    them is defined on a built-in prototype, so only an object can have
    one.  On [null] and [undefined] a plain [v.name] throws; every plain
    read in the sources is guarded, except the one in [setSnapshot], which
    is modelled there. *)
Definition get (name : string) (v : value) : value :=
  match v with
  | Some (JObj _ fs) => assoc name fs
  | _ => None
  end.

(** [typeof v === "number"]. *)
Definition is_number (v : value) : bool :=
  match v with
  | Some (JNum _) => true
  | _ => false
  end.

(** [typeof v === "object"] for a truthy [v]. *)
Definition is_object (v : value) : bool :=
  match v with
  | Some (JArr _ _) | Some (JObj _ _) => true
  | _ => false
  end.

(** [Array.isArray(v)] and the elements of [v]. *)
Definition is_array (v : value) : bool :=
  match v with
  | Some (JArr _ _) => true
  | _ => false
  end.

Definition items_of (v : value) : list json :=
  match v with
  | Some (JArr _ items) => items
  | _ => []
  end.

(** [v === "literal"]. *)
Definition is_string (lit : string) (v : value) : bool :=
  match v with
  | Some (JStr s) => String.eqb s lit
  | _ => false
  end.

(** The number in [v], once [typeof v === "number"] has been checked. *)
Definition num_of (v : value) : num :=
  match v with
  | Some (JNum x) => x
  | _ => S754_nan
  end.

(** *** Map keys (SameValueZero) *)

Inductive key : Type :=
| KUndef
| KNull
| KBool (b : bool)
| KNum (x : num)
| KStr (s : string)
| KRef (addr : nat).

(** [Map] turns the key [-0] into [+0]. *)
Definition norm_zero (x : num) : num :=
  match x with
  | S754_zero _ => S754_zero false
  | _ => x
  end.

(** One representative for every number: the mantissa is made odd. *)
Fixpoint odd_part (m : positive) (e : Z) : positive * Z :=
  match m with
  | xO p => odd_part p (e + 1)
  | _ => (m, e)
  end.

Definition canon (x : num) : num :=
  match x with
  | S754_zero _ => S754_zero false
  | S754_finite s m e =>
      let (m', e') := odd_part m e in S754_finite s m' e'
  | _ => x
  end.

Definition key_of (v : value) : key :=
  match v with
  | None => KUndef
  | Some JNull => KNull
  | Some (JBool b) => KBool b
  | Some (JNum x) => KNum (canon x)
  | Some (JStr s) => KStr s
  | Some (JArr a _) => KRef a
  | Some (JObj a _) => KRef a
  end.

Definition num_eqb (x y : num) : bool :=
  match x, y with
  | S754_zero a, S754_zero b => Bool.eqb a b
  | S754_infinity a, S754_infinity b => Bool.eqb a b
  | S754_nan, S754_nan => true
  | S754_finite a m e, S754_finite b n f =>
      Bool.eqb a b && Pos.eqb m n && Z.eqb e f
  | _, _ => false
  end.

Definition key_eqb (j k : key) : bool :=
  match j, k with
  | KUndef, KUndef => true
  | KNull, KNull => true
  | KBool a, KBool b => Bool.eqb a b
  | KNum x, KNum y => num_eqb x y
  | KStr s, KStr t => String.eqb s t
  | KRef a, KRef b => Nat.eqb a b
  | _, _ => false
  end.

Definition same_key (a b : value) : bool := key_eqb (key_of a) (key_of b).

(** The key as the [Map] stores it. *)
Definition norm_key (v : value) : value :=
  match v with
  | Some (JNum x) => Some (JNum (norm_zero x))
  | _ => v
  end.

(** *** [Map]: entries in insertion order *)

Definition jsmap (V : Type) : Type := list (value * V).

Fixpoint map_get {V} (k : value) (m : jsmap V) : option V :=
  match m with
  | [] => None
  | (k', v) :: rest => if same_key k k' then Some v else map_get k rest
  end.

Definition map_has {V} (k : value) (m : jsmap V) : bool :=
  match map_get k m with
  | Some _ => true
  | None => false
  end.

(** [m.set(k, v)]: an existing entry keeps its place and its key. *)
Fixpoint map_set {V} (k : value) (v : V) (m : jsmap V) : jsmap V :=
  match m with
  | [] => [(norm_key k, v)]
  | (k', v') :: rest =>
      if same_key k k' then (k', v) :: rest else (k', v') :: map_set k v rest
  end.

Definition map_keys {V} (m : jsmap V) : list value := List.map fst m.
Definition map_values {V} (m : jsmap V) : list V := List.map snd m.

(** [new Map(pairs)]. *)
Definition map_of_pairs {V} (pairs : list (value * V)) : jsmap V :=
  fold_left (fun m kv => map_set (fst kv) (snd kv) m) pairs [].

End JS.

Import JS.

(** ** The map page, [fm-map.js] *)

Module FmMap.

Definition latlng : Type := (num * num)%type.

Definition TRAIL_MAX : nat := 200.

Record State : Type := mkState {
  anchorLat : num;
  anchorLon : num;
  drones : jsmap json;
  trails : jsmap (list latlng);
  markers : jsmap latlng;
  polylines : jsmap (list latlng);
  selectedNodeId : value
}.

(** Temporary anchor (Ankara). *)
Definition init : State :=
  {| anchorLat := decimal 399334 4;
     anchorLon := decimal 328597 4;
     drones := [];
     trails := [];
     markers := [];
     polylines := [];
     selectedNodeId := null |}.

Section WithMath.
Context {M : MathLib}.

Definition xyToLatLon (st : State) (x y : num) : latlng :=
  let lat := fadd (anchorLat st) (fdiv y (of_Z 111320)) in
  let lon :=
    fadd (anchorLon st)
      (fdiv x
         (fmul (of_Z 111320)
            (Math_cos (fdiv (fmul (anchorLat st) Math_PI) (of_Z 180))))) in
  (lat, lon).

Definition pointToLatLon (st : State) (p : value) : option latlng :=
  if negb (truthy p) || negb (is_object p) then None
  else if is_number (get "lat" p) && is_number (get "lon" p)
  then Some (num_of (get "lat" p), num_of (get "lon" p))
  else if is_number (get "x" p) && is_number (get "y" p)
  then Some (xyToLatLon st (num_of (get "x" p)) (num_of (get "y" p)))
  else None.

(** The position of a telemetry record, the [if / else if / else if]
    chain of [applyTelemetry]. *)
Definition resolvePosition (st : State) (t : value) : option latlng :=
  let pos := get "pos" t in
  if truthy pos && is_number (get "lat" pos) && is_number (get "lon" pos)
  then Some (num_of (get "lat" pos), num_of (get "lon" pos))
  else if truthy pos && is_number (get "x" pos) && is_number (get "y" pos)
  then Some (xyToLatLon st (num_of (get "x" pos)) (num_of (get "y" pos)))
  else if is_number (get "x" t) && is_number (get "y" t)
  then Some (xyToLatLon st (num_of (get "x" t)) (num_of (get "y" t)))
  else None.

(** A Leaflet marker is represented by its position, a polyline by its
    points. *)
Definition ensureDrone (st : State) (nodeId : value) (ll : latlng) : State :=
  if negb (map_has nodeId (markers st))
  then {| anchorLat := anchorLat st;
          anchorLon := anchorLon st;
          drones := drones st;
          trails := trails st;
          markers := map_set nodeId ll (markers st);
          polylines := map_set nodeId [] (polylines st);
          selectedNodeId := selectedNodeId st |}
  else st.

(** [while (buf.length > 200) buf.shift()]; the loop runs at most
    [buf.length] times. *)
Fixpoint shiftWhile (fuel : nat) (buf : list latlng) : list latlng :=
  match fuel with
  | O => buf
  | S fuel' =>
      if Nat.ltb TRAIL_MAX (List.length buf) then shiftWhile fuel' (tl buf)
      else buf
  end.

Definition pushTrail (buf : list latlng) (p : latlng) : list latlng :=
  let buf1 := buf ++ [p] in
  shiftWhile (List.length buf1) buf1.

Definition applyTelemetry (st : State) (t : json) : State :=
  if negb (truthy (Some t)) || negb (truthy (get "node_id" (Some t)))
  then st
  else
    let id := get "node_id" (Some t) in
    let drones1 := map_set id t (drones st) in
    match resolvePosition st (Some t) with
    | None =>
        {| anchorLat := anchorLat st;
           anchorLon := anchorLon st;
           drones := drones1;
           trails := trails st;
           markers := markers st;
           polylines := polylines st;
           selectedNodeId := selectedNodeId st |}
    | Some ll =>
        let st1 :=
          ensureDrone
            {| anchorLat := anchorLat st;
               anchorLon := anchorLon st;
               drones := drones1;
               trails := trails st;
               markers := markers st;
               polylines := polylines st;
               selectedNodeId := selectedNodeId st |} id ll in
        let markers2 :=
          if map_has id (markers st1) then map_set id ll (markers st1)
          else markers st1 in
        let buf :=
          match map_get id (trails st1) with
          | Some b => b
          | None => []
          end in
        let buf1 := pushTrail buf ll in
        let polylines2 :=
          if map_has id (polylines st1) then map_set id buf1 (polylines st1)
          else polylines st1 in
        {| anchorLat := anchorLat st1;
           anchorLon := anchorLon st1;
           drones := drones st1;
           trails := map_set id buf1 (trails st1);
           markers := markers2;
           polylines := polylines2;
           selectedNodeId :=
             if negb (truthy (selectedNodeId st1)) then id
             else selectedNodeId st1 |}
    end.

(** [drawMissionOverlay]: the circles are Leaflet layers; what the
    function leaves in the program state is the anchor, locked to a base
    that has numeric [lat] and [lon]. *)
Definition drawMissionOverlay (st : State) (mission : value) : State :=
  if negb (truthy mission) || negb (is_object mission) then st
  else if truthy (get "base" mission) then
    match pointToLatLon st (get "base" mission) with
    | Some _ =>
        if is_number (get "lat" (get "base" mission))
           && is_number (get "lon" (get "base" mission))
        then {| anchorLat := num_of (get "lat" (get "base" mission));
                anchorLon := num_of (get "lon" (get "base" mission));
                drones := drones st;
                trails := trails st;
                markers := markers st;
                polylines := polylines st;
                selectedNodeId := selectedNodeId st |}
        else st
    | None => st
    end
  else st.

(** What [JSON.parse(ev.data)] did. *)
Inductive Frame : Type :=
| Unparseable
| Parsed (msg : json).

(** [msg.nodes.forEach((n) => applyTelemetry(n))]. *)
Definition applyAll (st : State) (ns : list json) : State :=
  fold_left applyTelemetry ns st.

(** The branch of [ws.onmessage] a parsed message takes. *)
Inductive Route : Type :=
| RSnapshot
| RMission
| RDelta
| RIgnore.

Definition classify (msg : json) : Route :=
  let m := Some msg in
  if truthy m && is_string "snapshot" (get "type" m)
     && is_array (get "nodes" m)
  then RSnapshot
  else if truthy m && is_string "mission_update" (get "type" m)
          && truthy (get "mission" m)
  then RMission
  else if truthy m && truthy (get "node_id" m)
  then RDelta
  else RIgnore.

Definition onmessage (st : State) (f : Frame) : State :=
  match f with
  | Unparseable => st
  | Parsed msg =>
      match classify msg with
      | RSnapshot => applyAll st (items_of (get "nodes" (Some msg)))
      | RMission => drawMissionOverlay st (get "mission" (Some msg))
      | RDelta => applyTelemetry st msg
      | RIgnore => st
      end
  end.

Definition run (st : State) (fs : list Frame) : State :=
  fold_left onmessage fs st.

End WithMath.

(** *** The reconnect loop of [connectWs]

    The browser side (the clock, the timer queue, the sockets and their
    events) is an explicit event loop; the handlers are the program's. *)

Inductive HudStatus : Type :=
| WS_CONNECTING
| WS_INIT_ERROR
| WS_OK
| WS_ERROR
| WS_CLOSED_RETRY.

Inductive ReadyState : Type :=
| CONNECTING
| OPEN
| CLOSED.

(** A pending [setTimeout(connectWs, delay)], registered at [set_at]. *)
Record Timer : Type := mkTimer { set_at : Z; delay : Z }.

Definition due (t : Timer) : Z := (set_at t + delay t)%Z.

Record Net : Type := mkNet {
  clock : Z;
  hud : option HudStatus;
  sockets : list ReadyState;
  timers : list Timer
}.

Definition RETRY_MS : Z := 1500%Z.

Definition setHudStatus (n : Net) (s : HudStatus) : Net :=
  {| clock := clock n; hud := Some s; sockets := sockets n;
     timers := timers n |}.

(** [ctor_ok] tells whether [new WebSocket(...)] returned or threw. *)
Definition connectWs (ctor_ok : bool) (n : Net) : Net :=
  let n1 := setHudStatus n WS_CONNECTING in
  if ctor_ok
  then {| clock := clock n1; hud := hud n1;
          sockets := sockets n1 ++ [CONNECTING];
          timers := timers n1 |}
  else setHudStatus n1 WS_INIT_ERROR.

Definition onopen (n : Net) : Net := setHudStatus n WS_OK.

Definition onerror (n : Net) : Net := setHudStatus n WS_ERROR.

Definition onclose (n : Net) : Net :=
  let n1 := setHudStatus n WS_CLOSED_RETRY in
  {| clock := clock n1; hud := hud n1; sockets := sockets n1;
     timers := timers n1 ++ [{| set_at := clock n1; delay := RETRY_MS |}] |}.

Inductive Event : Type :=
| Elapse (dt : Z)
| SocketOpen (i : nat)
| SocketError (i : nat)
| SocketClose (i : nat)
| TimerFire (j : nat) (ctor_ok : bool).

Fixpoint set_nth {A} (i : nat) (x : A) (l : list A) : list A :=
  match l, i with
  | [], _ => []
  | _ :: r, O => x :: r
  | y :: r, S i' => y :: set_nth i' x r
  end.

Fixpoint remove_nth {A} (j : nat) (l : list A) : list A :=
  match l, j with
  | [], _ => []
  | _ :: r, O => r
  | y :: r, S j' => y :: remove_nth j' r
  end.

Definition set_socket (i : nat) (s : ReadyState) (n : Net) : Net :=
  {| clock := clock n; hud := hud n; sockets := set_nth i s (sockets n);
     timers := timers n |}.

(** One turn of the event loop; [None] when the browser cannot deliver
    the event: a socket opens once, closes once and is silent afterwards,
    and a timer never fires before it is due. *)
Definition step (n : Net) (ev : Event) : option Net :=
  match ev with
  | Elapse dt =>
      if (0 <=? dt)%Z
      then Some {| clock := (clock n + dt)%Z; hud := hud n;
                   sockets := sockets n; timers := timers n |}
      else None
  | SocketOpen i =>
      match nth_error (sockets n) i with
      | Some CONNECTING => Some (onopen (set_socket i OPEN n))
      | _ => None
      end
  | SocketError i =>
      match nth_error (sockets n) i with
      | Some CONNECTING | Some OPEN => Some (onerror n)
      | _ => None
      end
  | SocketClose i =>
      match nth_error (sockets n) i with
      | Some CONNECTING | Some OPEN => Some (onclose (set_socket i CLOSED n))
      | _ => None
      end
  | TimerFire j ctor_ok =>
      match nth_error (timers n) j with
      | Some t =>
          if (due t <=? clock n)%Z
          then Some (connectWs ctor_ok
                       {| clock := clock n; hud := hud n;
                          sockets := sockets n;
                          timers := remove_nth j (timers n) |})
          else None
      | None => None
      end
  end.

Fixpoint exec (n : Net) (evs : list Event) : option Net :=
  match evs with
  | [] => Some n
  | ev :: rest =>
      match step n ev with
      | Some n' => exec n' rest
      | None => None
      end
  end.

(** The page at load time, and after the boot call of [connectWs]. *)
Definition net0 : Net :=
  {| clock := 0%Z; hud := None; sockets := []; timers := [] |}.

Definition boot (ctor_ok : bool) : Net := connectWs ctor_ok net0.

End FmMap.

(** ** The React application, [App] (v3) *)

Module App.

Inductive exn : Type :=
| SyntaxError
| TypeError.

Inductive result (A : Type) : Type :=
| Ok (a : A)
| Throw (e : exn).
Arguments Ok {A} a.
Arguments Throw {A} e.

Definition bind {A B} (r : result A) (k : A -> result B) : result B :=
  match r with
  | Ok a => k a
  | Throw e => Throw e
  end.

(** The [err] banner: empty, or ["WS parse error: " + String(e)]. *)
Inductive ErrText : Type :=
| ErrNone
| ErrWsParse (e : exn).

Record State : Type := mkState {
  byId : jsmap json;
  nodes : list json;
  mission : value;
  err : ErrText
}.

Definition init : State :=
  {| byId := []; nodes := []; mission := null; err := ErrNone |}.

Definition setErr (st : State) (e : ErrText) : State :=
  {| byId := byId st; nodes := nodes st; mission := mission st; err := e |}.

Definition setMission (st : State) (m : value) : State :=
  {| byId := byId st; nodes := nodes st; mission := m; err := err st |}.

(** [v || alt]. *)
Definition or_else (v alt : value) : value := if truthy v then v else alt.

(** The literal [[]]; its address is never used as a key. *)
Definition empty_array : value := Some (JArr 0 []).

Definition upsertNode (st : State) (n : value) : State :=
  let id := get "node_id" n in
  match n with
  | Some rec =>
      if negb (truthy id) then st
      else
        let m := map_set id rec (byId st) in
        {| byId := m; nodes := map_values m; mission := mission st;
           err := err st |}
  | None => st
  end.

(** [(n) => [n.node_id, n]]: reading a property of [null] throws. *)
Definition pair_of (n : json) : result (value * json) :=
  match n with
  | JNull => Throw TypeError
  | _ => Ok (get "node_id" (Some n), n)
  end.

Fixpoint map_pairs (ns : list json) : result (list (value * json)) :=
  match ns with
  | [] => Ok []
  | n :: rest =>
      bind (pair_of n) (fun p =>
      bind (map_pairs rest) (fun ps => Ok (p :: ps)))
  end.

(** [(arr || []).map(...)]: only an array has a [map] method. *)
Definition setSnapshot (st : State) (arr : value) : result State :=
  match or_else arr empty_array with
  | Some (JArr _ ns) =>
      bind (map_pairs ns) (fun pairs =>
      let m := map_of_pairs pairs in
      Ok {| byId := m; nodes := map_values m; mission := mission st;
            err := err st |})
  | _ => Throw TypeError
  end.

Inductive Frame : Type :=
| Unparseable
| Parsed (msg : json).

Inductive Route : Type :=
| RSnapshot
| RMission
| RDelta.

Definition classify (msg : json) : Route :=
  let m := Some msg in
  if truthy m && is_string "snapshot" (get "type" m) then RSnapshot
  else if truthy m && is_string "mission_update" (get "type" m)
  then RMission
  else RDelta.

(** The body of the [try]. *)
Definition handle (st : State) (msg : json) : result State :=
  let m := Some msg in
  match classify msg with
  | RSnapshot => setSnapshot st (or_else (get "nodes" m) empty_array)
  | RMission => Ok (setMission st (or_else (get "mission" m) null))
  | RDelta => Ok (upsertNode st m)
  end.

Definition onmessage (st : State) (f : Frame) : State :=
  match f with
  | Unparseable => setErr st (ErrWsParse SyntaxError)
  | Parsed msg =>
      match handle st msg with
      | Ok st' => st'
      | Throw e => setErr st (ErrWsParse e)
      end
  end.

Definition run (st : State) (fs : list Frame) : State :=
  fold_left onmessage fs st.

End App.

(** ** The behaviour as the specification words it *)

Module Spec.

Section WithMath.
Context {M : MathLib}.

(** "structured geographic lat/lon field": a position block with numeric
    [lat] and [lon]. *)
Definition geoForm (pos : value) : option (num * num) :=
  if truthy pos && is_number (get "lat" pos) && is_number (get "lon" pos)
  then Some (num_of (get "lat" pos), num_of (get "lon" pos))
  else None.

(** "structured planar x/y field": a position block with numeric [x]
    and [y]. *)
Definition planarForm (pos : value) : option (num * num) :=
  if truthy pos && is_number (get "x" pos) && is_number (get "y" pos)
  then Some (num_of (get "x" pos), num_of (get "y" pos))
  else None.

(** "bare top-level x/y field". *)
Definition bareForm (t : value) : option (num * num) :=
  if is_number (get "x" t) && is_number (get "y" t)
  then Some (num_of (get "x" t), num_of (get "y" t))
  else None.

(** "projected through the coordinate projector". *)
Definition project (st : FmMap.State) (xy : num * num) : FmMap.latlng :=
  FmMap.xyToLatLon st (fst xy) (snd xy).

(** "First matching form wins." *)
Fixpoint firstMatch {A} (forms : list (option A)) : option A :=
  match forms with
  | [] => None
  | Some a :: _ => Some a
  | None :: rest => firstMatch rest
  end.

Definition resolveInOrder (st : FmMap.State) (t : value)
  : option FmMap.latlng :=
  firstMatch
    [ geoForm (get "pos" t);
      option_map (project st) (planarForm (get "pos" t));
      option_map (project st) (bareForm t) ].

End WithMath.

(** The value of a finite binary64 number, as a rational. *)
Definition exact (x : num) : option Q :=
  match x with
  | S754_zero _ => Some 0%Q
  | S754_finite s m e =>
      Some (inject_Z (if s then Z.neg m else Z.pos m) * Qpower 2 e)%Q
  | _ => None
  end.

(** [a] is [b] plus [d], exactly. *)
Definition exactly_plus (a b : num) (d : Q) : Prop :=
  match exact a, exact b with
  | Some qa, Some qb => Qeq qa (qb + d)
  | _, _ => False
  end.

(** The [n] newest points of a trail. *)
Definition keepLast {A} (n : nat) (l : list A) : list A :=
  skipn (List.length l - n) l.

End Spec.

(** ** Notions used in the statements *)

(** A number that is neither zero nor NaN. *)
Definition is_nonzero_number (x : num) : bool :=
  match x with
  | S754_finite _ _ _ | S754_infinity _ => true
  | _ => false
  end.

(** A finite binary64 number other than zero. *)
Definition finite_nonzero (x : num) : bool :=
  match x with
  | S754_finite _ m e => bounded prec emax m e
  | _ => false
  end.

(** What [Math.cos] returns for the anchor's latitude. *)
Definition cosAtAnchor {M : MathLib} (st : FmMap.State) : num :=
  Math_cos (fdiv (fmul (FmMap.anchorLat st) Math_PI) (of_Z 180)).

(** The guard [!t || !t.node_id] lets the record through. *)
Definition accepted (t : json) : bool :=
  truthy (Some t) && truthy (get "node_id" (Some t)).

Definition idOf (t : json) : value := get "node_id" (Some t).

(** [trails.get(k) || []]. *)
Definition trailOf (k : value) (st : FmMap.State) : list FmMap.latlng :=
  match map_get k (FmMap.trails st) with
  | Some b => b
  | None => []
  end.

(** One of the three position forms matches; the anchor plays no part. *)
Definition resolvable (t : json) : bool :=
  match Spec.geoForm (get "pos" (Some t)),
        Spec.planarForm (get "pos" (Some t)),
        Spec.bareForm (Some t) with
  | None, None, None => false
  | _, _, _ => true
  end.

(** A record that reaches the end of [applyTelemetry]: it passes the
    identifier guard and its position resolves. *)
Definition positioned (t : json) : bool := accepted t && resolvable t.

(** Every recorded trail is within the cap. *)
Definition trails_bounded (st : FmMap.State) : Prop :=
  forall k b,
    map_get k (FmMap.trails st) = Some b -> List.length b <= FmMap.TRAIL_MAX.

(** Every trail of [st] is still there in [st'], extended at the back and
    cut at the front. *)
Definition trails_evolve (st st' : FmMap.State) : Prop :=
  forall k old,
    map_get k (FmMap.trails st) = Some old ->
    exists ps,
      map_get k (FmMap.trails st') =
      Some (Spec.keepLast FmMap.TRAIL_MAX (old ++ ps)).

(** The message has the given [type]. *)
Definition typed (lit : string) (msg : json) : bool :=
  is_string lit (get "type" (Some msg)).

(** The payload guards of the map page. *)
Definition snapshotShaped (msg : json) : bool :=
  typed "snapshot" msg && is_array (get "nodes" (Some msg)).

Definition missionShaped (msg : json) : bool :=
  typed "mission_update" msg && truthy (get "mission" (Some msg)).

Definition hasId (msg : json) : bool := truthy (get "node_id" (Some msg)).

(** The records a frame hands to [applyTelemetry], in order. *)
Definition recordsOf (f : FmMap.Frame) : list json :=
  match f with
  | FmMap.Unparseable => []
  | FmMap.Parsed msg =>
      match FmMap.classify msg with
      | FmMap.RSnapshot => items_of (get "nodes" (Some msg))
      | FmMap.RDelta => [msg]
      | _ => []
      end
  end.

(** The selection a session ends with when nobody clicks: the identifier
    of the first positioned record, if any. *)
Definition firstPositioned (ts : list json) (otherwise : value) : value :=
  match find positioned ts with
  | Some t => idOf t
  | None => otherwise
  end.

Definition not_null (n : json) : bool :=
  match n with
  | JNull => false
  | _ => true
  end.

(** The pairs [[n.node_id, n]] of a snapshot. *)
Definition pairsOf (ns : list json) : list (value * json) :=
  List.map (fun n => (idOf n, n)) ns.

(** Some record of the snapshot has the key [k]. *)
Definition idIn (k : value) (ns : list json) : bool :=
  existsb (fun n => same_key k (idOf n)) ns.

(** Some record of the snapshot passes the identifier guard and has the
    key [k]. *)
Definition acceptedIdIn (k : value) (ns : list json) : bool :=
  existsb (fun n => accepted n && same_key k (idOf n)) ns.

Definition is_live (s : FmMap.ReadyState) : bool :=
  match s with
  | FmMap.CLOSED => false
  | _ => true
  end.

(** Sockets that can still fire an event. *)
Definition liveCount (l : list FmMap.ReadyState) : nat :=
  List.length (filter is_live l).

(** At most one thing is in flight: a live socket or a pending
    reconnect. *)
Definition single_flight (n : FmMap.Net) : Prop :=
  liveCount (FmMap.sockets n) + List.length (FmMap.timers n) <= 1.

(** No pending reconnect is due before [d], none registered from now on
    will be, and no socket was created beyond the first [s0] unless the
    clock has reached [d]. *)
Definition not_before (d : Z) (s0 : nat) (n : FmMap.Net) : Prop :=
  Forall (fun t => (d <= FmMap.due t)%Z) (FmMap.timers n)
  /\ (d <= FmMap.clock n + FmMap.RETRY_MS)%Z
  /\ (List.length (FmMap.sockets n) = s0 \/ (d <= FmMap.clock n)%Z).

(** How a connection ends.  The browser delivers a close event; when
    the connection failed it delivers an error event first, and the
    close event right after it. *)
Inductive Ending : Type :=
| Closes (i : nat)
| Fails (i : nat).

Definition events_of (e : Ending) : list FmMap.Event :=
  match e with
  | Closes i => [FmMap.SocketClose i]
  | Fails i => [FmMap.SocketError i; FmMap.SocketClose i]
  end.

(** ** Frames and a [Math.cos] for the worked examples *)

(** cos(39.9334 degrees) = 0.7667910948587404, the only value the
    examples need. *)
Definition sampleMath : MathLib :=
  {| Math_cos := fun _ => S754_finite false 6906640178153676 (-53) |}.

Definition geo (a : nat) (lat lon : Z) : json :=
  JObj a [("lat"%string, JNum (of_Z lat)); ("lon"%string, JNum (of_Z lon))].

Definition planar (a : nat) (x y : Z) : json :=
  JObj a [("x"%string, JNum (of_Z x)); ("y"%string, JNum (of_Z y))].

Definition record (a : nat) (id : string) (pos : json) : json :=
  JObj a [("node_id"%string, JStr id); ("pos"%string, pos)].

Definition bareRecord (a : nat) (id : string) : json :=
  JObj a [("node_id"%string, JStr id)].

Definition snapshotOf (a : nat) (ns : list json) : json :=
  JObj a [("type"%string, JStr "snapshot"); ("nodes"%string, JArr (S a) ns)].


(* ================================================================== *)
(** * Part I, second half: the rest of the client *)
(* ================================================================== *)

(** ** More JavaScript: operators and library functions *)

Module JSx.

(** [v === null || v === undefined]. *)
Definition nullish (v : value) : bool :=
  match v with
  | None | Some JNull => true
  | _ => false
  end.

(** [a ?? b]. *)
Definition coalesce (a b : value) : value := if nullish a then b else a.

(** [typeof v === "string"], and the text of such a [v]. *)
Definition is_text (v : value) : bool :=
  match v with
  | Some (JStr _) => true
  | _ => false
  end.

Definition text_of (v : value) : string :=
  match v with
  | Some (JStr s) => s
  | _ => EmptyString
  end.

(** Whether [String(v)], a template literal [`${v}`] or
    [new Error(v)] can turn [v] into a text.  A parsed object has
    [Object.prototype.toString] unless it has an own property
    [toString], which is never callable; then the conversion tries
    [valueOf], gets no primitive, and throws a TypeError.  An array is
    joined: its elements are converted in turn, [null] to the empty
    text. *)
Fixpoint can_text_json (j : json) : bool :=
  match j with
  | JObj _ fs =>
      match assoc "toString" fs with
      | Some _ => false
      | None => true
      end
  | JArr _ items => forallb can_text_json items
  | _ => true
  end.

Definition can_text (v : value) : bool :=
  match v with
  | Some j => can_text_json j
  | None => true
  end.

Definition is_nan (v : value) : bool :=
  match v with
  | Some (JNum S754_nan) => true
  | _ => false
  end.

(** [a === b]: SameValueZero, except that NaN is not equal to itself. *)
Definition strict_eq (a b : value) : bool := same_key a b && negb (is_nan a).

Definition fsub : num -> num -> num := SFsub prec emax.
Definition fleb : num -> num -> bool := SFleb.
Definition fltb : num -> num -> bool := SFltb.

(** [Math.sqrt], as the engines compute it: the IEEE-754 square root. *)
Definition Math_sqrt : num -> num := SFsqrt prec emax.

Definition is_neg_zero (x : num) : bool :=
  match x with
  | S754_zero true => true
  | _ => false
  end.

(** [Math.min(x, y)] and [Math.max(x, y)]: NaN wins, and -0 is below
    +0. *)
Definition Math_min (x y : num) : num :=
  match x, y with
  | S754_nan, _ | _, S754_nan => S754_nan
  | _, _ =>
      if fltb x y then x
      else if fltb y x then y
      else if is_neg_zero x then x else y
  end.

Definition Math_max (x y : num) : num :=
  match x, y with
  | S754_nan, _ | _, S754_nan => S754_nan
  | _, _ =>
      if fltb x y then y
      else if fltb y x then x
      else if is_neg_zero x then y else x
  end.

(** [s.replace(pat, rep)] with a string pattern: the first occurrence
    only.  The replacement strings of this program hold no [$]. *)
Fixpoint replace_first (pat rep s : string) : string :=
  match s with
  | EmptyString => if String.prefix pat s then rep else s
  | String c rest =>
      if String.prefix pat s
      then rep ++ substring (String.length pat) (String.length s) s
      else String c (replace_first pat rep rest)
  end.

(** [s.includes(c)] for a one-character string. *)
Fixpoint includes_char (c : Ascii.ascii) (s : string) : bool :=
  match s with
  | EmptyString => false
  | String d rest => Ascii.eqb c d || includes_char c rest
  end.

(** [s.split(c)] for a one-character separator. *)
Fixpoint split_char (c : Ascii.ascii) (s : string) : list string :=
  match s with
  | EmptyString => [EmptyString]
  | String d rest =>
      if Ascii.eqb c d then EmptyString :: split_char c rest
      else
        match split_char c rest with
        | [] => [String d EmptyString]
        | w :: ws => String d w :: ws
        end
  end.

End JSx.

Import JSx.

(** ** More of the map page: icons and clicks *)

Module FmHud.

(** [d?.vel?.heading_deg ?? d?.heading_deg ?? 0], in [applyTelemetry]
    and in [refreshAllIcons]. *)
Definition headingOf (d : value) : value :=
  coalesce (get "heading_deg" (get "vel" d))
    (coalesce (get "heading_deg" d) (Some (JNum (of_Z 0)))).

(** The icon of a marker: the rotation, which [toFixed(1)] then prints
    with one decimal, and whether the class is ["fm-drone selected"]. *)
Record Icon : Type := mkIcon { rotation : num; highlighted : bool }.

Definition makeDroneIcon (headingDeg : value) (selected : bool) : Icon :=
  {| rotation := if is_number headingDeg then num_of headingDeg else of_Z 0;
     highlighted := selected |}.

(** The icons [refreshAllIcons] gives the markers, in their order. *)
Definition refreshAllIcons (st : FmMap.State) : jsmap Icon :=
  List.map
    (fun kv =>
       (fst kv,
        makeDroneIcon (headingOf (map_get (fst kv) (FmMap.drones st)))
          (strict_eq (fst kv) (FmMap.selectedNodeId st))))
    (FmMap.markers st).

(** The click handler [ensureDrone] puts on the marker of [nodeId]. *)
Definition clickMarker (st : FmMap.State) (nodeId : value) : FmMap.State :=
  {| FmMap.anchorLat := FmMap.anchorLat st;
     FmMap.anchorLon := FmMap.anchorLon st;
     FmMap.drones := FmMap.drones st;
     FmMap.trails := FmMap.trails st;
     FmMap.markers := FmMap.markers st;
     FmMap.polylines := FmMap.polylines st;
     FmMap.selectedNodeId := nodeId |}.




(** The click handler of a button of the list: [attr] is what
    [btn.getAttribute("data-id")] returns, a text. *)
Definition clickListButton (st : FmMap.State) (attr : string)
  : FmMap.State :=
  clickMarker st (Some (JStr attr)).




(** What happens on the map page: a frame arrives, the operator clicks
    the [i]-th marker, or a button of the list whose [data-id] reads
    [attr]. *)
Inductive UiEvent : Type :=
| Receives (f : FmMap.Frame)
| ClicksMarker (i : nat)
| ClicksButton (attr : string).

Section WithMath.
Context {M : MathLib}.

Definition ui_step (st : FmMap.State) (ev : UiEvent) : FmMap.State :=
  match ev with
  | Receives f => FmMap.onmessage st f
  | ClicksMarker i =>
      match nth_error (FmMap.markers st) i with
      | Some (k, _) => clickMarker st k
      | None => st
      end
  | ClicksButton attr => clickListButton st attr
  end.

Definition session (st : FmMap.State) (evs : list UiEvent) : FmMap.State :=
  fold_left ui_step evs st.

End WithMath.

Definition is_button_click (ev : UiEvent) : bool :=
  match ev with
  | ClicksButton _ => true
  | _ => false
  end.

End FmHud.

(** ** The mission overlay of the map page *)

Module FmOverlay.

Inductive Tooltip : Type :=
| TipBase
| TipStaging (number : nat)
| TipTarget.

Record Circle : Type := mkCircle {
  center : FmMap.latlng;
  radius : num;
  tooltip : Tooltip
}.

Record Layers : Type := mkLayers {
  baseCircle : option Circle;
  targetCircle : option Circle;
  stagingCircles : list Circle
}.

Definition noLayers : Layers :=
  {| baseCircle := None; targetCircle := None; stagingCircles := [] |}.

(** [typeof p.radius_m === "number" ? p.radius_m : dflt]. *)
Definition radiusOf (p : value) (dflt : Z) : num :=
  if is_number (get "radius_m" p) then num_of (get "radius_m" p)
  else of_Z dflt.

Section WithMath.
Context {M : MathLib}.

(** The [forEach] over [mission.staging_points], from index [idx] on. *)
Fixpoint stagingFrom (st : FmMap.State) (idx : nat) (ps : list json)
  : list Circle :=
  match ps with
  | [] => []
  | p :: rest =>
      match FmMap.pointToLatLon st (Some p) with
      | Some ll =>
          {| center := ll; radius := radiusOf (Some p) 60;
             tooltip := TipStaging (S idx) |}
          :: stagingFrom st (S idx) rest
      | None => stagingFrom st (S idx) rest
      end
  end.

(** The layers [drawMissionOverlay(mission)] leaves, called in the state
    [st]: it clears the previous ones first.  The base circle is placed
    before the anchor is locked, the others after. *)
Definition missionLayers (st : FmMap.State) (mission : value) : Layers :=
  if negb (truthy mission) || negb (is_object mission) then noLayers
  else
    let st' := FmMap.drawMissionOverlay st mission in
    {| baseCircle :=
         if truthy (get "base" mission) then
           match FmMap.pointToLatLon st (get "base" mission) with
           | Some ll =>
               Some {| center := ll;
                       radius := radiusOf (get "base" mission) 80;
                       tooltip := TipBase |}
           | None => None
           end
         else None;
       stagingCircles :=
         if is_array (get "staging_points" mission)
         then stagingFrom st' 0 (items_of (get "staging_points" mission))
         else [];
       targetCircle :=
         if truthy (get "target" mission) then
           match FmMap.pointToLatLon st' (get "target" mission) with
           | Some ll =>
               Some {| center := ll;
                       radius := radiusOf (get "target" mission) 50;
                       tooltip := TipTarget |}
           | None => None
           end
         else None |}.

(** [fetchMissionOnce], with the reply it awaited: [fetched] tells
    whether [fetch] returned, [body] is [None] when [r.json()] failed.
    It gives the state and the layers it leaves; [None] when it draws
    nothing. *)
Definition fetchMissionOnce (st : FmMap.State) (fetched res_ok : bool)
           (body : option json) : FmMap.State * option Layers :=
  if negb fetched || negb res_ok then (st, None)
  else
    match body with
    | None => (st, None)
    | Some j =>
        if truthy (Some j) && truthy (get "mission" (Some j))
        then (FmMap.drawMissionOverlay st (get "mission" (Some j)),
              Some (missionLayers st (get "mission" (Some j))))
        else (st, None)
    end.

End WithMath.

End FmOverlay.

(** ** More of the React application (v3): event log, commands, helpers *)

Module AppUi.

(** [fmtTs]: [ts.replace] exists on strings only. *)
Definition fmtTs (ts : value) : App.result string :=
  if negb (truthy ts) then App.Ok "-"%string
  else
    match ts with
    | Some (JStr s) =>
        App.Ok (replace_first "Z" " UTC" (replace_first "T" " " s))
    | _ => App.Throw App.TypeError
    end.

(** [typeof v === "number" && !Number.isNaN(v)]. *)
Definition isNum (v : value) : bool := is_number v && negb (is_nan v).

Definition clamp (n a b : num) : num := Math_max a (Math_min b n).

(** What an event line says; the template strings print these parts. *)
Inductive EventLine : Type :=
| WsConnected
| WsDisconnected
| WsError
| Cmd (command : string) (target : value) (delivered : value)
| TargetSet (lat lon : num).

Record LogEntry : Type := mkEntry { ts : string; line : EventLine }.

Definition LOG_MAX : nat := 50.

(** The stamp of an event, from [new Date().toISOString()]. *)
Definition stamp (iso : string) : string :=
  replace_first "Z" " UTC"
    (replace_first "T" " " (replace_first ".000" "" iso)).

(** [pushEvent]: newest first, the first 50 kept. *)
Definition pushEvent (iso : string) (l : EventLine) (prev : list LogEntry)
  : list LogEntry :=
  firstn LOG_MAX ({| ts := stamp iso; line := l |} :: prev).

(** What came back from [fetch("/api/command")] and [res.json()]. *)
Inductive Reply : Type :=
| FetchFailed
| NotJson (res_ok : bool)
| Json (res_ok : bool) (j : json).

(** What [sendCommand] and [onMapClickSetTarget] caught: the rejection
    of [fetch], the SyntaxError of [res.json()], a TypeError, or the
    [Error] they threw themselves, with the reason it was given or with
    its default text. *)
Inductive Failure : Type :=
| FailNetwork
| FailBody
| FailType
| FailReason (reason : value)
| FailDefault.

(** The [err] banner as the two leave it: empty,
    ["Command error: " + String(e)] or ["Mission error: " + String(e)];
    the frame handler can have left a parse error there. *)
Inductive Banner : Type :=
| BannerEmpty
| BannerWsParse (e : App.exn)
| BannerCommand (f : Failure)
| BannerMission (f : Failure).

(** The part of the component's state that commands and target updates
    touch. *)
Record Console : Type := mkConsole {
  sending : bool;
  banner : Banner;
  events : list LogEntry;
  healthRefreshes : nat;
  mission : value
}.

(** [new Error(reason)] converts the reason to a text. *)
Definition thrown (reason : value) : Failure :=
  if can_text reason then FailReason reason else FailType.

(** The [try] block of [sendCommand] up to its [throw]: [Some f] when
    it throws. *)
Definition commandFailure (r : Reply) : option Failure :=
  match r with
  | FetchFailed => Some FailNetwork
  | NotJson _ => Some FailBody
  | Json _ JNull => Some FailType
  | Json res_ok j =>
      if negb res_ok || negb (truthy (get "ok" (Some j)))
      then Some (if truthy (get "err" (Some j))
                 then thrown (get "err" (Some j))
                 else FailDefault)
      else None
  end.

Definition delivered_of (r : Reply) : value :=
  match r with
  | Json _ j => get "delivered" (Some j)
  | _ => None
  end.

(** The whole [try] block: after the [throw], the template literal of
    the event line converts [target] and [j.delivered] to text. *)
Definition commandThrows (target : value) (r : Reply) : option Failure :=
  match commandFailure r with
  | Some f => Some f
  | None =>
      if can_text target && can_text (delivered_of r) then None
      else Some FailType
  end.

(** [sendCommand(command)] up to its first [await]. *)
Definition sendCommand_begin (c : Console) : Console :=
  {| sending := true; banner := BannerEmpty; events := events c;
     healthRefreshes := healthRefreshes c; mission := mission c |}.

(** [sendCommand(command)] from the reply on: [c] is the state at that
    time, [target] the target the call was made with, [iso] the time at
    which the event is logged. *)
Definition sendCommand_end (iso : string) (target : value)
           (command : string) (r : Reply) (c : Console) : Console :=
  match commandThrows target r with
  | Some f =>
      {| sending := false; banner := BannerCommand f; events := events c;
         healthRefreshes := healthRefreshes c; mission := mission c |}
  | None =>
      {| sending := false; banner := banner c;
         events := pushEvent iso (Cmd command target (delivered_of r))
                     (events c);
         healthRefreshes := S (healthRefreshes c); mission := mission c |}
  end.

(** [postMissionPatch]: [Some f] when it throws, and what it returns. *)
Definition patchFailure (r : Reply) : option Failure :=
  match r with
  | FetchFailed => Some FailNetwork
  | NotJson _ => Some FailBody
  | Json _ JNull => Some FailType
  | Json res_ok j =>
      if negb res_ok || negb (truthy (get "ok" (Some j)))
      then Some (if truthy (get "error" (Some j))
                 then thrown (get "error" (Some j))
                 else if truthy (get "err" (Some j))
                 then thrown (get "err" (Some j))
                 else FailDefault)
      else None
  end.

Definition mission_of (r : Reply) : value :=
  match r with
  | Json _ j => get "mission" (Some j)
  | _ => None
  end.

(** The [target] of the patch [onMapClickSetTarget] posts; [targetLL] is
    [mission?.target_ll || null]. *)
Record Target : Type := mkTarget {
  lat : num;
  lon : num;
  alt_m : num;
  radius_m : num;
  task : string
}.

Definition targetPatch (targetLL : value) (clickLat clickLon : num)
  : Target :=
  {| lat := clickLat;
     lon := clickLon;
     alt_m := if truthy targetLL && isNum (get "alt_m" targetLL)
              then num_of (get "alt_m" targetLL) else of_Z 120;
     radius_m := if truthy targetLL && isNum (get "radius_m" targetLL)
                 then num_of (get "radius_m" targetLL) else of_Z 120;
     task := if truthy targetLL && is_text (get "task" targetLL)
             then text_of (get "task" targetLL) else "RECON"%string |}.

(** [onMapClickSetTarget(latlng)] for a Leaflet position, with the reply
    [postMissionPatch] awaited. *)
Definition onMapClickSetTarget (iso : string) (clickLat clickLon : num)
           (r : Reply) (c : Console) : Console :=
  match patchFailure r with
  | Some f =>
      {| sending := sending c; banner := BannerMission f;
         events := events c; healthRefreshes := healthRefreshes c;
         mission := mission c |}
  | None =>
      {| sending := sending c; banner := banner c;
         events := pushEvent iso (TargetSet clickLat clickLon) (events c);
         healthRefreshes := healthRefreshes c;
         mission := mission_of r |}
  end.

(** [mapCenter]: [baseLL] is [mission?.base_ll || null], [sorted] the
    node list in display order. *)
Definition baseLL_of (m : value) : value :=
  App.or_else (get "base_ll" m) null.

Definition hasLatLon (v : value) : bool :=
  isNum (get "lat" v) && isNum (get "lon" v).

Definition ANKARA : num * num := (decimal 399334 4, decimal 328597 4).

Definition mapCenter (baseLL : value) (sorted : list json) : num * num :=
  if truthy baseLL && hasLatLon baseLL
  then (num_of (get "lat" baseLL), num_of (get "lon" baseLL))
  else
    match find (fun n => hasLatLon (get "pos" (Some n))) sorted with
    | Some n => (num_of (get "lat" (get "pos" (Some n))),
                 num_of (get "lon" (get "pos" (Some n))))
    | None => ANKARA
    end.

End AppUi.

(** ** The tactical map of the React application (v2): picking a node *)

Module AppV2.

(** An entry of [mapHitRef]. *)
Record Hit : Type := mkHit { node_id : value; cx : num; cy : num; r : num }.

Record Pick : Type := mkPick { selectedNode : value; target : value }.

(** [Math.sqrt(dx * dx + dy * dy) <= h.r]. *)
Definition inside (mx my : num) (h : Hit) : bool :=
  let dx := fsub mx (cx h) in
  let dy := fsub my (cy h) in
  fleb (Math_sqrt (fadd (fmul dx dx) (fmul dy dy))) (r h).

(** [onMapClick]: [canvas] tells whether [canvasRef.current] is set;
    the click is at ([clientX], [clientY]), the canvas at ([left],
    [top]). *)
Definition onMapClick (canvas : bool) (clientX clientY left top : num)
           (hits : list Hit) (p : Pick) : Pick :=
  if negb canvas then p
  else
    match find (inside (fsub clientX left) (fsub clientY top)) hits with
    | Some h => {| selectedNode := node_id h; target := node_id h |}
    | None => {| selectedNode := null; target := target p |}
    end.

(** [ws.onmessage] of v2: it has no branch for mission updates. *)
Definition handle (st : App.State) (msg : json) : App.result App.State :=
  let m := Some msg in
  if truthy m && is_string "snapshot" (get "type" m)
  then App.setSnapshot st (App.or_else (get "nodes" m) App.empty_array)
  else App.Ok (App.upsertNode st m).

Definition onmessage (st : App.State) (f : App.Frame) : App.State :=
  match f with
  | App.Unparseable => App.setErr st (App.ErrWsParse App.SyntaxError)
  | App.Parsed msg =>
      match handle st msg with
      | App.Ok st' => st'
      | App.Throw e => App.setErr st (App.ErrWsParse e)
      end
  end.

End AppV2.

(** ** The mission page: [fmtIso] and the summary of [renderMission] *)

Module MissionPage.

Definition fmtIso (ts : value) : string :=
  match ts with
  | Some (JStr s) =>
      if truthy ts then replace_first "Z" "" (replace_first "T" " " s)
      else "-"
  | _ => "-"
  end%string.

(** The parts of the status line [id=... wp=... updated=...]. *)
Record Summary : Type := mkSummary {
  sid : value;
  wp : nat;
  updated : value
}.

Definition space : Ascii.ascii := " "%char.

Definition summaryOf (missionObj : value) : Summary :=
  let upd := fmtIso (get "updated_ts" missionObj) in
  {| sid := coalesce (get "id" missionObj) (Some (JStr "-"));
     wp := if is_array (get "waypoints" missionObj)
           then List.length (items_of (get "waypoints" missionObj))
           else 0;
     updated :=
       if negb (String.eqb upd "-") && includes_char space upd
       then option_map JStr (nth_error (split_char space upd) 1)
       else Some (JStr "-") |}.

(** What [setStatus] was last called with. *)
Inductive Status : Type :=
| StNone
| StSummary (s : Summary)
| StNoMission
| StRestError.

(** The page: the mission whose JSON text is shown, and the status. *)
Record Page : Type := mkPage { shown : value; status : Status }.

(** [renderMission(missionObj)]; [out] tells whether the output element
    exists.  The status is set inside a [try] whose [catch] is empty:
    when the template literal cannot convert the id to text, the status
    stays as it was. *)
Definition renderMission (out : bool) (pg : Page) (missionObj : value)
  : Page :=
  if negb out then pg
  else
    {| shown := missionObj;
       status := if can_text (sid (summaryOf missionObj))
                 then StSummary (summaryOf missionObj)
                 else status pg |}.

(** [ws.onmessage] of the mission page. *)
Definition onmessage (out : bool) (pg : Page) (f : FmMap.Frame) : Page :=
  match f with
  | FmMap.Unparseable => pg
  | FmMap.Parsed msg =>
      let m := Some msg in
      if truthy m && is_string "mission_update" (get "type" m)
         && truthy (get "mission" m)
      then renderMission out pg (get "mission" m)
      else pg
  end.

(** [fetchInitial], with the reply it awaited: [body] is [None] when
    [r.json()] failed. *)
Definition fetchInitial (out : bool) (pg : Page) (fetched res_ok : bool)
           (body : option json) : Page :=
  if negb fetched || negb res_ok
  then {| shown := shown pg; status := StRestError |}
  else
    match body with
    | None => {| shown := shown pg; status := StRestError |}
    | Some j =>
        if truthy (Some j) && truthy (get "mission" (Some j))
        then renderMission out pg (get "mission" (Some j))
        else {| shown := shown pg; status := StNoMission |}
    end.

End MissionPage.

(** ** More notions used in the statements *)

Definition lastPoint (b : list FmMap.latlng) : option FmMap.latlng :=
  match rev b with
  | [] => None
  | p :: _ => Some p
  end.

(** What the map shows is what the store holds: the polyline of an
    entity is its trail, its marker stands on the newest trail point, no
    trail is empty, and every entity with a trail has a record. *)
Definition display_consistent (st : FmMap.State) : Prop :=
  forall k,
    map_get k (FmMap.polylines st) = map_get k (FmMap.trails st)
    /\ map_get k (FmMap.markers st) =
       match map_get k (FmMap.trails st) with
       | Some b => lastPoint b
       | None => None
       end
    /\ map_get k (FmMap.trails st) <> Some []
    /\ (map_has k (FmMap.trails st) = true ->
        map_has k (FmMap.drones st) = true).

(** The last record of [ns] that passes the guard and has the key [k]. *)
Definition lastAccepted (k : value) (ns : list json) : option json :=
  find (fun n => accepted n && same_key k (idOf n)) (rev ns).

(** No two entries of a [Map] have the same key. *)
Fixpoint distinct_keys {V} (m : jsmap V) : Prop :=
  match m with
  | [] => True
  | (k, _) :: rest => map_has k rest = false /\ distinct_keys rest
  end.

(** The keys of the markers are truthy and distinct. *)
Definition markers_sound (st : FmMap.State) : Prop :=
  (forall k, In k (map_keys (FmMap.markers st)) -> truthy k = true)
  /\ distinct_keys (FmMap.markers st).

(** A truthy selection has a marker. *)
Definition selection_marked (st : FmMap.State) : Prop :=
  truthy (FmMap.selectedNodeId st) = true ->
  map_has (FmMap.selectedNodeId st) (FmMap.markers st) = true.

(** The number of highlighted icons. *)
Definition highlightedCount (icons : jsmap FmHud.Icon) : nat :=
  List.length (filter (fun kv => FmHud.highlighted (snd kv)) icons).

(** Events pushed one after the other, and the entry of each. *)
Definition pushAll (xs : list (string * AppUi.EventLine))
           (prev : list AppUi.LogEntry) : list AppUi.LogEntry :=
  fold_left (fun acc x => AppUi.pushEvent (fst x) (snd x) acc) xs prev.

Definition entryOf (x : string * AppUi.EventLine) : AppUi.LogEntry :=
  {| AppUi.ts := AppUi.stamp (fst x); AppUi.line := snd x |}.

(** The reply to a command or to a mission patch is a success: the
    HTTP status is ok and the body is an object with a truthy [ok]. *)
Definition replyOk (r : AppUi.Reply) : bool :=
  match r with
  | AppUi.Json true j => truthy (get "ok" (Some j))
  | _ => false
  end.

(** A command succeeds: the reply is a success, and the target and the
    body's [delivered] can be written into the event line. *)
Definition commandOk (target : value) (r : AppUi.Reply) : bool :=
  replyOk r && can_text target && can_text (AppUi.delivered_of r).

(** The status line tells the state of the connection: a socket is
    live and nothing is pending while it reads CONNECTING, OK or ERROR;
    no socket is live and one reconnect is pending while it reads
    CLOSED - RETRY; nothing is live or pending once it reads INIT
    ERROR. *)
Definition status_sound (n : FmMap.Net) : Prop :=
  match FmMap.hud n with
  | Some FmMap.WS_CONNECTING | Some FmMap.WS_OK | Some FmMap.WS_ERROR =>
      liveCount (FmMap.sockets n) = 1 /\ FmMap.timers n = []
  | Some FmMap.WS_CLOSED_RETRY =>
      liveCount (FmMap.sockets n) = 0 /\ List.length (FmMap.timers n) = 1
  | Some FmMap.WS_INIT_ERROR =>
      liveCount (FmMap.sockets n) = 0 /\ FmMap.timers n = []
  | None => False
  end.

Definition is_elapse (ev : FmMap.Event) : bool :=
  match ev with
  | FmMap.Elapse _ => true
  | _ => false
  end.

(** A number that is neither NaN nor an infinity. *)
Definition is_finite (x : num) : bool :=
  match x with
  | S754_zero _ | S754_finite _ _ _ => true
  | _ => false
  end.

(** Some element of the array is [null]. *)
Definition has_null (ns : list json) : bool :=
  existsb (fun n => negb (not_null n)) ns.

Definition charDot : Ascii.ascii := "."%char.

(** The text has no occurrence of the character. *)
Definition free_of (c : Ascii.ascii) (s : string) : Prop :=
  includes_char c s = false.

Definition charT : Ascii.ascii := "T"%char.
Definition charZ : Ascii.ascii := "Z"%char.

(** A record whose nested heading is a text and whose top-level heading
    is a number. *)
Definition headedRecord : json :=
  JObj 1 [("node_id"%string, JStr "UAV1"); ("pos"%string, geo 2 10 20);
          ("vel"%string, JObj 3 [("heading_deg"%string, JStr "north")]);
          ("heading_deg"%string, JNum (of_Z 90))].

(** Two circles of the tactical map, and a pick with no node selected. *)
Definition hitUAV1 : AppV2.Hit :=
  {| AppV2.node_id := Some (JStr "UAV1"); AppV2.cx := of_Z 100;
     AppV2.cy := of_Z 100; AppV2.r := of_Z 8 |}.

Definition hitUAV2 : AppV2.Hit :=
  {| AppV2.node_id := Some (JStr "UAV2"); AppV2.cx := of_Z 103;
     AppV2.cy := of_Z 104; AppV2.r := of_Z 8 |}.

Definition pickNone : AppV2.Pick :=
  {| AppV2.selectedNode := null; AppV2.target := Some (JStr "all") |}.

(** A mission with a geographic base, two staging points of which the
    first has no position, and a planar target. *)
Definition sampleMission : value :=
  Some (JObj 1 [("base"%string, geo 2 41 29);
                ("staging_points"%string,
                 JArr 3 [JObj 4 []; planar 5 100 200]);
                ("target"%string, planar 6 0 111320)]).


Definition missionWithId : json :=
  JObj 1 [("type"%string, JStr "mission_update");
          ("node_id"%string, JStr "UAV1");
          ("mission"%string, JObj 2 [])].

(** A reply that is a success but whose [delivered] has no text, and a
    mission whose id has none. *)
Definition untextable : json := JObj 9 [("toString"%string, JNum (of_Z 1))].

Definition replyUntextable : AppUi.Reply :=
  AppUi.Json true
    (JObj 1 [("ok"%string, JBool true); ("delivered"%string, untextable)]).

Definition missionUntextable : value :=
  Some (JObj 1 [("id"%string, untextable);
                ("updated_ts"%string, JStr "2026-01-10T14:51:56Z")]).

(** A console in which the frame handler left a parse error. *)
Definition consoleParseError : AppUi.Console :=
  {| AppUi.sending := true;
     AppUi.banner := AppUi.BannerWsParse App.SyntaxError;
     AppUi.events := []; AppUi.healthRefreshes := 0;
     AppUi.mission := null |}.

(** A session of the map page: a record arrives and its marker is
    clicked. *)
Definition sampleSession : list FmHud.UiEvent :=
  [FmHud.Receives (FmMap.Parsed headedRecord); FmHud.ClicksMarker 0].
(* ================================================================== *)
(** * Part II: facts *)
(* ================================================================== *)

(** ** Keys and [Map] *)

Lemma num_eqb_eq (x y : num) : num_eqb x y = true <-> x = y.
Proof.
  destruct x as [a|a| |a m e], y as [b|b| |b n f]; simpl;
    try (split; [discriminate | congruence]).
  - rewrite Bool.eqb_true_iff. split; congruence.
  - rewrite Bool.eqb_true_iff. split; congruence.
  - split; reflexivity.
  - rewrite !andb_true_iff, Bool.eqb_true_iff, Pos.eqb_eq, Z.eqb_eq.
    split; [intros [[-> ->] ->]; reflexivity | intros H; inversion H; auto].
Qed.

Lemma key_eqb_eq (j k : key) : key_eqb j k = true <-> j = k.
Proof.
  destruct j, k; simpl; try (split; [discriminate | congruence]);
    try (split; reflexivity).
  - rewrite Bool.eqb_true_iff. split; congruence.
  - rewrite num_eqb_eq. split; congruence.
  - rewrite String.eqb_eq. split; congruence.
  - rewrite Nat.eqb_eq. split; congruence.
Qed.

Lemma same_key_iff (a b : value) : same_key a b = true <-> key_of a = key_of b.
Proof. apply key_eqb_eq. Qed.

Lemma same_key_refl (a : value) : same_key a a = true.
Proof. apply same_key_iff. reflexivity. Qed.

Lemma same_key_sym (a b : value) : same_key a b = same_key b a.
Proof.
  destruct (same_key a b) eqn:E, (same_key b a) eqn:F; try reflexivity.
  - apply same_key_iff in E. symmetry in E. apply same_key_iff in E. congruence.
  - apply same_key_iff in F. symmetry in F. apply same_key_iff in F. congruence.
Qed.

(** Two keys that hit the same entry are hit by the same keys. *)
Lemma same_key_compat (c : value) {a b : value} :
  same_key a b = true -> same_key c a = same_key c b.
Proof.
  intros H. apply same_key_iff in H. unfold same_key. rewrite H. reflexivity.
Qed.

Lemma canon_norm_zero (x : num) : canon (norm_zero x) = canon x.
Proof. destruct x; reflexivity. Qed.

Lemma key_of_norm_key (k : value) : key_of (norm_key k) = key_of k.
Proof.
  destruct k as [[]|]; simpl; try reflexivity. now rewrite canon_norm_zero.
Qed.

Lemma same_key_norm_r (a k : value) : same_key a (norm_key k) = same_key a k.
Proof. unfold same_key. now rewrite key_of_norm_key. Qed.

Lemma same_key_false_iff (a b : value) :
  same_key a b = false <-> key_of a <> key_of b.
Proof.
  rewrite <- same_key_iff. destruct (same_key a b); split; congruence.
Qed.

(** Turns every comparison of keys into an equation or a disequation of
    their [key_of], then decides. *)
Ltac keys :=
  repeat match goal with
         | H : same_key _ _ = true |- _ => apply same_key_iff in H
         | H : same_key _ _ = false |- _ => apply same_key_false_iff in H
         | |- same_key _ _ = true => apply same_key_iff
         | |- same_key _ _ = false => apply same_key_false_iff
         end;
  rewrite ?key_of_norm_key in *; congruence.

Section MapFacts.
Variable V : Type.
Implicit Types (m : jsmap V) (k : value) (v : V).

Lemma map_get_set m k k' v :
  map_get k' (map_set k v m) = if same_key k' k then Some v else map_get k' m.
Proof.
  induction m as [|[k0 v0] m IH]; simpl.
  - rewrite same_key_norm_r. reflexivity.
  - destruct (same_key k k0) eqn:F; simpl.
    + destruct (same_key k' k0) eqn:G, (same_key k' k) eqn:E;
        try reflexivity; exfalso; keys.
    + rewrite IH.
      destruct (same_key k' k0) eqn:G, (same_key k' k) eqn:E;
        try reflexivity; exfalso; keys.
Qed.

Lemma map_get_set_same m k v : map_get k (map_set k v m) = Some v.
Proof. now rewrite map_get_set, same_key_refl. Qed.

Lemma map_get_set_other m k k' v :
  same_key k' k = false -> map_get k' (map_set k v m) = map_get k' m.
Proof. intros H. now rewrite map_get_set, H. Qed.

Lemma map_has_set m k k' v :
  map_has k' (map_set k v m) = same_key k' k || map_has k' m.
Proof.
  unfold map_has. rewrite map_get_set. now destruct (same_key k' k).
Qed.

Lemma map_has_set_preserved m k k' v :
  map_has k' m = true -> map_has k' (map_set k v m) = true.
Proof. intros H. rewrite map_has_set, H. apply orb_true_r. Qed.

(** The keys of a [Map] after [set]: the old ones, and the new one at
    the end if it was not there. *)
Lemma map_keys_set m k v :
  map_keys (map_set k v m) =
  if map_has k m then map_keys m else map_keys m ++ [norm_key k].
Proof.
  unfold map_has. induction m as [|[k0 v0] m IH]; simpl; auto.
  destruct (same_key k k0) eqn:E; simpl; auto.
  rewrite IH. now destruct (map_get k m).
Qed.

Lemma map_has_In m k :
  map_has k m = true <-> exists k0, In k0 (map_keys m) /\ same_key k k0 = true.
Proof.
  unfold map_has. induction m as [|[k0 v0] m IH]; simpl.
  - split; [discriminate | intros (? & [] & _)].
  - destruct (same_key k k0) eqn:E.
    + split; auto. intros _. exists k0. auto.
    + rewrite IH. split.
      * intros (k1 & H1 & H2). exists k1. auto.
      * intros (k1 & [<- | H1] & H2); [congruence|]. exists k1. auto.
Qed.

End MapFacts.

(** ** Binary64 arithmetic *)

Lemma digits2_pos_size (p : positive) : digits2_pos p = Pos.size p.
Proof. induction p; cbn; congruence. Qed.

Lemma digits_lower (p : positive) :
  (2 ^ (Z.pos (digits2_pos p) - 1) <= Z.pos p)%Z.
Proof.
  rewrite digits2_pos_size.
  assert (H : (Z.pos (2 ^ Pos.size p) <= Z.pos p~0)%Z)
    by exact (Pos.size_le p).
  rewrite Pos2Z.inj_pow in H.
  replace (Z.pos (Pos.size p)) with (Z.succ (Z.pos (Pos.size p) - 1)) in H
    by lia.
  rewrite Z.pow_succ_r in H by lia. lia.
Qed.

Lemma digits_upper (p : positive) : (Z.pos p < 2 ^ Z.pos (digits2_pos p))%Z.
Proof.
  rewrite digits2_pos_size.
  assert (H : (Z.pos p < Z.pos (2 ^ Pos.size p))%Z) by exact (Pos.size_gt p).
  now rewrite Pos2Z.inj_pow in H.
Qed.

Lemma Zdigits2_pos (m : Z) :
  (0 < m)%Z -> (0 < Zdigits2 m)%Z /\ (2 ^ (Zdigits2 m - 1) <= m)%Z.
Proof.
  destruct m as [|p|p]; try lia. intros _. cbn [Zdigits2].
  split; [lia | apply digits_lower].
Qed.

(** One shift to the right halves the mantissa. *)
Lemma shr_1_m (r : shr_record) :
  (0 <= shr_m r)%Z -> shr_m (shr_1 r) = (shr_m r / 2)%Z.
Proof.
  destruct r as [m rr s]. cbn. intros H.
  destruct m as [|[p|p|]|p]; cbn; try lia.
  - rewrite Pos2Z.inj_xI. apply Z.div_unique with 1%Z; lia.
  - rewrite Pos2Z.inj_xO. apply Z.div_unique with 0%Z; lia.
Qed.

Lemma iter_shr_m (p : positive) (r : shr_record) :
  (0 <= shr_m r)%Z ->
  shr_m (SpecFloat.iter_pos shr_1 p r) = (shr_m r / 2 ^ Z.pos p)%Z.
Proof.
  revert r. induction p as [p IH|p IH|]; intros r H; cbn [SpecFloat.iter_pos].
  - assert (H1 : (0 <= shr_m (shr_1 r))%Z).
    { rewrite shr_1_m by exact H. apply Z.div_pos; lia. }
    assert (H2 : (0 <= shr_m (SpecFloat.iter_pos shr_1 p (shr_1 r)))%Z).
    { rewrite IH by exact H1. apply Z.div_pos; lia. }
    rewrite IH by exact H2. rewrite IH by exact H1.
    rewrite shr_1_m by exact H.
    rewrite !Z.div_div by lia. f_equal.
    rewrite Pos2Z.inj_xI, <- Z.pow_add_r, <- (Z.pow_1_r 2) at 1 by lia.
    rewrite <- Z.pow_add_r by lia. f_equal. lia.
  - assert (H2 : (0 <= shr_m (SpecFloat.iter_pos shr_1 p r))%Z).
    { rewrite IH by exact H. apply Z.div_pos; lia. }
    rewrite IH by exact H2. rewrite IH by exact H.
    rewrite !Z.div_div by lia. f_equal.
    rewrite Pos2Z.inj_xO, <- Z.pow_add_r by lia. f_equal. lia.
  - rewrite shr_1_m by exact H. reflexivity.
Qed.

Lemma shr_m_pos (r : shr_record) (e n : Z) :
  (0 < shr_m r)%Z -> (2 ^ n <= shr_m r)%Z \/ (n <= 0)%Z ->
  (0 < shr_m (fst (shr r e n)))%Z /\ snd (shr r e n) = (e + Z.max n 0)%Z.
Proof.
  intros P H. destruct n as [|p|p]; cbn [shr fst snd].
  - split; [exact P | lia].
  - rewrite iter_shr_m by lia. split; [|lia].
    destruct H as [H|H]; [|lia].
    apply Z.div_str_pos. split; [lia | exact H].
  - split; [exact P | lia].
Qed.

Lemma round_nearest_even_pos (m : Z) (l : location) :
  (0 < m)%Z -> (0 < round_nearest_even m l)%Z.
Proof.
  intros H. destruct l as [|[]]; cbn [round_nearest_even]; try lia.
  destruct (Z.even m); lia.
Qed.

Lemma shr_record_of_loc_m (m : Z) (l : location) :
  shr_m (shr_record_of_loc m l) = m.
Proof. destruct l as [|[]]; reflexivity. Qed.

(** After [shr_fexp] a positive mantissa of a number above the smallest
    exponent is still positive, and the exponent is at least [emin]. *)
Lemma shr_fexp_pos (m e : Z) (l : location) :
  (0 < m)%Z -> (emin prec emax < Zdigits2 m + e)%Z ->
  (0 < shr_m (fst (shr_fexp prec emax m e l)))%Z
  /\ (emin prec emax <= snd (shr_fexp prec emax m e l))%Z.
Proof.
  intros P H. unfold shr_fexp.
  destruct (Zdigits2_pos m P) as [D L].
  set (n := (fexp prec emax (Zdigits2 m + e) - e)%Z).
  assert (N : (n <= Zdigits2 m - 1)%Z).
  { unfold n, fexp, emin, prec, emax in *. lia. }
  destruct (shr_m_pos (shr_record_of_loc m l) e n) as [A B].
  - now rewrite shr_record_of_loc_m.
  - rewrite shr_record_of_loc_m.
    destruct (Z.le_gt_cases n 0) as [Z|Z]; [now right | left].
    apply Z.le_trans with (2 ^ (Zdigits2 m - 1))%Z; [|exact L].
    apply Z.pow_le_mono_r; lia.
  - split; [exact A|]. rewrite B. unfold n, fexp, emin, prec, emax. lia.
Qed.

(** Rounding does not lose a number that lies above the smallest
    exponent: the result is finite or infinite, never zero. *)
Lemma binary_round_aux_nonzero (s : bool) (m e : Z) (l : location) :
  (0 < m)%Z -> (emin prec emax < Zdigits2 m + e)%Z ->
  is_nonzero_number (binary_round_aux prec emax s m e l) = true.
Proof.
  intros P H. unfold binary_round_aux.
  destruct (shr_fexp_pos m e l P H) as [A B].
  destruct (shr_fexp prec emax m e l) as [mrs' e']. cbn [fst snd] in A, B.
  pose proof (round_nearest_even_pos (shr_m mrs') (loc_of_shr_record mrs') A)
    as R.
  destruct (shr_fexp_pos _ e' loc_Exact R) as [A2 _].
  { destruct (Zdigits2_pos _ R). lia. }
  destruct (shr_fexp prec emax _ e' loc_Exact) as [mrs'' e''].
  cbn [fst] in A2.
  destruct (shr_m mrs'') as [|p|p]; try lia.
  destruct (e'' <=? emax - prec)%Z; reflexivity.
Qed.

(** 111320 times a finite number other than zero is not zero. *)
Lemma fmul_scale_nonzero (c : num) :
  finite_nonzero c = true ->
  is_nonzero_number (fmul (of_Z 111320) c) = true.
Proof.
  destruct c as [| | |s m e]; try discriminate. cbn [finite_nonzero].
  intros V.
  change (of_Z 111320) with (S754_finite false 7649852150251520 (-36)).
  unfold fmul, SFmul. apply binary_round_aux_nonzero; [lia|].
  unfold bounded, canonical_mantissa in V.
  apply andb_true_iff in V. destruct V as [C _]. apply Z.eqb_eq in C.
  assert (E : (emin prec emax <= e)%Z) by (rewrite <- C; unfold fexp; lia).
  cbn [Zdigits2].
  pose proof (digits_upper (7649852150251520 * m)) as U.
  assert (L : (2 ^ 52 <= Z.pos (7649852150251520 * m))%Z) by lia.
  assert (D : (52 < Z.pos (digits2_pos (7649852150251520 * m)))%Z).
  { apply (Z.pow_lt_mono_r_iff 2); lia. }
  unfold emin, prec, emax in *. lia.
Qed.

Lemma fdiv_zero_l (s : bool) (d : num) :
  is_nonzero_number d = true -> exists s', fdiv (S754_zero s) d = S754_zero s'.
Proof. destruct d; simpl; try discriminate; intros _; eexists; reflexivity. Qed.

Lemma fadd_zero_r (x : num) (s : bool) :
  is_nonzero_number x = true -> fadd x (S754_zero s) = x.
Proof. destruct x; simpl; try discriminate; reflexivity. Qed.

(** ** The coordinate projector and position resolution *)

Lemma anchorLon_init :
  FmMap.anchorLon FmMap.init = S754_finite false 4624591646109571 (-47).
Proof. vm_compute. reflexivity. Qed.

Section ProjectorFacts.
Context {M : MathLib}.

Lemma resolvePosition_in_order (st : FmMap.State) (t : value) :
  FmMap.resolvePosition st t = Spec.resolveInOrder st t.
Proof.
  unfold FmMap.resolvePosition, Spec.resolveInOrder, Spec.geoForm,
    Spec.planarForm, Spec.bareForm, Spec.project.
  destruct (truthy (get "pos" t) && is_number (get "lat" (get "pos" t))
            && is_number (get "lon" (get "pos" t))); [reflexivity|].
  destruct (truthy (get "pos" t) && is_number (get "x" (get "pos" t))
            && is_number (get "y" (get "pos" t))); [reflexivity|].
  destruct (is_number (get "x" t) && is_number (get "y" t)); reflexivity.
Qed.

(** With a zero offset to the east the longitude is the anchor's. *)
Lemma xyToLatLon_zero_east (y : num) :
  finite_nonzero (cosAtAnchor FmMap.init) = true ->
  snd (FmMap.xyToLatLon FmMap.init (of_Z 0) y) = FmMap.anchorLon FmMap.init.
Proof.
  intros C. apply fmul_scale_nonzero in C. unfold cosAtAnchor in C.
  unfold FmMap.xyToLatLon. cbn [snd].
  change (of_Z 0) with (S754_zero false).
  destruct (fdiv_zero_l false _ C) as [s' ->].
  apply fadd_zero_r. rewrite anchorLon_init. reflexivity.
Qed.

(** C8: the coordinate projector computes
    lat = anchor.lat + y / 111320 and
    lon = anchor.lon + x / (111320 * cos(anchor.lat in radians)), in
    binary64 arithmetic.  With the anchor (39.9334, 32.8597), and
    [Math.cos] returning a finite number other than zero for it, the
    offset (0, 0) projects exactly to the anchor, and the offset
    (0, 111320) gives the latitude 40.9334, exactly one degree more, and
    the anchor's longitude. *)
Theorem projector_formula_and_anchor_cases :
  (forall st x y,
      FmMap.xyToLatLon st x y =
      (fadd (FmMap.anchorLat st) (fdiv y (of_Z 111320)),
       fadd (FmMap.anchorLon st)
         (fdiv x
            (fmul (of_Z 111320)
               (Math_cos
                  (fdiv (fmul (FmMap.anchorLat st) Math_PI) (of_Z 180)))))))
  /\ FmMap.anchorLat FmMap.init = decimal 399334 4
  /\ FmMap.anchorLon FmMap.init = decimal 328597 4
  /\ (finite_nonzero (cosAtAnchor FmMap.init) = true ->
      FmMap.xyToLatLon FmMap.init (of_Z 0) (of_Z 0) =
      (FmMap.anchorLat FmMap.init, FmMap.anchorLon FmMap.init)
      /\ FmMap.xyToLatLon FmMap.init (of_Z 0) (of_Z 111320) =
         (decimal 409334 4, FmMap.anchorLon FmMap.init)
      /\ Spec.exactly_plus (decimal 409334 4) (FmMap.anchorLat FmMap.init) 1).
Proof.
  split; [reflexivity|]. split; [reflexivity|]. split; [reflexivity|].
  intros C. split; [|split].
  - rewrite (surjective_pairing (FmMap.xyToLatLon _ _ _)).
    rewrite (xyToLatLon_zero_east _ C).
    apply f_equal2; [vm_compute; reflexivity | reflexivity].
  - rewrite (surjective_pairing (FmMap.xyToLatLon _ _ _)).
    rewrite (xyToLatLon_zero_east _ C).
    apply f_equal2; [vm_compute; reflexivity | reflexivity].
  - vm_compute. reflexivity.
Qed.

(** C7: position resolution tries, in this order, the structured
    geographic lat/lon field, the structured planar x/y field projected
    through the coordinate projector, and the bare top-level x/y field
    projected through the coordinate projector; the first form that
    matches wins, so a geographic form beats a planar one.  The same order
    governs [pointToLatLon] on its two forms. *)
Theorem position_resolution_order (st : FmMap.State) (t : value) :
  FmMap.resolvePosition st t = Spec.resolveInOrder st t
  /\ (forall ll,
         Spec.geoForm (get "pos" t) = Some ll ->
         FmMap.resolvePosition st t = Some ll)
  /\ (forall xy,
         Spec.geoForm (get "pos" t) = None ->
         Spec.planarForm (get "pos" t) = Some xy ->
         FmMap.resolvePosition st t =
         Some (FmMap.xyToLatLon st (fst xy) (snd xy)))
  /\ (forall xy,
         Spec.geoForm (get "pos" t) = None ->
         Spec.planarForm (get "pos" t) = None ->
         Spec.bareForm t = Some xy ->
         FmMap.resolvePosition st t =
         Some (FmMap.xyToLatLon st (fst xy) (snd xy)))
  /\ (Spec.geoForm (get "pos" t) = None ->
      Spec.planarForm (get "pos" t) = None ->
      Spec.bareForm t = None ->
      FmMap.resolvePosition st t = None)
  /\ (forall p,
         is_object p = true ->
         FmMap.pointToLatLon st p =
         Spec.firstMatch
           [Spec.geoForm p; option_map (Spec.project st) (Spec.planarForm p)]).
Proof.
  split; [apply resolvePosition_in_order|].
  rewrite resolvePosition_in_order. unfold Spec.resolveInOrder.
  repeat split.
  - intros ll ->. reflexivity.
  - intros xy -> ->. reflexivity.
  - intros xy -> -> ->. reflexivity.
  - intros -> -> ->. reflexivity.
  - intros p Hp. unfold FmMap.pointToLatLon, Spec.geoForm, Spec.planarForm.
    assert (Ht : truthy p = true) by (destruct p as [[]|]; auto; discriminate).
    rewrite Ht, Hp. simpl.
    destruct (is_number (get "lat" p) && is_number (get "lon" p));
      [reflexivity|].
    destruct (is_number (get "x" p) && is_number (get "y" p)); reflexivity.
Qed.

End ProjectorFacts.

(** ** The trail buffer *)

Lemma keepLast_short {A} (n : nat) (l : list A) :
  List.length l <= n -> Spec.keepLast n l = l.
Proof.
  intros H. unfold Spec.keepLast.
  replace (List.length l - n) with 0 by lia. reflexivity.
Qed.

Lemma keepLast_length {A} (n : nat) (l : list A) :
  List.length (Spec.keepLast n l) = Nat.min (List.length l) n.
Proof. unfold Spec.keepLast. rewrite length_skipn. lia. Qed.

Lemma keepLast_app {A} (n : nat) (l r : list A) :
  Spec.keepLast n (Spec.keepLast n l ++ r) = Spec.keepLast n (l ++ r).
Proof.
  destruct (Nat.le_gt_cases (List.length l) n) as [H|H].
  - now rewrite (keepLast_short n l H).
  - unfold Spec.keepLast at 1 3.
    rewrite !length_app, keepLast_length, !skipn_app, keepLast_length.
    unfold Spec.keepLast. rewrite skipn_skipn.
    replace (Nat.min (List.length l) n) with n by lia.
    f_equal; f_equal; lia.
Qed.

Lemma shiftWhile_keepLast (fuel : nat) (buf : list FmMap.latlng) :
  List.length buf <= FmMap.TRAIL_MAX + fuel ->
  FmMap.shiftWhile fuel buf = Spec.keepLast FmMap.TRAIL_MAX buf.
Proof.
  revert buf. induction fuel as [|fuel IH]; intros buf H.
  - rewrite keepLast_short by lia. reflexivity.
  - cbn [FmMap.shiftWhile].
    destruct (Nat.ltb_spec FmMap.TRAIL_MAX (List.length buf)) as [L|L].
    + destruct buf as [|x r]; [cbn [List.length] in L; lia|].
      cbn [tl List.length] in *. rewrite IH by lia.
      unfold Spec.keepLast. cbn [List.length].
      replace (S (List.length r) - FmMap.TRAIL_MAX)
        with (S (List.length r - FmMap.TRAIL_MAX)) by lia.
      reflexivity.
    + now rewrite keepLast_short.
Qed.

(** The append keeps the newest [TRAIL_MAX] points. *)
Lemma pushTrail_keepLast (buf : list FmMap.latlng) (p : FmMap.latlng) :
  FmMap.pushTrail buf p = Spec.keepLast FmMap.TRAIL_MAX (buf ++ [p]).
Proof. unfold FmMap.pushTrail. apply shiftWhile_keepLast. lia. Qed.

Lemma pushTrail_length (buf : list FmMap.latlng) (p : FmMap.latlng) :
  List.length (FmMap.pushTrail buf p) =
  Nat.min (S (List.length buf)) FmMap.TRAIL_MAX.
Proof.
  rewrite pushTrail_keepLast, keepLast_length, length_app.
  cbn [List.length]. lia.
Qed.

Lemma pushTrail_room (buf : list FmMap.latlng) (p : FmMap.latlng) :
  List.length buf < FmMap.TRAIL_MAX -> FmMap.pushTrail buf p = buf ++ [p].
Proof.
  intros H. rewrite pushTrail_keepLast. apply keepLast_short.
  rewrite length_app. cbn [List.length]. lia.
Qed.

Lemma pushTrail_full (buf : list FmMap.latlng) (p : FmMap.latlng) :
  List.length buf = FmMap.TRAIL_MAX -> FmMap.pushTrail buf p = tl buf ++ [p].
Proof.
  intros H. rewrite pushTrail_keepLast. unfold Spec.keepLast.
  rewrite length_app. cbn [List.length].
  replace (List.length buf + 1 - FmMap.TRAIL_MAX) with 1 by lia.
  destruct buf as [|x r]; [discriminate H|]. reflexivity.
Qed.

(** ** [applyTelemetry], field by field *)

Section ApplyTelemetryFacts.
Context {M : MathLib}.

Lemma resolvable_false (st : FmMap.State) (t : json) :
  resolvable t = false <-> FmMap.resolvePosition st (Some t) = None.
Proof.
  rewrite resolvePosition_in_order. unfold resolvable, Spec.resolveInOrder.
  destruct (Spec.geoForm _), (Spec.planarForm _), (Spec.bareForm _);
    simpl; split; intros H; try reflexivity; discriminate H.
Qed.

Lemma resolvable_true (st : FmMap.State) (t : json) :
  resolvable t = true <-> exists ll, FmMap.resolvePosition st (Some t) = Some ll.
Proof.
  destruct (FmMap.resolvePosition st (Some t)) as [ll|] eqn:E.
  - split; [eauto|]. intros _. destruct (resolvable t) eqn:R; auto.
    apply (resolvable_false st) in R. congruence.
  - apply resolvable_false in E. rewrite E.
    split; [discriminate | intros [? ?]; discriminate].
Qed.

Ltac unfold_apply :=
  unfold FmMap.applyTelemetry, FmMap.ensureDrone, accepted, idOf, trailOf.

Lemma applyTelemetry_rejected (st : FmMap.State) (t : json) :
  accepted t = false -> FmMap.applyTelemetry st t = st.
Proof.
  unfold_apply. intros H.
  destruct (truthy (Some t)), (truthy (get "node_id" (Some t)));
    try discriminate; reflexivity.
Qed.

Lemma applyTelemetry_unpositioned (st : FmMap.State) (t : json) :
  accepted t = true ->
  FmMap.resolvePosition st (Some t) = None ->
  FmMap.applyTelemetry st t =
  {| FmMap.anchorLat := FmMap.anchorLat st;
     FmMap.anchorLon := FmMap.anchorLon st;
     FmMap.drones := map_set (idOf t) t (FmMap.drones st);
     FmMap.trails := FmMap.trails st;
     FmMap.markers := FmMap.markers st;
     FmMap.polylines := FmMap.polylines st;
     FmMap.selectedNodeId := FmMap.selectedNodeId st |}.
Proof.
  unfold_apply. intros H R. rewrite R.
  destruct (truthy (Some t)), (truthy (get "node_id" (Some t)));
    try discriminate; reflexivity.
Qed.

Lemma applyTelemetry_anchor (st : FmMap.State) (t : json) :
  FmMap.anchorLat (FmMap.applyTelemetry st t) = FmMap.anchorLat st
  /\ FmMap.anchorLon (FmMap.applyTelemetry st t) = FmMap.anchorLon st.
Proof.
  unfold_apply.
  destruct (negb (truthy (Some t)) || negb (truthy (get "node_id" (Some t))));
    [auto|].
  destruct (FmMap.resolvePosition st (Some t)); [|auto].
  cbn. destruct (negb (map_has _ _)); auto.
Qed.

Lemma applyTelemetry_drones (st : FmMap.State) (t : json) :
  FmMap.drones (FmMap.applyTelemetry st t) =
  if accepted t then map_set (idOf t) t (FmMap.drones st)
  else FmMap.drones st.
Proof.
  unfold_apply.
  destruct (truthy (Some t)), (truthy (get "node_id" (Some t)));
    try reflexivity.
  cbn. destruct (FmMap.resolvePosition st (Some t)); [|reflexivity].
  cbn. destruct (negb (map_has _ _)); reflexivity.
Qed.

Lemma applyTelemetry_trails (st : FmMap.State) (t : json) :
  FmMap.trails (FmMap.applyTelemetry st t) =
  if accepted t then
    match FmMap.resolvePosition st (Some t) with
    | Some ll =>
        map_set (idOf t) (FmMap.pushTrail (trailOf (idOf t) st) ll)
          (FmMap.trails st)
    | None => FmMap.trails st
    end
  else FmMap.trails st.
Proof.
  unfold_apply.
  destruct (truthy (Some t)), (truthy (get "node_id" (Some t)));
    try reflexivity.
  cbn. destruct (FmMap.resolvePosition st (Some t)); [|reflexivity].
  cbn. destruct (negb (map_has _ _)); reflexivity.
Qed.

Lemma applyTelemetry_selected (st : FmMap.State) (t : json) :
  FmMap.selectedNodeId (FmMap.applyTelemetry st t) =
  if accepted t && resolvable t && negb (truthy (FmMap.selectedNodeId st))
  then idOf t
  else FmMap.selectedNodeId st.
Proof.
  destruct (accepted t) eqn:A.
  2:{ now rewrite applyTelemetry_rejected. }
  destruct (resolvable t) eqn:R.
  - apply (resolvable_true st) in R. destruct R as [ll R].
    revert A. unfold_apply. intros A. rewrite R.
    destruct (truthy (Some t)), (truthy (get "node_id" (Some t)));
      try discriminate.
    cbn. destruct (negb (map_has _ _)); cbn;
      destruct (truthy (FmMap.selectedNodeId st)); reflexivity.
  - apply (resolvable_false st) in R.
    now rewrite applyTelemetry_unpositioned.
Qed.

Lemma applyTelemetry_markers_other (st : FmMap.State) (t : json) (k : value) :
  same_key k (idOf t) = false ->
  map_get k (FmMap.markers (FmMap.applyTelemetry st t)) =
  map_get k (FmMap.markers st).
Proof.
  intros K. revert K. unfold_apply. intros K.
  destruct (truthy (Some t)), (truthy (get "node_id" (Some t)));
    try reflexivity.
  cbn. destruct (FmMap.resolvePosition st (Some t)); [|reflexivity].
  cbn. destruct (negb (map_has _ (FmMap.markers st))); cbn.
  - destruct (map_has _ _); rewrite ?map_get_set_other by exact K;
      reflexivity.
  - destruct (map_has _ _); rewrite ?map_get_set_other by exact K;
      reflexivity.
Qed.

Lemma applyTelemetry_polylines_other (st : FmMap.State) (t : json)
      (k : value) :
  same_key k (idOf t) = false ->
  map_get k (FmMap.polylines (FmMap.applyTelemetry st t)) =
  map_get k (FmMap.polylines st).
Proof.
  intros K. revert K. unfold_apply. intros K.
  destruct (truthy (Some t)), (truthy (get "node_id" (Some t)));
    try reflexivity.
  cbn. destruct (FmMap.resolvePosition st (Some t)); [|reflexivity].
  cbn. destruct (negb (map_has _ (FmMap.markers st))); cbn.
  - destruct (map_has _ _); rewrite ?map_get_set_other by exact K;
      reflexivity.
  - destruct (map_has _ _); rewrite ?map_get_set_other by exact K;
      reflexivity.
Qed.

End ApplyTelemetryFacts.

(** ** Trails over a session *)

Lemma map_get_same_key {V} (m : jsmap V) (j k : value) :
  same_key j k = true -> map_get j m = map_get k m.
Proof.
  intros H. induction m as [|[k0 v0] m IH]; simpl; auto.
  rewrite IH. destruct (same_key j k0) eqn:A, (same_key k k0) eqn:B;
    try reflexivity; exfalso; keys.
Qed.

Lemma trails_evolve_refl (st : FmMap.State) :
  trails_bounded st -> trails_evolve st st.
Proof.
  intros B k old H. exists []. rewrite app_nil_r, keepLast_short; eauto.
Qed.

Lemma trails_evolve_trans (a b c : FmMap.State) :
  trails_evolve a b -> trails_evolve b c -> trails_evolve a c.
Proof.
  intros AB BC k old H.
  destruct (AB k old H) as [ps1 H1]. destruct (BC k _ H1) as [ps2 H2].
  exists (ps1 ++ ps2). now rewrite H2, keepLast_app, app_assoc.
Qed.

Section TrailFacts.
Context {M : MathLib}.

Lemma applyTelemetry_trails_bounded (st : FmMap.State) (t : json) :
  trails_bounded st -> trails_bounded (FmMap.applyTelemetry st t).
Proof.
  intros B k b. rewrite applyTelemetry_trails.
  destruct (accepted t); [|apply B].
  destruct (FmMap.resolvePosition st (Some t)) as [ll|]; [|apply B].
  rewrite map_get_set. destruct (same_key k (idOf t)); [|apply B].
  intros [= <-]. rewrite pushTrail_length. lia.
Qed.

Lemma applyTelemetry_trails_evolve (st : FmMap.State) (t : json) :
  trails_bounded st -> trails_evolve st (FmMap.applyTelemetry st t).
Proof.
  intros B k old H. rewrite applyTelemetry_trails.
  destruct (accepted t); [|now apply trails_evolve_refl].
  destruct (FmMap.resolvePosition st (Some t)) as [ll|];
    [|now apply trails_evolve_refl].
  rewrite map_get_set. destruct (same_key k (idOf t)) eqn:K.
  - exists [ll]. rewrite pushTrail_keepLast. unfold trailOf.
    now rewrite <- (map_get_same_key _ _ _ K), H.
  - now apply trails_evolve_refl.
Qed.

Lemma applyAll_trails (ns : list json) (st : FmMap.State) :
  trails_bounded st ->
  trails_bounded (FmMap.applyAll st ns)
  /\ trails_evolve st (FmMap.applyAll st ns).
Proof.
  revert st. induction ns as [|n ns IH]; intros st B; cbn.
  - split; [exact B | now apply trails_evolve_refl].
  - destruct (IH (FmMap.applyTelemetry st n)) as [B' E'].
    + now apply applyTelemetry_trails_bounded.
    + split; [exact B'|].
      eapply trails_evolve_trans; [|exact E'].
      now apply applyTelemetry_trails_evolve.
Qed.

Lemma drawMissionOverlay_trails (st : FmMap.State) (mission : value) :
  FmMap.trails (FmMap.drawMissionOverlay st mission) = FmMap.trails st.
Proof.
  unfold FmMap.drawMissionOverlay.
  destruct (negb (truthy mission) || negb (is_object mission)); auto.
  destruct (truthy (get "base" mission)); auto.
  destruct (FmMap.pointToLatLon st (get "base" mission)); auto.
  destruct (is_number _ && is_number _); auto.
Qed.

Lemma onmessage_trails (st : FmMap.State) (f : FmMap.Frame) :
  trails_bounded st ->
  trails_bounded (FmMap.onmessage st f)
  /\ trails_evolve st (FmMap.onmessage st f).
Proof.
  intros B. destruct f as [|msg]; cbn.
  - split; [exact B | now apply trails_evolve_refl].
  - destruct (FmMap.classify msg).
    + now apply applyAll_trails.
    + unfold trails_bounded, trails_evolve.
      rewrite drawMissionOverlay_trails.
      split; [exact B | now apply trails_evolve_refl].
    + split; [now apply applyTelemetry_trails_bounded
             | now apply applyTelemetry_trails_evolve].
    + split; [exact B | now apply trails_evolve_refl].
Qed.

Lemma run_trails_bounded (fs : list FmMap.Frame) (st : FmMap.State) :
  trails_bounded st -> trails_bounded (FmMap.run st fs).
Proof.
  revert st. induction fs as [|f fs IH]; intros st B; cbn; auto.
  apply IH. now apply onmessage_trails.
Qed.

Lemma init_trails_bounded : trails_bounded FmMap.init.
Proof. intros k b H. discriminate H. Qed.

(** C6: over any session, no trail is ever longer than 200.  An append
    keeps the newest 200 points, so what it removes is removed from the
    front, oldest first, and an append to a full trail leaves exactly
    200; nothing else removes points: whatever frame arrives, snapshots
    included, every trail recorded before is still recorded afterwards, as
    the newest 200 points of the old trail followed by the points the
    frame appended. *)
Theorem trail_capacity_fifo (fs : list FmMap.Frame) (f : FmMap.Frame) :
  let st := FmMap.run FmMap.init fs in
  let st' := FmMap.onmessage st f in
  FmMap.TRAIL_MAX = 200
  /\ (forall buf p,
         List.length (FmMap.pushTrail buf p) <= 200
         /\ FmMap.pushTrail buf p = Spec.keepLast 200 (buf ++ [p])
         /\ (200 <= List.length buf ->
             List.length (FmMap.pushTrail buf p) = 200))
  /\ (forall t ll,
         accepted t = true ->
         FmMap.resolvePosition st (Some t) = Some ll ->
         map_get (idOf t) (FmMap.trails (FmMap.applyTelemetry st t)) =
         Some (FmMap.pushTrail (trailOf (idOf t) st) ll))
  /\ (forall k b,
         map_get k (FmMap.trails st') = Some b -> List.length b <= 200)
  /\ (forall k old,
         map_get k (FmMap.trails st) = Some old ->
         exists ps,
           map_get k (FmMap.trails st') = Some (Spec.keepLast 200 (old ++ ps))).
Proof.
  intros st st'.
  assert (B : trails_bounded st)
    by (apply run_trails_bounded, init_trails_bounded).
  destruct (onmessage_trails st f B) as [B' E'].
  split; [reflexivity|]. split; [|split; [|split]].
  - intros buf p. split; [|split].
    + rewrite pushTrail_length. unfold FmMap.TRAIL_MAX. lia.
    + apply pushTrail_keepLast.
    + intros H. rewrite pushTrail_length. unfold FmMap.TRAIL_MAX. lia.
  - intros t ll A R. rewrite applyTelemetry_trails, A, R.
    apply map_get_set_same.
  - exact B'.
  - exact E'.
Qed.

End TrailFacts.

(** ** Deltas: what [applyTelemetry] changes *)

Section DeltaFacts.
Context {M : MathLib}.

(** C2 (amended): a delta that carries an identifier but no
    resolvable position is stored in the entity map, where it replaces
    the entity's previous record; the trails, the markers, the polylines,
    the selection and the anchor are left unchanged. *)
Theorem delta_without_position_updates_entity_only
        (st : FmMap.State) (t : json) :
  accepted t = true ->
  resolvable t = false ->
  FmMap.applyTelemetry st t =
  {| FmMap.anchorLat := FmMap.anchorLat st;
     FmMap.anchorLon := FmMap.anchorLon st;
     FmMap.drones := map_set (idOf t) t (FmMap.drones st);
     FmMap.trails := FmMap.trails st;
     FmMap.markers := FmMap.markers st;
     FmMap.polylines := FmMap.polylines st;
     FmMap.selectedNodeId := FmMap.selectedNodeId st |}
  /\ map_get (idOf t) (FmMap.drones (FmMap.applyTelemetry st t)) = Some t.
Proof.
  intros A R. apply (resolvable_false st) in R.
  rewrite (applyTelemetry_unpositioned st t A R). cbn.
  split; [reflexivity | apply map_get_set_same].
Qed.

(** C9: a delta with a valid identifier and a resolvable position upserts
    the entity keyed by its identifier and no other: the identifier maps
    to the new record, the set of keys gains at most that identifier, and
    under every other key the record, the trail, the marker and the
    polyline are what they were; the anchor is untouched.  [upsertNode]
    of the React application does the same on its map. *)
Theorem delta_changes_only_its_entity (st : FmMap.State) (t : json) :
  accepted t = true ->
  resolvable t = true ->
  let st' := FmMap.applyTelemetry st t in
  map_get (idOf t) (FmMap.drones st') = Some t
  /\ map_keys (FmMap.drones st') =
     (if map_has (idOf t) (FmMap.drones st) then map_keys (FmMap.drones st)
      else map_keys (FmMap.drones st) ++ [norm_key (idOf t)])
  /\ (forall k,
         same_key k (idOf t) = false ->
         map_get k (FmMap.drones st') = map_get k (FmMap.drones st)
         /\ map_get k (FmMap.trails st') = map_get k (FmMap.trails st)
         /\ map_get k (FmMap.markers st') = map_get k (FmMap.markers st)
         /\ map_get k (FmMap.polylines st') = map_get k (FmMap.polylines st))
  /\ FmMap.anchorLat st' = FmMap.anchorLat st
  /\ FmMap.anchorLon st' = FmMap.anchorLon st
  /\ (forall ast,
         let ast' := App.upsertNode ast (Some t) in
         map_get (idOf t) (App.byId ast') = Some t
         /\ (forall k,
                same_key k (idOf t) = false ->
                map_get k (App.byId ast') = map_get k (App.byId ast))).
Proof.
  intros A R st'. subst st'.
  split; [|split; [|split; [|split; [|split]]]].
  - rewrite applyTelemetry_drones, A. apply map_get_set_same.
  - rewrite applyTelemetry_drones, A. apply map_keys_set.
  - intros k K. split; [|split; [|split]].
    + rewrite applyTelemetry_drones, A. now apply map_get_set_other.
    + rewrite applyTelemetry_trails, A.
      destruct (FmMap.resolvePosition st (Some t)); [|reflexivity].
      now apply map_get_set_other.
    + now apply applyTelemetry_markers_other.
    + now apply applyTelemetry_polylines_other.
  - apply applyTelemetry_anchor.
  - apply applyTelemetry_anchor.
  - intros ast. unfold App.upsertNode. fold (idOf t).
    assert (T : truthy (idOf t) = true).
    { unfold accepted in A. apply andb_true_iff in A. apply A. }
    rewrite T. cbn. split; [apply map_get_set_same|].
    intros k K. now apply map_get_set_other.
Qed.

End DeltaFacts.

(** C2 fails as stated: on the empty store, the delta
    [{"node_id": "UAV1"}], which has no position in any form, leaves
    UAV1 stored in the entity map. *)
Lemma delta_without_position_is_stored :
  let t := bareRecord 1 "UAV1" in
  accepted t = true
  /\ resolvable t = false
  /\ map_get (idOf t)
       (FmMap.drones (FmMap.applyTelemetry (M := sampleMath) FmMap.init t))
     = Some t
  /\ FmMap.applyTelemetry (M := sampleMath) FmMap.init t <> FmMap.init.
Proof.
  cbv zeta. split; [reflexivity|]. split; [reflexivity|].
  split; [reflexivity|]. intros H.
  apply (f_equal FmMap.drones) in H. discriminate H.
Qed.

Lemma delta_without_position_updates_entity_only_witness :
  FmMap.drones
    (FmMap.applyTelemetry (M := sampleMath) FmMap.init (bareRecord 1 "UAV1"))
  = [(Some (JStr "UAV1"), bareRecord 1 "UAV1")].
Proof.
  rewrite (proj1 (@delta_without_position_updates_entity_only sampleMath
                    FmMap.init (bareRecord 1 "UAV1") eq_refl eq_refl)).
  reflexivity.
Defined.

Lemma delta_changes_only_its_entity_witness :
  let st := FmMap.applyTelemetry (M := sampleMath) FmMap.init
              (record 1 "UAV1" (geo 2 10 20)) in
  let st' := FmMap.applyTelemetry (M := sampleMath) st
               (record 3 "UAV2" (planar 4 5 5)) in
  map_get (Some (JStr "UAV1")) (FmMap.drones st') =
  Some (record 1 "UAV1" (geo 2 10 20))
  /\ map_get (Some (JStr "UAV1")) (FmMap.trails st') =
     Some [(of_Z 10, of_Z 20)].
Proof.
  cbv zeta.
  destruct (@delta_changes_only_its_entity sampleMath
              (FmMap.applyTelemetry (M := sampleMath) FmMap.init
                 (record 1 "UAV1" (geo 2 10 20)))
              (record 3 "UAV2" (planar 4 5 5)) eq_refl eq_refl)
    as (_ & _ & F & _).
  destruct (F (Some (JStr "UAV1")) eq_refl) as (D & T & _).
  rewrite D, T. split; vm_compute; reflexivity.
Defined.

(** ** Auto-selection *)

Section SelectionFacts.
Context {M : MathLib}.

Lemma accepted_truthy_id (t : json) :
  accepted t = true -> truthy (idOf t) = true.
Proof. unfold accepted. intros H. apply andb_true_iff in H. apply H. Qed.

Lemma applyAll_cons (st : FmMap.State) (n : json) (ns : list json) :
  FmMap.applyAll st (n :: ns) = FmMap.applyAll (FmMap.applyTelemetry st n) ns.
Proof. reflexivity. Qed.

Lemma run_cons (st : FmMap.State) (f : FmMap.Frame) (fs : list FmMap.Frame) :
  FmMap.run st (f :: fs) = FmMap.run (FmMap.onmessage st f) fs.
Proof. reflexivity. Qed.

Lemma applyTelemetry_keeps_selection (st : FmMap.State) (t : json) :
  truthy (FmMap.selectedNodeId st) = true ->
  FmMap.selectedNodeId (FmMap.applyTelemetry st t) = FmMap.selectedNodeId st.
Proof.
  intros S. rewrite applyTelemetry_selected, S, andb_false_r. reflexivity.
Qed.

Lemma applyAll_keeps_selection (ns : list json) (st : FmMap.State) :
  truthy (FmMap.selectedNodeId st) = true ->
  FmMap.selectedNodeId (FmMap.applyAll st ns) = FmMap.selectedNodeId st.
Proof.
  revert st. induction ns as [|n ns IH]; intros st S; auto.
  rewrite applyAll_cons.
  rewrite IH; rewrite applyTelemetry_keeps_selection; auto.
Qed.

Lemma applyAll_selection (ns : list json) (st : FmMap.State) :
  truthy (FmMap.selectedNodeId st) = false ->
  FmMap.selectedNodeId (FmMap.applyAll st ns) =
  firstPositioned ns (FmMap.selectedNodeId st).
Proof.
  revert st. induction ns as [|n ns IH]; intros st S; auto.
  rewrite applyAll_cons.
  unfold firstPositioned. cbn [find]. unfold positioned at 1.
  destruct (accepted n && resolvable n) eqn:P.
  - rewrite applyAll_keeps_selection;
      rewrite applyTelemetry_selected, P, S; cbn; auto.
    apply accepted_truthy_id. apply andb_true_iff in P. apply P.
  - rewrite IH; rewrite applyTelemetry_selected, P; cbn; auto.
Qed.

Lemma drawMissionOverlay_selection (st : FmMap.State) (mission : value) :
  FmMap.selectedNodeId (FmMap.drawMissionOverlay st mission) =
  FmMap.selectedNodeId st.
Proof.
  unfold FmMap.drawMissionOverlay.
  destruct (negb (truthy mission) || negb (is_object mission)); auto.
  destruct (truthy (get "base" mission)); auto.
  destruct (FmMap.pointToLatLon st (get "base" mission)); auto.
  destruct (is_number _ && is_number _); auto.
Qed.

(** A frame acts on the selection as its records do, one after the
    other. *)
Lemma onmessage_selection (st : FmMap.State) (f : FmMap.Frame) :
  FmMap.selectedNodeId (FmMap.onmessage st f) =
  FmMap.selectedNodeId (FmMap.applyAll st (recordsOf f)).
Proof.
  destruct f as [|msg]; cbn; auto.
  destruct (FmMap.classify msg); cbn; auto.
  apply drawMissionOverlay_selection.
Qed.

Lemma firstPositioned_app (a b : list json) (v : value) :
  firstPositioned (a ++ b) v = firstPositioned a (firstPositioned b v).
Proof.
  unfold firstPositioned. induction a as [|x a IH]; cbn; auto.
  destruct (positioned x); auto.
Qed.

Lemma firstPositioned_truthy (ts : list json) (v : value) :
  truthy v = true -> truthy (firstPositioned ts v) = true.
Proof.
  intros V. unfold firstPositioned.
  destruct (find positioned ts) as [t|] eqn:F; auto.
  apply find_some in F. destruct F as [_ P].
  apply accepted_truthy_id. apply andb_true_iff in P. apply P.
Qed.

Lemma onmessage_selection_unset (st : FmMap.State) (f : FmMap.Frame) :
  truthy (FmMap.selectedNodeId st) = false ->
  FmMap.selectedNodeId (FmMap.onmessage st f) =
  firstPositioned (recordsOf f) (FmMap.selectedNodeId st).
Proof.
  intros S. rewrite onmessage_selection. now apply applyAll_selection.
Qed.

Lemma onmessage_selection_set (st : FmMap.State) (f : FmMap.Frame) :
  truthy (FmMap.selectedNodeId st) = true ->
  FmMap.selectedNodeId (FmMap.onmessage st f) = FmMap.selectedNodeId st.
Proof.
  intros S. rewrite onmessage_selection. now apply applyAll_keeps_selection.
Qed.

Lemma run_selection_set (fs : list FmMap.Frame) (st : FmMap.State) :
  truthy (FmMap.selectedNodeId st) = true ->
  FmMap.selectedNodeId (FmMap.run st fs) = FmMap.selectedNodeId st.
Proof.
  revert st. induction fs as [|f fs IH]; intros st S; auto.
  rewrite run_cons.
  rewrite IH; rewrite onmessage_selection_set; auto.
Qed.

Lemma firstPositioned_some (ts : list json) (t : json) (v : value) :
  find positioned ts = Some t ->
  firstPositioned ts v = idOf t /\ truthy (idOf t) = true.
Proof.
  intros F. unfold firstPositioned. rewrite F. split; [reflexivity|].
  apply find_some in F. destruct F as [_ P].
  apply accepted_truthy_id. apply andb_true_iff in P. apply P.
Qed.

Lemma firstPositioned_none (ts : list json) (v : value) :
  find positioned ts = None -> firstPositioned ts v = v.
Proof. intros F. unfold firstPositioned. now rewrite F. Qed.

Lemma run_selection_unset (fs : list FmMap.Frame) (st : FmMap.State) :
  truthy (FmMap.selectedNodeId st) = false ->
  FmMap.selectedNodeId (FmMap.run st fs) =
  firstPositioned (flat_map recordsOf fs) (FmMap.selectedNodeId st).
Proof.
  revert st. induction fs as [|f fs IH]; intros st S; auto.
  rewrite run_cons. cbn [flat_map].
  rewrite firstPositioned_app.
  pose proof (onmessage_selection_unset st f S) as E.
  destruct (find positioned (recordsOf f)) as [t|] eqn:F.
  - destruct (firstPositioned_some _ t (FmMap.selectedNodeId st) F)
      as [E1 T].
    rewrite (proj1 (firstPositioned_some _ t _ F)).
    rewrite E1 in E. rewrite run_selection_set; rewrite E; auto.
  - rewrite firstPositioned_none in E by exact F.
    rewrite (firstPositioned_none _ _ F).
    rewrite IH; rewrite E; auto.
Qed.

(** C4 (amended): while nothing is selected, the first record
    that passes the identifier guard and has a resolvable position makes
    its entity the selection; records without a resolvable position are
    passed over.  Once something is selected no frame changes it, so over
    a whole session without clicks the selection is the identifier of the
    first positioned record ever received, or still null when there was
    none. *)
Theorem auto_selection_first_positioned :
  (forall st t,
      truthy (FmMap.selectedNodeId st) = false ->
      FmMap.selectedNodeId (FmMap.applyTelemetry st t) =
      (if positioned t then idOf t else FmMap.selectedNodeId st))
  /\ (forall st t,
         truthy (FmMap.selectedNodeId st) = true ->
         FmMap.selectedNodeId (FmMap.applyTelemetry st t) =
         FmMap.selectedNodeId st)
  /\ (forall st f,
         truthy (FmMap.selectedNodeId st) = true ->
         FmMap.selectedNodeId (FmMap.onmessage st f) =
         FmMap.selectedNodeId st)
  /\ (forall fs,
         FmMap.selectedNodeId (FmMap.run FmMap.init fs) =
         firstPositioned (flat_map recordsOf fs) null)
  /\ (forall fs f,
         truthy (FmMap.selectedNodeId (FmMap.run FmMap.init fs)) = true ->
         FmMap.selectedNodeId (FmMap.run FmMap.init (fs ++ [f])) =
         FmMap.selectedNodeId (FmMap.run FmMap.init fs)).
Proof.
  split; [|split; [|split; [|split]]].
  - intros st t S. rewrite applyTelemetry_selected, S, andb_true_r.
    reflexivity.
  - apply applyTelemetry_keeps_selection.
  - apply onmessage_selection_set.
  - intros fs. now rewrite run_selection_unset.
  - intros fs f S. unfold FmMap.run. rewrite fold_left_app. cbn.
    now apply onmessage_selection_set.
Qed.

End SelectionFacts.

(** C4 fails as stated: the first entity the store observes is UAV1,
    in a delta without a position; it is stored and not selected.  The
    selection goes to UAV2, observed second. *)
Lemma first_observed_entity_not_selected :
  let f1 := FmMap.Parsed (bareRecord 1 "UAV1") in
  let f2 := FmMap.Parsed (record 2 "UAV2" (geo 3 10 20)) in
  let st1 := FmMap.run (M := sampleMath) FmMap.init [f1] in
  let st2 := FmMap.run (M := sampleMath) FmMap.init [f1; f2] in
  map_keys (FmMap.drones st1) = [Some (JStr "UAV1")]
  /\ FmMap.selectedNodeId st1 = null
  /\ map_keys (FmMap.drones st2) = [Some (JStr "UAV1"); Some (JStr "UAV2")]
  /\ FmMap.selectedNodeId st2 = Some (JStr "UAV2").
Proof. cbv zeta. repeat split; vm_compute; reflexivity. Qed.

Lemma auto_selection_first_positioned_witness :
  let st := FmMap.applyTelemetry (M := sampleMath) FmMap.init
              (record 1 "UAV1" (geo 2 10 20)) in
  FmMap.selectedNodeId st = Some (JStr "UAV1")
  /\ FmMap.selectedNodeId
       (FmMap.applyTelemetry (M := sampleMath) st
          (record 3 "UAV2" (geo 4 11 21)))
     = Some (JStr "UAV1").
Proof.
  cbv zeta.
  destruct (@auto_selection_first_positioned sampleMath) as (A & B & _).
  split.
  - rewrite (A FmMap.init (record 1 "UAV1" (geo 2 10 20)) eq_refl).
    reflexivity.
  - rewrite (B (FmMap.applyTelemetry (M := sampleMath) FmMap.init
                  (record 1 "UAV1" (geo 2 10 20)))
               (record 3 "UAV2" (geo 4 11 21)) eq_refl).
    vm_compute. reflexivity.
Defined.

(** ** Snapshots *)

Lemma map_get_app {V} (k : value) (a b : jsmap V) :
  map_get k (a ++ b) =
  match map_get k a with
  | Some v => Some v
  | None => map_get k b
  end.
Proof.
  induction a as [|[k0 v0] a IH]; cbn; auto.
  destruct (same_key k k0); auto.
Qed.

(** In [new Map(pairs)] the last pair of a key wins. *)
Lemma map_get_fold_set {V} (k : value) (pairs : list (value * V))
      (m : jsmap V) :
  map_get k (fold_left (fun m kv => map_set (fst kv) (snd kv) m) pairs m) =
  match map_get k (rev pairs) with
  | Some v => Some v
  | None => map_get k m
  end.
Proof.
  revert m. induction pairs as [|[k0 v0] pairs IH]; intros m; cbn; auto.
  rewrite IH, map_get_app, map_get_set. cbn.
  destruct (map_get k (rev pairs)); auto.
  destruct (same_key k k0); auto.
Qed.

Lemma map_get_of_pairs {V} (k : value) (pairs : list (value * V)) :
  map_get k (map_of_pairs pairs) = map_get k (rev pairs).
Proof.
  unfold map_of_pairs. rewrite map_get_fold_set.
  destruct (map_get k (rev pairs)); reflexivity.
Qed.

Lemma map_has_existsb {V} (k : value) (m : jsmap V) :
  map_has k m = existsb (fun kv => same_key k (fst kv)) m.
Proof.
  unfold map_has. induction m as [|[k0 v0] m IH]; cbn; auto.
  destruct (same_key k k0); auto.
Qed.

Lemma existsb_reversed {A} (f : A -> bool) (l : list A) :
  existsb f (rev l) = existsb f l.
Proof.
  induction l as [|x l IH]; cbn; auto.
  rewrite existsb_app, IH. cbn. rewrite orb_false_r. apply orb_comm.
Qed.

Lemma map_has_of_pairs (k : value) (ns : list json) :
  map_has k (map_of_pairs (pairsOf ns)) = idIn k ns.
Proof.
  unfold map_has. rewrite map_get_of_pairs. fold (map_has k (rev (pairsOf ns))).
  rewrite map_has_existsb, existsb_reversed. unfold pairsOf, idIn.
  induction ns as [|n ns IH]; cbn [List.map existsb fst]; auto.
  now rewrite IH.
Qed.

Lemma map_pairs_ok (ns : list json) :
  forallb not_null ns = true -> App.map_pairs ns = App.Ok (pairsOf ns).
Proof.
  induction ns as [|n ns IH]; cbn; auto.
  intros H. apply andb_true_iff in H. destruct H as [N H].
  rewrite (IH H). destruct n; try discriminate N; reflexivity.
Qed.

Section SnapshotFacts.
Context {M : MathLib}.

Lemma applyAll_drones_has (ns : list json) (st : FmMap.State) (k : value) :
  map_has k (FmMap.drones (FmMap.applyAll st ns)) =
  map_has k (FmMap.drones st) || acceptedIdIn k ns.
Proof.
  revert st. induction ns as [|n ns IH]; intros st; cbn [acceptedIdIn existsb].
  - now rewrite orb_false_r.
  - rewrite applyAll_cons, IH, applyTelemetry_drones.
    fold (acceptedIdIn k ns).
    destruct (accepted n); cbn [andb orb].
    + rewrite map_has_set.
      destruct (same_key k (idOf n)), (map_has k (FmMap.drones st)); auto.
    + reflexivity.
Qed.

(** C1 (amended): in the React application a snapshot whose
    nodes array holds no null replaces the entity map, whatever it held
    before: afterwards its keys are exactly the identifiers of the
    records of the snapshot, each mapped to the last record that carries
    it.  On the map page a snapshot is applied record by record, as
    deltas: afterwards the entity map holds every entity it held before
    and every record of the snapshot that passes the identifier guard;
    nothing is dropped. *)
Theorem snapshot_replaces_in_app_and_merges_on_map :
  (forall ast addr ns,
      forallb not_null ns = true ->
      exists ast',
        App.setSnapshot ast (Some (JArr addr ns)) = App.Ok ast'
        /\ App.byId ast' = map_of_pairs (pairsOf ns)
        /\ App.nodes ast' = map_values (App.byId ast')
        /\ (forall k, map_has k (App.byId ast') = idIn k ns)
        /\ (forall k,
               map_get k (App.byId ast') = map_get k (rev (pairsOf ns))))
  /\ (forall ast msg addr ns,
         is_string "snapshot" (get "type" (Some msg)) = true ->
         get "nodes" (Some msg) = Some (JArr addr ns) ->
         forallb not_null ns = true ->
         App.byId (App.onmessage ast (App.Parsed msg)) =
         map_of_pairs (pairsOf ns))
  /\ (forall st msg,
         FmMap.classify msg = FmMap.RSnapshot ->
         FmMap.onmessage st (FmMap.Parsed msg) =
         FmMap.applyAll st (items_of (get "nodes" (Some msg))))
  /\ (forall st ns k,
         map_has k (FmMap.drones (FmMap.applyAll st ns)) =
         map_has k (FmMap.drones st) || acceptedIdIn k ns).
Proof.
  assert (S : forall ast addr ns,
             forallb not_null ns = true ->
             App.setSnapshot ast (Some (JArr addr ns)) =
             App.Ok {| App.byId := map_of_pairs (pairsOf ns);
                       App.nodes := map_values (map_of_pairs (pairsOf ns));
                       App.mission := App.mission ast;
                       App.err := App.err ast |}).
  { intros ast addr ns N. unfold App.setSnapshot. cbn.
    now rewrite (map_pairs_ok ns N). }
  split; [|split; [|split]].
  - intros ast addr ns N. eexists. split; [apply (S ast addr ns N)|].
    cbn. split; [reflexivity|]. split; [reflexivity|]. split.
    + intros k. apply map_has_of_pairs.
    + intros k. apply map_get_of_pairs.
  - intros ast msg addr ns T N NN. unfold App.onmessage, App.handle,
      App.classify.
    assert (Tm : truthy (Some msg) = true).
    { destruct msg; cbn in T |- *; try discriminate T; reflexivity. }
    rewrite Tm, T, N. cbn. rewrite (map_pairs_ok ns NN). reflexivity.
  - intros st msg C. cbn. now rewrite C.
  - intros st ns k. apply applyAll_drones_has.
Qed.

End SnapshotFacts.

(** C1 fails as stated: the map page holds UAV1; the snapshot
    [{"type": "snapshot", "nodes": [UAV2]}] leaves UAV1 in the entity
    map, next to UAV2. *)
Lemma snapshot_keeps_absent_entity_on_map :
  let st := FmMap.applyTelemetry (M := sampleMath) FmMap.init
              (record 1 "UAV1" (geo 2 10 20)) in
  let S := snapshotOf 3 [record 5 "UAV2" (geo 6 11 21)] in
  let st' := FmMap.onmessage (M := sampleMath) st (FmMap.Parsed S) in
  FmMap.classify S = FmMap.RSnapshot
  /\ map_keys (FmMap.drones st) = [Some (JStr "UAV1")]
  /\ map_keys (FmMap.drones st') = [Some (JStr "UAV1"); Some (JStr "UAV2")].
Proof. cbv zeta. repeat split; vm_compute; reflexivity. Qed.

Lemma snapshot_replaces_in_app_and_merges_on_map_witness :
  let ast := App.upsertNode App.init (Some (record 1 "UAV1" (geo 2 10 20))) in
  let S := snapshotOf 3 [record 5 "UAV2" (geo 6 11 21)] in
  map_keys (App.byId ast) = [Some (JStr "UAV1")]
  /\ map_keys (App.byId (App.onmessage ast (App.Parsed S))) =
     [Some (JStr "UAV2")].
Proof.
  cbv zeta. split; [reflexivity|].
  rewrite (proj1 (proj2 (@snapshot_replaces_in_app_and_merges_on_map
                           sampleMath))
             (App.upsertNode App.init (Some (record 1 "UAV1" (geo 2 10 20))))
             (snapshotOf 3 [record 5 "UAV2" (geo 6 11 21)])
             4 [record 5 "UAV2" (geo 6 11 21)] eq_refl eq_refl eq_refl).
  reflexivity.
Defined.

(** ** Frame classification *)

Lemma typed_truthy (lit : string) (msg : json) :
  typed lit msg = true -> truthy (Some msg) = true.
Proof. destruct msg; cbn; intros H; try discriminate H; reflexivity. Qed.

Lemma hasId_truthy (msg : json) :
  hasId msg = true -> truthy (Some msg) = true.
Proof. destruct msg; cbn; intros H; try discriminate H; reflexivity. Qed.

Lemma hasId_accepted (msg : json) : accepted msg = hasId msg.
Proof.
  unfold accepted. fold (hasId msg). destruct (hasId msg) eqn:H.
  - now rewrite (hasId_truthy msg H).
  - apply andb_false_r.
Qed.

Lemma typed_exclusive (msg : json) :
  typed "snapshot" msg = true -> typed "mission_update" msg = false.
Proof.
  unfold typed, is_string. destruct (get "type" (Some msg)) as [[]|];
    try discriminate. intros H. apply String.eqb_eq in H. subst. reflexivity.
Qed.

(** The classifier of the map page, guard by guard. *)
Lemma fm_classify_eq (msg : json) :
  FmMap.classify msg =
  if snapshotShaped msg then FmMap.RSnapshot
  else if missionShaped msg then FmMap.RMission
  else if hasId msg then FmMap.RDelta
  else FmMap.RIgnore.
Proof.
  unfold FmMap.classify, snapshotShaped, missionShaped, hasId.
  fold (typed "snapshot" msg). fold (typed "mission_update" msg).
  destruct (typed "snapshot" msg) eqn:S.
  - rewrite (typed_truthy _ _ S). reflexivity.
  - rewrite andb_false_r. cbn [andb].
    destruct (typed "mission_update" msg) eqn:U.
    + rewrite (typed_truthy _ _ U). reflexivity.
    + rewrite andb_false_r. cbn [andb].
      fold (hasId msg). destruct (hasId msg) eqn:H.
      * now rewrite (hasId_truthy _ H).
      * now rewrite andb_false_r.
Qed.

(** The classifier of the React application. *)
Lemma app_classify_eq (msg : json) :
  App.classify msg =
  if typed "snapshot" msg then App.RSnapshot
  else if typed "mission_update" msg then App.RMission
  else App.RDelta.
Proof.
  unfold App.classify.
  fold (typed "snapshot" msg). fold (typed "mission_update" msg).
  destruct (typed "snapshot" msg) eqn:S.
  - rewrite (typed_truthy _ _ S). reflexivity.
  - rewrite andb_false_r.
    destruct (typed "mission_update" msg) eqn:U.
    + rewrite (typed_truthy _ _ U). reflexivity.
    + rewrite andb_false_r. reflexivity.
Qed.

Lemma upsertNode_without_id (ast : App.State) (msg : json) :
  hasId msg = false -> App.upsertNode ast (Some msg) = ast.
Proof. unfold App.upsertNode, hasId. now intros ->. Qed.

Section ClassifierFacts.
Context {M : MathLib}.

(** C3 (amended).  On the map page a frame that fails to
    parse is dropped without a trace; a parsed message is tested for the
    snapshot shape (type "snapshot" and an array of nodes), then for the
    mission shape (type "mission_update" and a truthy mission), and only
    then for an identifier.  A message of the snapshot shape has its
    records applied and nothing else: an identifier it carries itself
    makes no entity.  A message of the mission shape goes to the mission
    overlay and the entity map stays as it was.  So a message of either
    shape is never routed as a delta, while a typed message whose payload
    guard fails is routed by its identifier; a message with neither shape
    nor identifier leaves the state as it was.  In the React application
    an unparseable frame sets the error banner and changes nothing else;
    every message of type "snapshot" goes to [setSnapshot] and every
    message of type "mission_update" sets the mission and leaves the
    entity map alone, whatever their payload, so neither reaches
    [upsertNode]; any other message goes to [upsertNode], which ignores
    it when it has no identifier. *)
Theorem frame_classification :
  (forall st, FmMap.onmessage st FmMap.Unparseable = st)
  /\ (forall msg,
         FmMap.classify msg =
         if snapshotShaped msg then FmMap.RSnapshot
         else if missionShaped msg then FmMap.RMission
         else if hasId msg then FmMap.RDelta
         else FmMap.RIgnore)
  /\ (forall msg,
         snapshotShaped msg || missionShaped msg = true ->
         FmMap.classify msg <> FmMap.RDelta)
  /\ (forall st msg,
         snapshotShaped msg = true ->
         FmMap.onmessage st (FmMap.Parsed msg) =
         FmMap.applyAll st (items_of (get "nodes" (Some msg)))
         /\ (map_has (idOf msg) (FmMap.drones st) = false ->
             acceptedIdIn (idOf msg) (items_of (get "nodes" (Some msg)))
             = false ->
             map_has (idOf msg)
               (FmMap.drones (FmMap.onmessage st (FmMap.Parsed msg)))
             = false))
  /\ (forall st msg,
         missionShaped msg = true ->
         FmMap.onmessage st (FmMap.Parsed msg) =
         FmMap.drawMissionOverlay st (get "mission" (Some msg))
         /\ FmMap.drones (FmMap.onmessage st (FmMap.Parsed msg)) =
            FmMap.drones st)
  /\ (forall st msg,
         FmMap.classify msg = FmMap.RDelta ->
         FmMap.onmessage st (FmMap.Parsed msg) = FmMap.applyTelemetry st msg)
  /\ (forall st msg,
         FmMap.classify msg = FmMap.RIgnore ->
         FmMap.onmessage st (FmMap.Parsed msg) = st)
  /\ (forall ast,
         App.onmessage ast App.Unparseable =
         App.setErr ast (App.ErrWsParse App.SyntaxError))
  /\ (forall msg,
         App.classify msg =
         if typed "snapshot" msg then App.RSnapshot
         else if typed "mission_update" msg then App.RMission
         else App.RDelta)
  /\ (forall msg,
         typed "snapshot" msg || typed "mission_update" msg = true ->
         App.classify msg <> App.RDelta)
  /\ (forall ast msg,
         typed "snapshot" msg = true ->
         App.onmessage ast (App.Parsed msg) =
         match
           App.setSnapshot ast
             (App.or_else (get "nodes" (Some msg)) App.empty_array)
         with
         | App.Ok ast' => ast'
         | App.Throw e => App.setErr ast (App.ErrWsParse e)
         end)
  /\ (forall ast msg,
         typed "mission_update" msg = true ->
         App.onmessage ast (App.Parsed msg) =
         App.setMission ast (App.or_else (get "mission" (Some msg)) null)
         /\ App.byId (App.onmessage ast (App.Parsed msg)) = App.byId ast)
  /\ (forall ast msg,
         App.classify msg = App.RDelta ->
         App.onmessage ast (App.Parsed msg) = App.upsertNode ast (Some msg))
  /\ (forall ast msg,
         App.classify msg = App.RDelta ->
         hasId msg = false ->
         App.onmessage ast (App.Parsed msg) = ast).
Proof.
  split; [reflexivity|]. split; [exact fm_classify_eq|].
  split; [|split; [|split; [|split; [|split; [|split; [|split;
    [|split; [|split; [|split; [|split]]]]]]]]]].
  - intros msg H. rewrite fm_classify_eq.
    destruct (snapshotShaped msg); [discriminate|].
    cbn in H. rewrite H. discriminate.
  - intros st msg S.
    assert (C : FmMap.classify msg = FmMap.RSnapshot)
      by (rewrite fm_classify_eq, S; reflexivity).
    cbn [FmMap.onmessage]. rewrite C. split; [reflexivity|].
    intros H A. now rewrite applyAll_drones_has, H, A.
  - intros st msg U.
    assert (C : FmMap.classify msg = FmMap.RMission).
    { rewrite fm_classify_eq, U. unfold snapshotShaped.
      destruct (typed "snapshot" msg) eqn:S; [|reflexivity].
      apply typed_exclusive in S. unfold missionShaped in U.
      rewrite S in U. discriminate U. }
    cbn [FmMap.onmessage]. rewrite C. split; [reflexivity|].
    unfold FmMap.drawMissionOverlay.
    destruct (negb (truthy (get "mission" (Some msg)))
              || negb (is_object (get "mission" (Some msg)))); auto.
    destruct (truthy (get "base" (get "mission" (Some msg)))); auto.
    destruct (FmMap.pointToLatLon st _); auto.
    destruct (is_number _ && is_number _); auto.
  - intros st msg C. cbn. now rewrite C.
  - intros st msg C. cbn. now rewrite C.
  - reflexivity.
  - exact app_classify_eq.
  - intros msg H. rewrite app_classify_eq.
    destruct (typed "snapshot" msg); [discriminate|].
    cbn in H. rewrite H. discriminate.
  - intros ast msg S.
    assert (C : App.classify msg = App.RSnapshot)
      by (rewrite app_classify_eq, S; reflexivity).
    unfold App.onmessage, App.handle. rewrite C. reflexivity.
  - intros ast msg U.
    assert (C : App.classify msg = App.RMission).
    { rewrite app_classify_eq, U.
      destruct (typed "snapshot" msg) eqn:S; [|reflexivity].
      apply typed_exclusive in S. congruence. }
    unfold App.onmessage, App.handle. rewrite C. split; reflexivity.
  - intros ast msg C. unfold App.onmessage, App.handle. now rewrite C.
  - intros ast msg C H. unfold App.onmessage, App.handle. rewrite C.
    now apply upsertNode_without_id.
Qed.

(** C10 (amended).  On the map page a message of type
    "mission_update" whose mission is absent or falsy, and a message of
    type "snapshot" whose nodes field is not an array, miss their typed
    branch and fall through to the identifier test: with a truthy node_id
    the message is applied to the store as a delta and becomes the
    entity's record, without one it is ignored.  In the React application
    the typed branch fires for every message of type "mission_update": the
    mission becomes the payload, or null when the payload is falsy, and
    the entity map is left alone. *)
Theorem typed_frame_with_bad_payload :
  (forall st msg,
      (typed "mission_update" msg = true
       /\ truthy (get "mission" (Some msg)) = false)
      \/ (typed "snapshot" msg = true
          /\ is_array (get "nodes" (Some msg)) = false) ->
      FmMap.classify msg =
      (if hasId msg then FmMap.RDelta else FmMap.RIgnore)
      /\ (hasId msg = true ->
          FmMap.onmessage st (FmMap.Parsed msg) = FmMap.applyTelemetry st msg
          /\ map_get (idOf msg)
               (FmMap.drones (FmMap.onmessage st (FmMap.Parsed msg)))
             = Some msg)
      /\ (hasId msg = false -> FmMap.onmessage st (FmMap.Parsed msg) = st))
  /\ (forall ast msg,
         typed "mission_update" msg = true ->
         App.classify msg = App.RMission
         /\ App.onmessage ast (App.Parsed msg) =
            App.setMission ast (App.or_else (get "mission" (Some msg)) null)
         /\ App.byId (App.onmessage ast (App.Parsed msg)) = App.byId ast).
Proof.
  split.
  - intros st msg H.
    assert (C : FmMap.classify msg =
                if hasId msg then FmMap.RDelta else FmMap.RIgnore).
    { rewrite fm_classify_eq. unfold snapshotShaped, missionShaped.
      destruct H as [[T P] | [T P]].
      - rewrite T, P. cbn.
        destruct (typed "snapshot" msg) eqn:S; [|reflexivity].
        apply typed_exclusive in S. congruence.
      - rewrite T, P, (typed_exclusive _ T). reflexivity. }
    split; [exact C|]. split.
    + intros I. rewrite I in C. cbn. rewrite C. split; [reflexivity|].
      rewrite applyTelemetry_drones, hasId_accepted, I.
      apply map_get_set_same.
    + intros I. rewrite I in C. cbn. now rewrite C.
  - intros ast msg T.
    assert (C : App.classify msg = App.RMission).
    { rewrite app_classify_eq, T.
      destruct (typed "snapshot" msg) eqn:S; [|reflexivity].
      apply typed_exclusive in S. congruence. }
    split; [exact C|]. unfold App.onmessage, App.handle. rewrite C.
    split; reflexivity.
Qed.

End ClassifierFacts.

(** C3 fails as stated, twice.  In the React application an unparseable
    frame surfaces an error: the banner reads "WS parse error: ...".  On
    the map page the message
    [{"type": "mission_update", "node_id": "UAV1", "pos": ...}], typed but
    without a mission, is routed as a delta and lands in the entity
    map. *)
Lemma unparseable_surfaces_and_typed_routed_as_delta :
  let msg :=
    JObj 1 [("type"%string, JStr "mission_update");
            ("node_id"%string, JStr "UAV1");
            ("pos"%string, geo 2 10 20)] in
  App.err (App.onmessage App.init App.Unparseable) =
  App.ErrWsParse App.SyntaxError
  /\ App.err (App.onmessage App.init App.Unparseable) <> App.err App.init
  /\ typed "mission_update" msg = true
  /\ FmMap.classify msg = FmMap.RDelta
  /\ map_get (Some (JStr "UAV1"))
       (FmMap.drones
          (FmMap.onmessage (M := sampleMath) FmMap.init (FmMap.Parsed msg)))
     = Some msg.
Proof.
  cbv zeta. split; [reflexivity|]. split; [discriminate|].
  split; [reflexivity|]. split; [reflexivity|]. vm_compute. reflexivity.
Qed.

(** C10 fails as stated: in the React application the message
    [{"type": "mission_update", "node_id": "UAV1"}], whose mission is
    absent, takes the typed branch: the mission is set to null and the
    entity map stays empty, the message is not applied as a delta. *)
Lemma mission_update_without_payload_fires_in_app :
  let msg :=
    JObj 1 [("type"%string, JStr "mission_update");
            ("node_id"%string, JStr "UAV1")] in
  typed "mission_update" msg = true
  /\ truthy (get "mission" (Some msg)) = false
  /\ hasId msg = true
  /\ App.classify msg = App.RMission
  /\ App.onmessage App.init (App.Parsed msg) = App.setMission App.init null
  /\ App.byId (App.onmessage App.init (App.Parsed msg)) = []
  /\ App.onmessage App.init (App.Parsed msg) <>
     App.upsertNode App.init (Some msg).
Proof.
  cbv zeta. repeat (split; [reflexivity|]). intros H.
  apply (f_equal App.byId) in H. discriminate H.
Qed.

Lemma frame_classification_witness :
  let msg :=
    JObj 1 [("type"%string, JStr "mission_update");
            ("node_id"%string, JStr "UAV1");
            ("pos"%string, geo 2 10 20);
            ("mission"%string, JObj 3 [])] in
  FmMap.drones
    (FmMap.onmessage (M := sampleMath) FmMap.init (FmMap.Parsed msg)) = []
  /\ App.byId (App.onmessage App.init (App.Parsed msg)) = [].
Proof.
  cbv zeta.
  destruct (@frame_classification sampleMath)
    as (_ & _ & _ & _ & F & _ & _ & _ & _ & _ & _ & A & _).
  split.
  - exact (proj2 (F FmMap.init
                    (JObj 1 [("type"%string, JStr "mission_update");
                             ("node_id"%string, JStr "UAV1");
                             ("pos"%string, geo 2 10 20);
                             ("mission"%string, JObj 3 [])])
                    eq_refl)).
  - exact (proj2 (A App.init
                    (JObj 1 [("type"%string, JStr "mission_update");
                             ("node_id"%string, JStr "UAV1");
                             ("pos"%string, geo 2 10 20);
                             ("mission"%string, JObj 3 [])])
                    eq_refl)).
Defined.

Lemma typed_frame_with_bad_payload_witness :
  let msg :=
    JObj 1 [("type"%string, JStr "snapshot"); ("nodes"%string, JNull);
            ("node_id"%string, JStr "UAV1")] in
  map_get (Some (JStr "UAV1"))
    (FmMap.drones
       (FmMap.onmessage (M := sampleMath) FmMap.init (FmMap.Parsed msg)))
  = Some msg.
Proof.
  cbv zeta.
  apply (proj1 (@typed_frame_with_bad_payload sampleMath) FmMap.init
           (JObj 1 [("type"%string, JStr "snapshot");
                    ("nodes"%string, JNull);
                    ("node_id"%string, JStr "UAV1")])
           (or_intror (conj eq_refl eq_refl))).
  reflexivity.
Defined.

(** ** The reconnect loop *)

Lemma set_nth_length {A} (i : nat) (x : A) (l : list A) :
  List.length (FmMap.set_nth i x l) = List.length l.
Proof.
  revert i. induction l as [|y l IH]; intros [|i]; cbn; auto.
Qed.

Lemma remove_nth_length {A} (j : nat) (l : list A) (x : A) :
  nth_error l j = Some x ->
  S (List.length (FmMap.remove_nth j l)) = List.length l.
Proof.
  revert j. induction l as [|y l IH]; intros [|j]; cbn; try discriminate; auto.
Qed.

Lemma remove_nth_Forall {A} (P : A -> Prop) (j : nat) (l : list A) :
  Forall P l -> Forall P (FmMap.remove_nth j l).
Proof.
  intros H. revert j. induction H as [|y l Hy Hl IH]; intros [|j]; cbn; auto.
Qed.

Lemma liveCount_set_nth (i : nat) (s : FmMap.ReadyState)
      {s0 : FmMap.ReadyState} {l : list FmMap.ReadyState} :
  nth_error l i = Some s0 ->
  liveCount (FmMap.set_nth i s l) + (if is_live s0 then 1 else 0) =
  liveCount l + (if is_live s then 1 else 0).
Proof.
  unfold liveCount. revert i.
  induction l as [|y l IH]; intros [|i]; cbn; try discriminate.
  - intros [= ->]. destruct (is_live s0), (is_live s); cbn; lia.
  - intros H. specialize (IH i H). destruct (is_live y); cbn; lia.
Qed.

Lemma liveCount_app (a b : list FmMap.ReadyState) :
  liveCount (a ++ b) = liveCount a + liveCount b.
Proof. unfold liveCount. now rewrite filter_app, length_app. Qed.

Ltac net_fields :=
  unfold FmMap.onopen, FmMap.onerror, FmMap.onclose, FmMap.connectWs,
    FmMap.setHudStatus, FmMap.set_socket;
  cbn [FmMap.sockets FmMap.timers FmMap.clock FmMap.hud].

Lemma step_single_flight (n n' : FmMap.Net) (ev : FmMap.Event) :
  single_flight n -> FmMap.step n ev = Some n' -> single_flight n'.
Proof.
  unfold single_flight. intros I. destruct ev as [dt|i|i|i|j ok];
    cbn [FmMap.step].
  - destruct (0 <=? dt)%Z; [|discriminate]. intros [= <-]. exact I.
  - destruct (nth_error (FmMap.sockets n) i) as [[]|] eqn:E;
      try discriminate.
    intros [= <-]. net_fields.
    pose proof (liveCount_set_nth i FmMap.OPEN E) as L.
    cbn [is_live] in L. lia.
  - destruct (nth_error (FmMap.sockets n) i) as [[]|] eqn:E;
      try discriminate; intros [= <-]; exact I.
  - destruct (nth_error (FmMap.sockets n) i) as [[]|] eqn:E;
      try discriminate; intros [= <-]; net_fields; rewrite length_app;
      cbn [List.length];
      pose proof (liveCount_set_nth i FmMap.CLOSED E) as L;
      cbn [is_live] in L; lia.
  - destruct (nth_error (FmMap.timers n) j) as [t|] eqn:E; [|discriminate].
    destruct (FmMap.due t <=? FmMap.clock n)%Z; [|discriminate].
    intros [= <-]. pose proof (remove_nth_length _ _ _ E) as R.
    destruct ok; net_fields; rewrite ?liveCount_app;
      change (liveCount [FmMap.CONNECTING]) with 1; lia.
Qed.

Lemma exec_single_flight (evs : list FmMap.Event) (n n' : FmMap.Net) :
  single_flight n -> FmMap.exec n evs = Some n' -> single_flight n'.
Proof.
  revert n. induction evs as [|ev evs IH]; intros n I; cbn.
  - now intros [= <-].
  - destruct (FmMap.step n ev) as [n1|] eqn:S; [|discriminate].
    apply IH. eapply step_single_flight; eauto.
Qed.

Lemma boot_single_flight (ok : bool) : single_flight (FmMap.boot ok).
Proof. destruct ok; unfold single_flight; cbn; lia. Qed.

Lemma nth_error_live (l : list FmMap.ReadyState) (i : nat)
      (s : FmMap.ReadyState) :
  nth_error l i = Some s -> is_live s = true -> 1 <= liveCount l.
Proof.
  unfold liveCount. revert i.
  induction l as [|y l IH]; intros [|i]; cbn; try discriminate.
  - intros [= ->] ->. cbn. lia.
  - intros H L. specialize (IH i H L). destruct (is_live y); cbn; lia.
Qed.

Lemma step_not_before (d : Z) (s0 : nat) (n n' : FmMap.Net)
      (ev : FmMap.Event) :
  not_before d s0 n -> FmMap.step n ev = Some n' -> not_before d s0 n'.
Proof.
  unfold not_before, FmMap.RETRY_MS. intros (T & R & S).
  destruct ev as [dt|i|i|i|j ok]; cbn.
  - destruct (Z.leb_spec 0 dt) as [P|P]; [|discriminate]. intros [= <-]. cbn.
    repeat split; [exact T | lia | destruct S; [auto | right; lia]].
  - destruct (nth_error (FmMap.sockets n) i) as [[]|]; try discriminate.
    intros [= <-]. cbn. now rewrite set_nth_length.
  - destruct (nth_error (FmMap.sockets n) i) as [[]|]; try discriminate;
      intros [= <-]; cbn; auto.
  - destruct (nth_error (FmMap.sockets n) i) as [[]|]; try discriminate;
      intros [= <-]; cbn; rewrite set_nth_length;
      (repeat split; [|exact R|exact S]);
      (apply Forall_app; split; [exact T|]);
      constructor; [unfold FmMap.due, FmMap.RETRY_MS; cbn; lia | constructor
                   |unfold FmMap.due, FmMap.RETRY_MS; cbn; lia | constructor].
  - destruct (nth_error (FmMap.timers n) j) as [t|] eqn:E; [|discriminate].
    destruct (Z.leb_spec (FmMap.due t) (FmMap.clock n)) as [P|P];
      [|discriminate].
    intros [= <-].
    assert (Dt : (d <= FmMap.due t)%Z).
    { apply nth_error_In in E. rewrite Forall_forall in T. now apply T. }
    destruct ok; cbn;
      (repeat split;
       [now apply remove_nth_Forall | exact R | right; lia]).
Qed.

Lemma exec_not_before (d : Z) (s0 : nat) (evs : list FmMap.Event)
      (n n' : FmMap.Net) :
  not_before d s0 n -> FmMap.exec n evs = Some n' -> not_before d s0 n'.
Proof.
  revert n. induction evs as [|ev evs IH]; intros n I; cbn.
  - now intros [= <-].
  - destruct (FmMap.step n ev) as [n1|] eqn:S; [|discriminate].
    apply IH. eapply step_not_before; eauto.
Qed.

Lemma exec_app (a b : list FmMap.Event) (n : FmMap.Net) :
  FmMap.exec n (a ++ b) =
  match FmMap.exec n a with
  | Some m => FmMap.exec m b
  | None => None
  end.
Proof.
  revert n. induction a as [|ev a IH]; intros n; cbn; [reflexivity|].
  destruct (FmMap.step n ev); [apply IH | reflexivity].
Qed.

(** What the close handler leaves, at a point where at most one thing is
    in flight. *)
Lemma close_schedules_one (n n1 : FmMap.Net) (i : nat) :
  single_flight n ->
  FmMap.step n (FmMap.SocketClose i) = Some n1 ->
  FmMap.timers n1 =
  [{| FmMap.set_at := FmMap.clock n; FmMap.delay := 1500 |}]
  /\ List.length (FmMap.sockets n1) = List.length (FmMap.sockets n)
  /\ FmMap.clock n1 = FmMap.clock n
  /\ not_before (FmMap.clock n + 1500) (List.length (FmMap.sockets n)) n1
  /\ (exists n3,
         FmMap.exec n1 [FmMap.Elapse 1500; FmMap.TimerFire 0 true] = Some n3
         /\ List.length (FmMap.sockets n3) =
            S (List.length (FmMap.sockets n))).
Proof.
  intros SF C. cbn in C.
  destruct (nth_error (FmMap.sockets n) i) as [s|] eqn:N; [|discriminate].
  assert (L : is_live s = true /\
              n1 = FmMap.onclose (FmMap.set_socket i FmMap.CLOSED n)).
  { destruct s; try discriminate; injection C as <-; auto. }
  destruct L as [L ->].
  pose proof (nth_error_live _ _ _ N L) as One.
  assert (T0 : FmMap.timers n = []).
  { unfold single_flight in SF.
    destruct (FmMap.timers n); [reflexivity | cbn in SF; lia]. }
  cbn. rewrite T0, set_nth_length.
  split; [reflexivity|]. split; [reflexivity|]. split; [reflexivity|].
  split.
  - unfold not_before, FmMap.RETRY_MS. cbn. rewrite T0, set_nth_length.
    repeat split; [|lia|auto].
    constructor; [unfold FmMap.due, FmMap.RETRY_MS; cbn; lia|constructor].
  - unfold FmMap.due, FmMap.RETRY_MS. cbn.
    rewrite Z.leb_refl. eexists. split; [reflexivity|].
    cbn. rewrite length_app, set_nth_length. cbn. lia.
Qed.

(** A connection that ends, either way, leaves what its close event
    leaves. *)
Lemma ending_is_a_close (n n1 : FmMap.Net) (e : Ending) :
  single_flight n ->
  FmMap.exec n (events_of e) = Some n1 ->
  exists m i,
    single_flight m
    /\ FmMap.step m (FmMap.SocketClose i) = Some n1
    /\ FmMap.clock m = FmMap.clock n
    /\ FmMap.sockets m = FmMap.sockets n.
Proof.
  intros SF E. destruct e as [i|i]; cbn [events_of FmMap.exec] in E.
  - exists n, i. destruct (FmMap.step n (FmMap.SocketClose i)) as [m|] eqn:S;
      [|discriminate].
    injection E as <-. auto.
  - destruct (FmMap.step n (FmMap.SocketError i)) as [m|] eqn:S1;
      [|discriminate].
    destruct (FmMap.step m (FmMap.SocketClose i)) as [m'|] eqn:S2;
      [|discriminate].
    injection E as <-. exists m, i.
    split; [eapply step_single_flight; eauto|]. split; [exact S2|].
    cbn in S1.
    destruct (nth_error (FmMap.sockets n) i) as [[]|]; try discriminate;
      injection S1 as <-; split; reflexivity.
Qed.

(** C5.  When a connection ends, by a close event or by an error event
    with the close event that follows it, at any point of a session:
    exactly one reconnect is pending afterwards, registered at that time
    with a delay of 1500 ms, and the handlers have created no socket.
    Whatever happens next, [connectWs] is not called and no socket is
    created before 1500 ms have passed; and once they have passed the
    pending reconnect can run and creates the next socket.  The error
    handler registers nothing itself: the one reconnect of a failed
    connection is the one its close event registers. *)
Theorem reconnect_after_close_or_error :
  FmMap.RETRY_MS = 1500%Z
  /\ (forall n i n1,
         FmMap.step n (FmMap.SocketError i) = Some n1 ->
         FmMap.timers n1 = FmMap.timers n
         /\ FmMap.sockets n1 = FmMap.sockets n)
  /\ (forall ok evs n e n1,
         FmMap.exec (FmMap.boot ok) evs = Some n ->
         FmMap.exec n (events_of e) = Some n1 ->
         FmMap.timers n1 =
         [{| FmMap.set_at := FmMap.clock n; FmMap.delay := 1500 |}]
         /\ List.length (FmMap.sockets n1) = List.length (FmMap.sockets n)
         /\ FmMap.clock n1 = FmMap.clock n
         /\ (forall evs' n2,
                FmMap.exec n1 evs' = Some n2 ->
                (List.length (FmMap.sockets n)
                 <> List.length (FmMap.sockets n2) ->
                 (FmMap.clock n + 1500 <= FmMap.clock n2)%Z)
                /\ (forall j b n3,
                       FmMap.step n2 (FmMap.TimerFire j b) = Some n3 ->
                       (FmMap.clock n + 1500 <= FmMap.clock n2)%Z))
         /\ (exists n3,
                FmMap.exec n1 [FmMap.Elapse 1500; FmMap.TimerFire 0 true]
                = Some n3
                /\ List.length (FmMap.sockets n3) =
                   S (List.length (FmMap.sockets n)))).
Proof.
  split; [reflexivity|]. split.
  - intros n i n1. cbn.
    destruct (nth_error (FmMap.sockets n) i) as [[]|]; try discriminate;
      intros [= <-]; auto.
  - intros ok evs n e n1 E1 E.
    assert (SF : single_flight n)
      by (eapply exec_single_flight; [apply boot_single_flight | exact E1]).
    destruct (ending_is_a_close n n1 e SF E) as (m & i & SFm & C & Ck & Sk).
    destruct (close_schedules_one m n1 i SFm C) as (T & L & K & NB & R).
    rewrite Ck in T, K, NB. rewrite Sk in L, NB, R.
    split; [exact T|]. split; [exact L|]. split; [exact K|].
    split; [|exact R].
    intros evs' n2 E2.
    destruct (exec_not_before _ _ _ _ _ NB E2) as (F & _ & S).
    split.
    + intros Grow. destruct S as [S|S]; [congruence | exact S].
    + intros j b n3 St. cbn in St.
      destruct (nth_error (FmMap.timers n2) j) as [t|] eqn:N;
        [|discriminate].
      destruct (Z.leb_spec (FmMap.due t) (FmMap.clock n2)) as [P|P];
        [|discriminate].
      apply nth_error_In in N. rewrite Forall_forall in F.
      specialize (F t N). lia.
Qed.

Lemma reconnect_after_close_or_error_witness :
  let n := {| FmMap.clock := 10; FmMap.hud := Some FmMap.WS_OK;
              FmMap.sockets := [FmMap.OPEN]; FmMap.timers := [] |} in
  let n1 := {| FmMap.clock := 10; FmMap.hud := Some FmMap.WS_CLOSED_RETRY;
               FmMap.sockets := [FmMap.CLOSED];
               FmMap.timers :=
                 [{| FmMap.set_at := 10; FmMap.delay := 1500 |}] |} in
  FmMap.exec (FmMap.boot true) [FmMap.SocketOpen 0; FmMap.Elapse 10] = Some n
  /\ FmMap.exec n (events_of (Fails 0)) = Some n1
  /\ FmMap.timers n1 = [{| FmMap.set_at := 10; FmMap.delay := 1500 |}].
Proof.
  cbv zeta. split; [reflexivity|]. split; [reflexivity|].
  exact (proj1 (proj2 (proj2 reconnect_after_close_or_error)
                  true [FmMap.SocketOpen 0; FmMap.Elapse 10] _ (Fails 0) _
                  eq_refl eq_refl)).
Defined.

(** ** Worked examples for the projector and the trail *)

Lemma projector_formula_and_anchor_cases_witness :
  FmMap.xyToLatLon (M := sampleMath) FmMap.init (of_Z 0) (of_Z 0) =
  (decimal 399334 4, decimal 328597 4)
  /\ FmMap.xyToLatLon (M := sampleMath) FmMap.init (of_Z 0) (of_Z 111320) =
     (decimal 409334 4, decimal 328597 4).
Proof.
  assert (D : finite_nonzero (cosAtAnchor (M := sampleMath) FmMap.init) = true)
    by (vm_compute; reflexivity).
  destruct (proj2 (proj2 (proj2
              (@projector_formula_and_anchor_cases sampleMath))) D)
    as (H0 & H1 & _).
  split; [exact H0 | exact H1].
Defined.

Lemma position_resolution_order_witness :
  let pos :=
    JObj 2 [("lat"%string, JNum (of_Z 10)); ("lon"%string, JNum (of_Z 20));
            ("x"%string, JNum (of_Z 5)); ("y"%string, JNum (of_Z 5))] in
  FmMap.resolvePosition (M := sampleMath) FmMap.init
    (Some (record 1 "UAV1" pos))
  = Some (of_Z 10, of_Z 20).
Proof.
  cbv zeta.
  apply (proj1 (proj2 (@position_resolution_order sampleMath FmMap.init
                         (Some (record 1 "UAV1" _))))).
  reflexivity.
Defined.

Lemma trail_capacity_fifo_witness :
  let p := record 1 "UAV1" (geo 2 10 20) in
  let q := record 3 "UAV1" (geo 4 11 21) in
  let fs := repeat (FmMap.Parsed p) 200 in
  exists ps,
    map_get (Some (JStr "UAV1"))
      (FmMap.trails
         (FmMap.onmessage (M := sampleMath)
            (FmMap.run (M := sampleMath) FmMap.init fs) (FmMap.Parsed q)))
    = Some (Spec.keepLast 200 (repeat (of_Z 10, of_Z 20) 200 ++ ps)).
Proof.
  cbv zeta.
  apply (proj2 (proj2 (proj2 (proj2
           (@trail_capacity_fifo sampleMath
              (repeat (FmMap.Parsed (record 1 "UAV1" (geo 2 10 20))) 200)
              (FmMap.Parsed (record 3 "UAV1" (geo 4 11 21)))))))
           (Some (JStr "UAV1")) (repeat (of_Z 10, of_Z 20) 200)).
  vm_compute. reflexivity.
Defined.

(* ================================================================== *)
(** * Part III: more facts about the code *)
(* ================================================================== *)

(** ** The map page: what is shown is what is stored *)

Lemma lastPoint_snoc (b : list FmMap.latlng) (p : FmMap.latlng) :
  lastPoint (b ++ [p]) = Some p.
Proof. unfold lastPoint. now rewrite rev_app_distr. Qed.

Lemma lastPoint_pushTrail (b : list FmMap.latlng) (p : FmMap.latlng) :
  lastPoint (FmMap.pushTrail b p) = Some p.
Proof.
  rewrite pushTrail_keepLast. unfold Spec.keepLast.
  rewrite length_app, skipn_app. cbn [List.length].
  replace (List.length b + 1 - FmMap.TRAIL_MAX - List.length b) with 0
    by (unfold FmMap.TRAIL_MAX; lia).
  cbn [skipn]. apply lastPoint_snoc.
Qed.

Lemma pushTrail_not_nil (b : list FmMap.latlng) (p : FmMap.latlng) :
  FmMap.pushTrail b p <> [].
Proof.
  intros H. pose proof (lastPoint_pushTrail b p) as L. rewrite H in L.
  discriminate L.
Qed.

Section DisplayFacts.
Context {M : MathLib}.

Lemma applyTelemetry_markers_get (st : FmMap.State) (t : json)
      (ll : FmMap.latlng) (k : value) :
  accepted t = true ->
  FmMap.resolvePosition st (Some t) = Some ll ->
  map_get k (FmMap.markers (FmMap.applyTelemetry st t)) =
  if same_key k (idOf t) then Some ll else map_get k (FmMap.markers st).
Proof.
  intros A R. revert A.
  unfold FmMap.applyTelemetry, FmMap.ensureDrone, accepted, idOf. intros A.
  rewrite R.
  destruct (truthy (Some t)), (truthy (get "node_id" (Some t)));
    try discriminate A.
  cbn [negb orb FmMap.markers FmMap.polylines FmMap.trails FmMap.drones].
  destruct (map_has (get "node_id" (Some t)) (FmMap.markers st)) eqn:H;
    cbn [negb FmMap.markers FmMap.polylines FmMap.trails FmMap.drones].
  - rewrite H. apply map_get_set.
  - rewrite map_has_set, same_key_refl.
    cbn [orb]. rewrite !map_get_set.
    destruct (same_key k (get "node_id" (Some t))); reflexivity.
Qed.

Lemma applyTelemetry_polylines_get (st : FmMap.State) (t : json)
      (ll : FmMap.latlng) (k : value) :
  accepted t = true ->
  FmMap.resolvePosition st (Some t) = Some ll ->
  (map_has (idOf t) (FmMap.markers st) = true ->
   map_has (idOf t) (FmMap.polylines st) = true) ->
  map_get k (FmMap.polylines (FmMap.applyTelemetry st t)) =
  if same_key k (idOf t)
  then Some (FmMap.pushTrail (trailOf (idOf t) st) ll)
  else map_get k (FmMap.polylines st).
Proof.
  intros A R. revert A.
  unfold FmMap.applyTelemetry, FmMap.ensureDrone, accepted, idOf, trailOf.
  intros A P. rewrite R.
  destruct (truthy (Some t)), (truthy (get "node_id" (Some t)));
    try discriminate A.
  cbn [negb orb FmMap.markers FmMap.polylines FmMap.trails FmMap.drones].
  destruct (map_has (get "node_id" (Some t)) (FmMap.markers st)) eqn:H;
    cbn [negb FmMap.markers FmMap.polylines FmMap.trails FmMap.drones].
  - rewrite (P eq_refl). apply map_get_set.
  - rewrite map_has_set, same_key_refl.
    cbn [orb]. rewrite !map_get_set.
    destruct (same_key k (get "node_id" (Some t))); reflexivity.
Qed.

Lemma map_has_same_key {V} (m : jsmap V) (j k : value) :
  same_key j k = true -> map_has j m = map_has k m.
Proof. intros H. unfold map_has. now rewrite (map_get_same_key m j k H). Qed.

Lemma applyTelemetry_display (st : FmMap.State) (t : json) :
  display_consistent st -> display_consistent (FmMap.applyTelemetry st t).
Proof.
  intros I. destruct (accepted t) eqn:A.
  2:{ now rewrite applyTelemetry_rejected. }
  destruct (FmMap.resolvePosition st (Some t)) as [ll|] eqn:R.
  2:{ rewrite (applyTelemetry_unpositioned st t A R). intros k.
      destruct (I k) as (P & Mk & N & D). cbn.
      repeat split; auto.
      intros H. apply map_has_set_preserved. auto. }
  assert (MP : map_has (idOf t) (FmMap.markers st) = true ->
               map_has (idOf t) (FmMap.polylines st) = true).
  { destruct (I (idOf t)) as (P & Mk & _). unfold map_has.
    rewrite P, Mk. destruct (map_get (idOf t) (FmMap.trails st));
      [reflexivity | discriminate]. }
  intros k. destruct (I k) as (P & Mk & N & D).
  rewrite (applyTelemetry_polylines_get st t ll k A R MP).
  rewrite (applyTelemetry_markers_get st t ll k A R).
  rewrite applyTelemetry_trails, applyTelemetry_drones, A, R.
  unfold map_has. rewrite !map_get_set.
  destruct (same_key k (idOf t)) eqn:K.
  - repeat split; auto.
    + now rewrite lastPoint_pushTrail.
    + intros [= E]. now apply pushTrail_not_nil in E.
  - repeat split; auto.
Qed.

Lemma applyAll_display (ns : list json) (st : FmMap.State) :
  display_consistent st -> display_consistent (FmMap.applyAll st ns).
Proof.
  revert st. induction ns as [|n ns IH]; intros st I; auto.
  rewrite applyAll_cons. apply IH. now apply applyTelemetry_display.
Qed.

(** A mission changes the anchor and nothing else. *)
Lemma drawMissionOverlay_store (st : FmMap.State) (mission : value) :
  FmMap.drones (FmMap.drawMissionOverlay st mission) = FmMap.drones st
  /\ FmMap.trails (FmMap.drawMissionOverlay st mission) = FmMap.trails st
  /\ FmMap.markers (FmMap.drawMissionOverlay st mission) = FmMap.markers st
  /\ FmMap.polylines (FmMap.drawMissionOverlay st mission) =
     FmMap.polylines st
  /\ FmMap.selectedNodeId (FmMap.drawMissionOverlay st mission) =
     FmMap.selectedNodeId st.
Proof.
  unfold FmMap.drawMissionOverlay.
  destruct (negb (truthy mission) || negb (is_object mission)); auto.
  destruct (truthy (get "base" mission)); auto.
  destruct (FmMap.pointToLatLon st (get "base" mission)); auto.
  destruct (is_number _ && is_number _); cbn; auto.
Qed.

Lemma onmessage_display (st : FmMap.State) (f : FmMap.Frame) :
  display_consistent st -> display_consistent (FmMap.onmessage st f).
Proof.
  intros I. destruct f as [|msg]; cbn [FmMap.onmessage]; auto.
  destruct (FmMap.classify msg); auto.
  - now apply applyAll_display.
  - destruct (drawMissionOverlay_store st (get "mission" (Some msg)))
      as (D & T & Mk & P & _).
    intros k. rewrite D, T, Mk, P. apply I.
  - now apply applyTelemetry_display.
Qed.

Lemma run_display (fs : list FmMap.Frame) (st : FmMap.State) :
  display_consistent st -> display_consistent (FmMap.run st fs).
Proof.
  revert st. induction fs as [|f fs IH]; intros st I; auto.
  rewrite run_cons. apply IH. now apply onmessage_display.
Qed.

(** X1: at every point of a session of the map page, the polyline of an
    entity holds exactly the points of its trail, its marker stands on
    the newest point of the trail, no recorded trail is empty, and every
    entity that has a trail has a record in the entity map. *)
Theorem display_follows_store (fs : list FmMap.Frame) (k : value) :
  let st := FmMap.run FmMap.init fs in
  map_get k (FmMap.polylines st) = map_get k (FmMap.trails st)
  /\ map_get k (FmMap.markers st) =
     match map_get k (FmMap.trails st) with
     | Some b => lastPoint b
     | None => None
     end
  /\ map_get k (FmMap.trails st) <> Some []
  /\ (map_has k (FmMap.trails st) = true ->
      map_has k (FmMap.drones st) = true).
Proof.
  apply (run_display fs FmMap.init). intros j. cbn.
  repeat split; try discriminate.
Qed.

End DisplayFacts.

Lemma display_follows_store_witness :
  let fs := [FmMap.Parsed (record 1 "UAV1" (geo 2 10 20));
             FmMap.Parsed (record 3 "UAV1" (geo 4 11 21))] in
  map_has (Some (JStr "UAV1"))
    (FmMap.drones (FmMap.run (M := sampleMath) FmMap.init fs)) = true.
Proof.
  cbv zeta.
  apply (proj2 (proj2 (proj2
           (@display_follows_store sampleMath
              [FmMap.Parsed (record 1 "UAV1" (geo 2 10 20));
               FmMap.Parsed (record 3 "UAV1" (geo 4 11 21))]
              (Some (JStr "UAV1")))))).
  vm_compute. reflexivity.
Defined.

(** ** The map page: last write wins *)

Lemma find_app {A} (P : A -> bool) (a b : list A) :
  find P (a ++ b) =
  match find P a with
  | Some x => Some x
  | None => find P b
  end.
Proof.
  induction a as [|x a IH]; cbn; auto. destruct (P x); auto.
Qed.

Lemma lastAccepted_cons (k : value) (n : json) (ns : list json) :
  lastAccepted k (n :: ns) =
  match lastAccepted k ns with
  | Some x => Some x
  | None => if accepted n && same_key k (idOf n) then Some n else None
  end.
Proof. unfold lastAccepted. cbn [rev]. rewrite find_app. reflexivity. Qed.

Lemma lastAccepted_app (k : value) (a b : list json) :
  lastAccepted k (a ++ b) =
  match lastAccepted k b with
  | Some x => Some x
  | None => lastAccepted k a
  end.
Proof. unfold lastAccepted. rewrite rev_app_distr. apply find_app. Qed.

Section LastWriteFacts.
Context {M : MathLib}.

Lemma applyAll_drones_get (ns : list json) (st : FmMap.State) (k : value) :
  map_get k (FmMap.drones (FmMap.applyAll st ns)) =
  match lastAccepted k ns with
  | Some n => Some n
  | None => map_get k (FmMap.drones st)
  end.
Proof.
  revert st. induction ns as [|n ns IH]; intros st; auto.
  rewrite applyAll_cons, IH, lastAccepted_cons.
  destruct (lastAccepted k ns); auto.
  rewrite applyTelemetry_drones.
  destruct (accepted n); cbn [andb]; auto.
  rewrite map_get_set. destruct (same_key k (idOf n)); reflexivity.
Qed.

Lemma onmessage_drones (st : FmMap.State) (f : FmMap.Frame) :
  FmMap.drones (FmMap.onmessage st f) =
  FmMap.drones (FmMap.applyAll st (recordsOf f)).
Proof.
  destruct f as [|msg]; cbn [FmMap.onmessage recordsOf]; auto.
  destruct (FmMap.classify msg); auto.
  apply drawMissionOverlay_store.
Qed.

Lemma run_drones_get (fs : list FmMap.Frame) (st : FmMap.State) (k : value) :
  map_get k (FmMap.drones (FmMap.run st fs)) =
  match lastAccepted k (flat_map recordsOf fs) with
  | Some n => Some n
  | None => map_get k (FmMap.drones st)
  end.
Proof.
  revert st. induction fs as [|f fs IH]; intros st; auto.
  rewrite run_cons, IH. cbn [flat_map]. rewrite lastAccepted_app.
  destruct (lastAccepted k (flat_map recordsOf fs)); auto.
  rewrite onmessage_drones. apply applyAll_drones_get.
Qed.

(** X2: on the map page the record kept for an entity is the one of the
    last record received for it that passed the identifier guard,
    whatever the records say about time or position; frames that carry no
    such record leave it alone, so an entity once stored is never
    forgotten. *)
Theorem entity_record_is_last_received
        (st : FmMap.State) (fs : list FmMap.Frame) (k : value) :
  map_get k (FmMap.drones (FmMap.run st fs)) =
  match lastAccepted k (flat_map recordsOf fs) with
  | Some n => Some n
  | None => map_get k (FmMap.drones st)
  end
  /\ (map_has k (FmMap.drones st) = true ->
      map_has k (FmMap.drones (FmMap.run st fs)) = true).
Proof.
  split; [apply run_drones_get|].
  unfold map_has. rewrite run_drones_get.
  destruct (lastAccepted k (flat_map recordsOf fs)); auto.
Qed.

End LastWriteFacts.

Lemma entity_record_is_last_received_witness :
  let old := record 1 "UAV1" (geo 2 10 20) in
  let st := FmMap.applyTelemetry (M := sampleMath) FmMap.init old in
  map_has (Some (JStr "UAV1"))
    (FmMap.drones
       (FmMap.run (M := sampleMath) st
          [FmMap.Unparseable; FmMap.Parsed (bareRecord 3 "UAV2")])) = true.
Proof.
  cbv zeta.
  apply (proj2 (@entity_record_is_last_received sampleMath
                  (FmMap.applyTelemetry (M := sampleMath) FmMap.init
                     (record 1 "UAV1" (geo 2 10 20)))
                  [FmMap.Unparseable; FmMap.Parsed (bareRecord 3 "UAV2")]
                  (Some (JStr "UAV1")))).
  reflexivity.
Defined.

(** ** The map page: markers, clicks and icons *)

Lemma truthy_norm_key (v : value) : truthy (norm_key v) = truthy v.
Proof. destruct v as [[| |[]| | |]|]; reflexivity. Qed.

Lemma map_keys_set_In {V} (m : jsmap V) (k j : value) (v : V) :
  In j (map_keys (map_set k v m)) -> In j (map_keys m) \/ j = norm_key k.
Proof.
  rewrite map_keys_set. destruct (map_has k m); auto.
  intros H. apply in_app_or in H. destruct H as [H|[H|[]]]; auto.
Qed.

Lemma map_set_distinct {V} (m : jsmap V) (k : value) (v : V) :
  distinct_keys m -> distinct_keys (map_set k v m).
Proof.
  induction m as [|[k0 v0] m IH]; cbn [map_set distinct_keys].
  - intros _. split; [reflexivity | exact I].
  - intros [H D]. destruct (same_key k k0) eqn:E; cbn [distinct_keys].
    + split; assumption.
    + split; [|auto]. rewrite map_has_set, H.
      rewrite same_key_sym, E. reflexivity.
Qed.

(** In a [Map] with distinct keys at most one entry answers to a key. *)
Lemma distinct_keys_count {V} (m : jsmap V) (s : value) :
  distinct_keys m ->
  List.length (filter (fun kv => same_key (fst kv) s) m) =
  if map_has s m then 1 else 0.
Proof.
  induction m as [|[k0 v0] m IH]; cbn [distinct_keys filter fst]; auto.
  intros [H D]. specialize (IH D). unfold map_has in *. cbn [map_get].
  rewrite (same_key_sym s k0).
  destruct (same_key k0 s) eqn:E; cbn [List.length].
  - rewrite IH. rewrite <- (map_get_same_key m k0 s E).
    destruct (map_get k0 m); [discriminate H | reflexivity].
  - exact IH.
Qed.

Section MarkerFacts.
Context {M : MathLib}.

Lemma applyTelemetry_markers_sound (st : FmMap.State) (t : json) :
  markers_sound st -> markers_sound (FmMap.applyTelemetry st t).
Proof.
  intros [T D]. destruct (accepted t) eqn:A.
  2:{ rewrite applyTelemetry_rejected by exact A. now split. }
  destruct (FmMap.resolvePosition st (Some t)) as [ll|] eqn:R.
  2:{ rewrite (applyTelemetry_unpositioned st t A R). now split. }
  revert A. unfold FmMap.applyTelemetry, FmMap.ensureDrone, accepted, idOf.
  intros A. rewrite R.
  destruct (truthy (Some t)), (truthy (get "node_id" (Some t))) eqn:Tid;
    try discriminate A.
  cbn [negb orb FmMap.markers FmMap.polylines FmMap.trails FmMap.drones].
  destruct (map_has (get "node_id" (Some t)) (FmMap.markers st)) eqn:H;
    cbn [negb FmMap.markers FmMap.polylines FmMap.trails FmMap.drones].
  - rewrite H. cbn [FmMap.markers]. split.
    + intros k K. apply map_keys_set_In in K. destruct K as [K| ->]; auto.
      now rewrite truthy_norm_key.
    + now apply map_set_distinct.
  - rewrite map_has_set, same_key_refl. cbn [orb FmMap.markers]. split.
    + intros k K. apply map_keys_set_In in K. destruct K as [K| ->].
      * apply map_keys_set_In in K. destruct K as [K| ->]; auto.
        now rewrite truthy_norm_key.
      * now rewrite truthy_norm_key.
    + now apply map_set_distinct, map_set_distinct.
Qed.

Lemma onmessage_markers_sound (st : FmMap.State) (f : FmMap.Frame) :
  markers_sound st -> markers_sound (FmMap.onmessage st f).
Proof.
  intros I. destruct f as [|msg]; cbn [FmMap.onmessage]; auto.
  destruct (FmMap.classify msg); auto.
  - generalize (items_of (get "nodes" (Some msg))). intros ns.
    revert st I. induction ns as [|n ns IH]; intros st I; auto.
    rewrite applyAll_cons. apply IH. now apply applyTelemetry_markers_sound.
  - destruct (drawMissionOverlay_store st (get "mission" (Some msg)))
      as (_ & _ & Mk & _). unfold markers_sound. now rewrite Mk.
  - now apply applyTelemetry_markers_sound.
Qed.

Lemma run_markers_sound (fs : list FmMap.Frame) (st : FmMap.State) :
  markers_sound st -> markers_sound (FmMap.run st fs).
Proof.
  revert st. induction fs as [|f fs IH]; intros st I; auto.
  rewrite run_cons. apply IH. now apply onmessage_markers_sound.
Qed.

Lemma init_markers_sound : markers_sound FmMap.init.
Proof. split; [intros k [] | exact I]. Qed.

(** X3: an operator's choice is never overridden.  After a click on the
    marker of any entity shown on the map, the selection is that entity,
    and it stays that entity whatever frames arrive afterwards; the click
    changes nothing in the store. *)
Theorem clicked_selection_is_kept
        (fs fs' : list FmMap.Frame) (k : value) :
  let st := FmMap.run FmMap.init fs in
  In k (map_keys (FmMap.markers st)) ->
  FmMap.selectedNodeId (FmMap.run (FmHud.clickMarker st k) fs') = k
  /\ FmMap.drones (FmHud.clickMarker st k) = FmMap.drones st
  /\ FmMap.trails (FmHud.clickMarker st k) = FmMap.trails st.
Proof.
  intros st K.
  destruct (run_markers_sound fs FmMap.init init_markers_sound) as [T _].
  split; [|split; reflexivity].
  rewrite run_selection_set; [reflexivity|]. cbn. now apply T.
Qed.

End MarkerFacts.

Lemma clicked_selection_is_kept_witness :
  let fs := [FmMap.Parsed (record 1 "UAV1" (geo 2 10 20));
             FmMap.Parsed (record 3 "UAV2" (geo 4 11 21))] in
  let st := FmMap.run (M := sampleMath) FmMap.init fs in
  FmMap.selectedNodeId st = Some (JStr "UAV1")
  /\ FmMap.selectedNodeId
       (FmMap.run (M := sampleMath)
          (FmHud.clickMarker st (Some (JStr "UAV2")))
          [FmMap.Parsed (record 5 "UAV3" (geo 6 12 22))])
     = Some (JStr "UAV2").
Proof.
  cbv zeta. split; [vm_compute; reflexivity|].
  apply (@clicked_selection_is_kept sampleMath
           [FmMap.Parsed (record 1 "UAV1" (geo 2 10 20));
            FmMap.Parsed (record 3 "UAV2" (geo 4 11 21))]
           [FmMap.Parsed (record 5 "UAV3" (geo 6 12 22))]
           (Some (JStr "UAV2"))).
  vm_compute. right. left. reflexivity.
Defined.

Lemma truthy_key_of (a b : value) :
  key_of a = key_of b -> truthy a = truthy b.
Proof.
  destruct a as [[| |x| | |]|], b as [[| |y| | |]|]; cbn;
    try discriminate; try reflexivity; try congruence.
  intros [= H]. destruct x as [| | |s m e], y as [| | |s' m' e']; cbn in *;
      try reflexivity; try discriminate H;
      try (destruct (odd_part m e); discriminate H);
      try (destruct (odd_part m' e'); discriminate H).
Qed.

Lemma same_key_truthy (a b : value) :
  same_key a b = true -> truthy a = truthy b.
Proof. intros H. apply truthy_key_of. now apply same_key_iff. Qed.

Lemma strict_eq_truthy (k s : value) :
  truthy k = true -> strict_eq k s = same_key k s.
Proof.
  intros T. unfold strict_eq. destruct k as [[| |[]| | |]|]; cbn in *;
    try discriminate T; now rewrite andb_true_r.
Qed.

Lemma map_has_truthy {V} (m : jsmap V) (s : value) :
  (forall k, In k (map_keys m) -> truthy k = true) ->
  map_has s m = true -> truthy s = true.
Proof.
  intros T H. apply map_has_In in H. destruct H as (k0 & K & E).
  rewrite (same_key_truthy _ _ E). now apply T.
Qed.

Section IconFacts.
Context {M : MathLib}.

Lemma applyTelemetry_markers_has (st : FmMap.State) (t : json) (k : value) :
  map_has k (FmMap.markers st) = true ->
  map_has k (FmMap.markers (FmMap.applyTelemetry st t)) = true.
Proof.
  intros H. destruct (accepted t) eqn:A.
  2:{ now rewrite applyTelemetry_rejected. }
  destruct (FmMap.resolvePosition st (Some t)) as [ll|] eqn:R.
  2:{ now rewrite (applyTelemetry_unpositioned st t A R). }
  unfold map_has in *. rewrite (applyTelemetry_markers_get st t ll k A R).
  destruct (same_key k (idOf t)); auto.
Qed.

Lemma applyTelemetry_selection_marked (st : FmMap.State) (t : json) :
  selection_marked st -> selection_marked (FmMap.applyTelemetry st t).
Proof.
  unfold selection_marked. intros I. rewrite applyTelemetry_selected.
  destruct (accepted t && resolvable t
            && negb (truthy (FmMap.selectedNodeId st))) eqn:C.
  - intros _. apply andb_true_iff in C. destruct C as [C _].
    apply andb_true_iff in C. destruct C as [A R].
    apply (resolvable_true st) in R. destruct R as [ll R].
    unfold map_has. rewrite (applyTelemetry_markers_get st t ll _ A R).
    now rewrite same_key_refl.
  - intros S. apply applyTelemetry_markers_has. auto.
Qed.

Lemma onmessage_selection_marked (st : FmMap.State) (f : FmMap.Frame) :
  selection_marked st -> selection_marked (FmMap.onmessage st f).
Proof.
  intros I. destruct f as [|msg]; cbn [FmMap.onmessage]; auto.
  destruct (FmMap.classify msg); auto.
  - generalize (items_of (get "nodes" (Some msg))). intros ns.
    revert st I. induction ns as [|n ns IH]; intros st I; auto.
    rewrite applyAll_cons. apply IH.
    now apply applyTelemetry_selection_marked.
  - destruct (drawMissionOverlay_store st (get "mission" (Some msg)))
      as (_ & _ & Mk & _ & S). unfold selection_marked. now rewrite Mk, S.
  - now apply applyTelemetry_selection_marked.
Qed.

Lemma run_selection_marked (fs : list FmMap.Frame) (st : FmMap.State) :
  selection_marked st -> selection_marked (FmMap.run st fs).
Proof.
  revert st. induction fs as [|f fs IH]; intros st I; auto.
  rewrite run_cons. apply IH. now apply onmessage_selection_marked.
Qed.

Lemma highlightedCount_markers (st : FmMap.State) :
  markers_sound st ->
  highlightedCount (FmHud.refreshAllIcons st) =
  if map_has (FmMap.selectedNodeId st) (FmMap.markers st) then 1 else 0.
Proof.
  intros [T D]. rewrite <- (distinct_keys_count _ _ D).
  unfold highlightedCount, FmHud.refreshAllIcons.
  revert T. generalize (FmMap.markers st). intros m T.
  induction m as [|[k0 v0] m IH]; auto.
  cbn [List.map filter fst snd FmHud.makeDroneIcon FmHud.highlighted].
  rewrite (strict_eq_truthy k0 _ (T k0 (or_introl eq_refl))).
  destruct (same_key k0 (FmMap.selectedNodeId st)); cbn [List.length];
    rewrite IH; auto; intros k K; apply T; right; exact K.
Qed.

Lemma ui_step_markers_sound (st : FmMap.State) (ev : FmHud.UiEvent) :
  markers_sound st -> markers_sound (FmHud.ui_step st ev).
Proof.
  intros I. destruct ev as [f|i|attr]; cbn [FmHud.ui_step].
  - now apply onmessage_markers_sound.
  - destruct (nth_error (FmMap.markers st) i) as [[k v]|]; exact I.
  - exact I.
Qed.

Lemma session_markers_sound (evs : list FmHud.UiEvent) (st : FmMap.State) :
  markers_sound st -> markers_sound (FmHud.session st evs).
Proof.
  revert st. induction evs as [|ev evs IH]; intros st I; auto.
  apply (IH (FmHud.ui_step st ev)). now apply ui_step_markers_sound.
Qed.

Lemma ui_step_selection_marked (st : FmMap.State) (ev : FmHud.UiEvent) :
  FmHud.is_button_click ev = false ->
  selection_marked st -> selection_marked (FmHud.ui_step st ev).
Proof.
  intros B I. destruct ev as [f|i|attr]; cbn [FmHud.ui_step];
    [| |discriminate B].
  - now apply onmessage_selection_marked.
  - destruct (nth_error (FmMap.markers st) i) as [[k v]|] eqn:N;
      [|exact I].
    intros _. cbn. apply map_has_In. exists k. split.
    + apply nth_error_In in N. now apply (in_map fst) in N.
    + apply same_key_refl.
Qed.

Lemma session_selection_marked (evs : list FmHud.UiEvent)
      (st : FmMap.State) :
  existsb FmHud.is_button_click evs = false ->
  selection_marked st -> selection_marked (FmHud.session st evs).
Proof.
  revert st. induction evs as [|ev evs IH]; intros st B I; auto.
  cbn [existsb] in B. apply orb_false_iff in B. destruct B as [B1 B2].
  apply (IH (FmHud.ui_step st ev) B2).
  now apply ui_step_selection_marked.
Qed.

(** X4.  At every point of a session of the map page, with frames,
    clicks on markers and clicks on the buttons of the list in any
    order, [refreshAllIcons] gives one icon to every marker; exactly one
    icon is highlighted when the selection has a marker, and none
    otherwise; the highlighted icon is the one of the selected entity.
    When no button of the list has been clicked, a selection that is set
    has a marker, so exactly one icon is highlighted once an entity is
    selected, and none before.  The rotation of an icon is the nested
    heading [vel.heading_deg] when that is a number, the top-level
    [heading_deg] when the nested one is null or missing and the
    top-level one is a number, and 0 otherwise: a nested heading that is
    present but not a number hides the top-level one. *)
Theorem icons_follow_selection_and_heading (evs : list FmHud.UiEvent) :
  let st := FmHud.session FmMap.init evs in
  let icons := FmHud.refreshAllIcons st in
  map_keys icons = map_keys (FmMap.markers st)
  /\ highlightedCount icons =
     (if map_has (FmMap.selectedNodeId st) (FmMap.markers st)
      then 1 else 0)
  /\ (existsb FmHud.is_button_click evs = false ->
      highlightedCount icons =
      (if truthy (FmMap.selectedNodeId st) then 1 else 0))
  /\ (forall k icon,
         In (k, icon) icons ->
         FmHud.highlighted icon = same_key k (FmMap.selectedNodeId st)
         /\ FmHud.rotation icon =
            let d := map_get k (FmMap.drones st) in
            let nested := get "heading_deg" (get "vel" d) in
            let top := get "heading_deg" d in
            if is_number nested then num_of nested
            else if nullish nested && is_number top then num_of top
            else of_Z 0).
Proof.
  intros st icons.
  pose proof (session_markers_sound evs FmMap.init init_markers_sound) as MS.
  fold st in MS. split; [|split; [|split]].
  - unfold icons, FmHud.refreshAllIcons, map_keys. rewrite map_map.
    reflexivity.
  - unfold icons. now rewrite (highlightedCount_markers st MS).
  - intros B.
    assert (SM : selection_marked st).
    { apply session_selection_marked; [exact B|]. intros H. discriminate H. }
    unfold icons. rewrite (highlightedCount_markers st MS).
    destruct (truthy (FmMap.selectedNodeId st)) eqn:T.
    + now rewrite (SM T).
    + destruct (map_has (FmMap.selectedNodeId st) (FmMap.markers st)) eqn:H;
        auto.
      apply (map_has_truthy _ _ (proj1 MS)) in H. congruence.
  - intros k icon H. unfold icons, FmHud.refreshAllIcons in H.
    apply in_map_iff in H. destruct H as ([k0 v0] & E & K).
    cbn [fst] in E. injection E as <- <-.
    cbn [FmHud.makeDroneIcon FmHud.highlighted FmHud.rotation]. split.
    + apply strict_eq_truthy. apply (proj1 MS).
      apply (in_map fst) in K. exact K.
    + unfold FmHud.headingOf, coalesce.
      destruct (get "heading_deg" (get "vel" (map_get k0 (FmMap.drones st))))
        as [[]|]; cbn; try reflexivity;
        destruct (get "heading_deg" (map_get k0 (FmMap.drones st)))
          as [[]|]; reflexivity.
Qed.

End IconFacts.

Lemma icons_follow_selection_and_heading_witness :
  highlightedCount
    (FmHud.refreshAllIcons
       (FmHud.session (M := sampleMath) FmMap.init sampleSession)) =
  (if truthy
        (FmMap.selectedNodeId
           (FmHud.session (M := sampleMath) FmMap.init sampleSession))
   then 1 else 0)
  /\ FmHud.refreshAllIcons
       (FmHud.session (M := sampleMath) FmMap.init sampleSession) =
     [(Some (JStr "UAV1"),
       {| FmHud.rotation := of_Z 0; FmHud.highlighted := true |})].
Proof.
  split.
  - exact (proj1 (proj2 (proj2
             (@icons_follow_selection_and_heading sampleMath sampleSession)))
             eq_refl).
  - vm_compute. reflexivity.
Defined.

(** ** The projector and the anchor *)

Lemma fadd_plus_zero (x : num) : canon (fadd x (S754_zero false)) = canon x.
Proof. destruct x as [[]|[]| |s m e]; reflexivity. Qed.

Lemma fadd_any_zero (x : num) (s : bool) :
  canon (fadd x (S754_zero s)) = canon x.
Proof. destruct x as [[]|[]| |s' m e], s; reflexivity. Qed.

Section AnchorFacts.
Context {M : MathLib}.

(** X5: whatever the anchor, the projector sends the offset (0, 0) to the
    anchor itself, provided [Math.cos] returns a finite number other than
    zero for the anchor's latitude: both coordinates are the anchor's as
    numbers, and they are the very same binary64 values when the anchor's
    are not zero. *)
Theorem projector_origin_is_anchor (st : FmMap.State) :
  finite_nonzero (cosAtAnchor st) = true ->
  let ll := FmMap.xyToLatLon st (of_Z 0) (of_Z 0) in
  canon (fst ll) = canon (FmMap.anchorLat st)
  /\ canon (snd ll) = canon (FmMap.anchorLon st)
  /\ (is_nonzero_number (FmMap.anchorLat st) = true ->
      fst ll = FmMap.anchorLat st)
  /\ (is_nonzero_number (FmMap.anchorLon st) = true ->
      snd ll = FmMap.anchorLon st).
Proof.
  intros C ll. apply fmul_scale_nonzero in C. unfold cosAtAnchor in C.
  subst ll. unfold FmMap.xyToLatLon. cbn [fst snd].
  change (of_Z 0) with (S754_zero false).
  change (fdiv (S754_zero false) (of_Z 111320)) with (S754_zero false).
  destruct (fdiv_zero_l false _ C) as [s' ->].
  split; [apply fadd_plus_zero|]. split; [apply fadd_any_zero|].
  split; intros H; now apply fadd_zero_r.
Qed.

(** The guard of the anchor lock, in one test. *)
Lemma drawMissionOverlay_anchor (st : FmMap.State) (mission : value) :
  (FmMap.anchorLat (FmMap.drawMissionOverlay st mission),
   FmMap.anchorLon (FmMap.drawMissionOverlay st mission)) =
  if is_object mission
     && is_number (get "lat" (get "base" mission))
     && is_number (get "lon" (get "base" mission))
  then (num_of (get "lat" (get "base" mission)),
        num_of (get "lon" (get "base" mission)))
  else (FmMap.anchorLat st, FmMap.anchorLon st).
Proof.
  unfold FmMap.drawMissionOverlay, FmMap.pointToLatLon.
  destruct mission as [[|b|x|s|a l|a fs]|];
    cbn [truthy is_object negb orb andb];
    try rewrite orb_true_r; try reflexivity.
  destruct (get "base" (Some (JObj a fs))) as [[|b|x|s|a' l'|a' fs']|];
    cbn [truthy is_object negb orb andb get is_number];
    try rewrite orb_true_r; try reflexivity.
  - destruct b; reflexivity.
  - destruct (negb (is_zero_or_nan x)); reflexivity.
  - destruct (negb (s =? "")%string); reflexivity.
  - destruct (is_number (assoc "lat" fs') && is_number (assoc "lon" fs'));
      [reflexivity|].
    destruct (is_number (assoc "x" fs') && is_number (assoc "y" fs'));
      reflexivity.
Qed.

(** X6: a mission locks the anchor to its base exactly when the mission is
    an object whose base carries numeric [lat] and [lon]; in every other
    case (no base, a planar base, a base with one coordinate) the anchor
    stays.  Either way the entity map, the trails, the markers, the
    polylines and the selection are untouched, so positions recorded before
    are not recomputed, while a planar position received afterwards is
    projected from the new anchor. *)
Theorem mission_locks_anchor_only (st : FmMap.State) (mission : value) :
  let st' := FmMap.drawMissionOverlay st mission in
  (FmMap.anchorLat st', FmMap.anchorLon st') =
  (if is_object mission
      && is_number (get "lat" (get "base" mission))
      && is_number (get "lon" (get "base" mission))
   then (num_of (get "lat" (get "base" mission)),
         num_of (get "lon" (get "base" mission)))
   else (FmMap.anchorLat st, FmMap.anchorLon st))
  /\ FmMap.drones st' = FmMap.drones st
  /\ FmMap.trails st' = FmMap.trails st
  /\ FmMap.markers st' = FmMap.markers st
  /\ FmMap.polylines st' = FmMap.polylines st
  /\ FmMap.selectedNodeId st' = FmMap.selectedNodeId st
  /\ (forall t xy,
         Spec.geoForm (get "pos" t) = None ->
         Spec.planarForm (get "pos" t) = Some xy ->
         FmMap.resolvePosition st' t =
         Some (fadd (FmMap.anchorLat st') (fdiv (snd xy) (of_Z 111320)),
               fadd (FmMap.anchorLon st')
                 (fdiv (fst xy) (fmul (of_Z 111320) (cosAtAnchor st'))))).
Proof.
  intros st'. split; [apply drawMissionOverlay_anchor|].
  destruct (drawMissionOverlay_store st mission) as (D & T & Mk & P & S).
  repeat (split; [assumption|]).
  intros t xy G Pl. rewrite resolvePosition_in_order.
  unfold Spec.resolveInOrder. rewrite G, Pl. reflexivity.
Qed.

End AnchorFacts.

Lemma projector_origin_is_anchor_witness :
  let st := FmMap.drawMissionOverlay (M := sampleMath) FmMap.init
              (Some (JObj 1 [("base"%string, geo 2 41 29)])) in
  FmMap.xyToLatLon (M := sampleMath) st (of_Z 0) (of_Z 0) =
  (of_Z 41, of_Z 29).
Proof.
  cbv zeta.
  destruct (@projector_origin_is_anchor sampleMath
              (FmMap.drawMissionOverlay (M := sampleMath) FmMap.init
                 (Some (JObj 1 [("base"%string, geo 2 41 29)])))
              eq_refl) as (_ & _ & A & B).
  rewrite (surjective_pairing (FmMap.xyToLatLon _ _ _)).
  rewrite (A eq_refl), (B eq_refl). reflexivity.
Defined.

Lemma mission_locks_anchor_only_witness :
  let st := FmMap.applyTelemetry (M := sampleMath) FmMap.init
              (record 1 "UAV1" (geo 2 10 20)) in
  let st' := FmMap.drawMissionOverlay (M := sampleMath) st
               (Some (JObj 3 [("base"%string, geo 4 41 29)])) in
  (FmMap.anchorLat st', FmMap.anchorLon st') = (of_Z 41, of_Z 29)
  /\ FmMap.trails st' = [(Some (JStr "UAV1"), [(of_Z 10, of_Z 20)])]
  /\ FmMap.resolvePosition (M := sampleMath) st'
       (Some (record 5 "UAV2" (planar 6 0 111320)))
     = Some (of_Z 42, of_Z 29).
Proof.
  cbv zeta.
  destruct (@mission_locks_anchor_only sampleMath
              (FmMap.applyTelemetry (M := sampleMath) FmMap.init
                 (record 1 "UAV1" (geo 2 10 20)))
              (Some (JObj 3 [("base"%string, geo 4 41 29)])))
    as (A & _ & T & _ & _ & _ & R).
  split; [rewrite A; reflexivity|]. split; [rewrite T; reflexivity|].
  rewrite (R (Some (record 5 "UAV2" (planar 6 0 111320)))
             (of_Z 0, of_Z 111320) eq_refl eq_refl).
  vm_compute. reflexivity.
Defined.

(** ** The React application: the [nodes] state, failed snapshots *)

Lemma upsertNode_nodes (ast : App.State) (n : value) :
  App.nodes ast = map_values (App.byId ast) ->
  App.nodes (App.upsertNode ast n) =
  map_values (App.byId (App.upsertNode ast n)).
Proof.
  intros I. unfold App.upsertNode. destruct n as [rec|]; auto.
  destruct (negb (truthy (get "node_id" (Some rec)))); auto.
Qed.

Lemma setSnapshot_nodes (ast ast' : App.State) (arr : value) :
  App.setSnapshot ast arr = App.Ok ast' ->
  App.nodes ast' = map_values (App.byId ast').
Proof.
  unfold App.setSnapshot.
  destruct (App.or_else arr App.empty_array) as [[| | | |a ns|]|];
    try discriminate.
  destruct (App.map_pairs ns); cbn; [|discriminate].
  intros [= <-]. reflexivity.
Qed.

Lemma onmessage_nodes (ast : App.State) (f : App.Frame) :
  App.nodes ast = map_values (App.byId ast) ->
  App.nodes (App.onmessage ast f) = map_values (App.byId (App.onmessage ast f)).
Proof.
  intros I. destruct f as [|msg]; cbn [App.onmessage]; auto.
  unfold App.handle. destruct (App.classify msg).
  - destruct (App.setSnapshot ast _) as [ast'|e] eqn:S; auto.
    now apply setSnapshot_nodes in S.
  - exact I.
  - now apply upsertNode_nodes.
Qed.

Lemma map_pairs_null (ns : list json) :
  has_null ns = true -> App.map_pairs ns = App.Throw App.TypeError.
Proof.
  induction ns as [|n ns IH]; cbn; [discriminate|].
  destruct n; cbn; auto; intros H; rewrite (IH H); reflexivity.
Qed.

(** X7.  At every point of a session of the React application the
    [nodes] state, the array handed to [setNodes], holds exactly the
    records of the entity map [byIdRef], in the order in which the map
    holds them, whatever frames arrived, failed ones included.  (The
    table and the map draw [sorted], a sorted copy of this array.) *)
Theorem nodes_state_mirrors_map (fs : list App.Frame) :
  App.nodes (App.run App.init fs) =
  map_values (App.byId (App.run App.init fs)).
Proof.
  assert (G : forall ast,
             App.nodes ast = map_values (App.byId ast) ->
             App.nodes (App.run ast fs) =
             map_values (App.byId (App.run ast fs))).
  { induction fs as [|f fs IH]; intros ast I; auto.
    apply (IH (App.onmessage ast f)). now apply onmessage_nodes. }
  apply G. reflexivity.
Qed.

(** X8: what a malformed snapshot does in the React application.  When
    the nodes array holds a null, or when nodes is truthy and not an
    array, [setSnapshot] throws: the entity map, the node list and the
    mission stay as they were and the error banner shows a parse error.
    When nodes is missing or falsy the snapshot empties the entity map. *)
Theorem malformed_snapshot_in_app (ast : App.State) (msg : json) :
  typed "snapshot" msg = true ->
  let nodes := get "nodes" (Some msg) in
  ((is_array nodes = true /\ has_null (items_of nodes) = true)
   \/ (truthy nodes = true /\ is_array nodes = false) ->
   App.onmessage ast (App.Parsed msg) =
   App.setErr ast (App.ErrWsParse App.TypeError))
  /\ (truthy nodes = false ->
      App.byId (App.onmessage ast (App.Parsed msg)) = []
      /\ App.nodes (App.onmessage ast (App.Parsed msg)) = []
      /\ App.err (App.onmessage ast (App.Parsed msg)) = App.err ast).
Proof.
  intros T nodes.
  assert (C : App.classify msg = App.RSnapshot).
  { rewrite app_classify_eq, T. reflexivity. }
  unfold App.onmessage, App.handle. rewrite C. fold nodes. split.
  - intros [[A N] | [Tr A]].
    + destruct nodes as [[| | | |a ns|]|]; try discriminate A.
      cbn in N. unfold App.setSnapshot. cbn.
      now rewrite (map_pairs_null ns N).
    + unfold App.setSnapshot, App.or_else. rewrite Tr, Tr.
      destruct nodes as [[| | | |a ns|]|]; try discriminate A;
        try discriminate Tr; reflexivity.
  - intros F. unfold App.setSnapshot, App.or_else. rewrite F. cbn.
    repeat split.
Qed.

Lemma malformed_snapshot_in_app_witness :
  let ast := App.upsertNode App.init (Some (record 1 "UAV1" (geo 2 10 20))) in
  let msg := snapshotOf 3 [record 5 "UAV2" (geo 6 11 21); JNull] in
  App.onmessage ast (App.Parsed msg) =
  App.setErr ast (App.ErrWsParse App.TypeError).
Proof.
  cbv zeta.
  apply (proj1 (malformed_snapshot_in_app
                  (App.upsertNode App.init
                     (Some (record 1 "UAV1" (geo 2 10 20))))
                  (snapshotOf 3 [record 5 "UAV2" (geo 6 11 21); JNull])
                  eq_refl)).
  left. split; reflexivity.
Defined.

(** ** The React application: the event log *)

Lemma firstn_app_firstn {A} (n : nat) (a b : list A) :
  firstn n (a ++ firstn n b) = firstn n (a ++ b).
Proof.
  rewrite !firstn_app, firstn_firstn. f_equal. f_equal. lia.
Qed.

Lemma pushAll_firstn (xs : list (string * AppUi.EventLine))
      (prev : list AppUi.LogEntry) :
  pushAll xs (firstn AppUi.LOG_MAX prev) =
  firstn AppUi.LOG_MAX (rev (List.map entryOf xs) ++ prev).
Proof.
  revert prev. induction xs as [|x xs IH]; intros prev; auto.
  unfold pushAll in *. cbn [fold_left List.map rev].
  unfold AppUi.pushEvent at 2. fold (entryOf x).
  rewrite <- app_assoc. cbn [app].
  rewrite <- (IH (entryOf x :: prev)). f_equal.
  change (entryOf x :: firstn AppUi.LOG_MAX prev)
    with ([entryOf x] ++ firstn AppUi.LOG_MAX prev).
  now rewrite firstn_app_firstn.
Qed.

(** X9: the event log of the React application never holds more than 50
    entries.  After any number of events it holds the newest 50 of them,
    newest first: the event just pushed is at the head and the oldest
    entries are the ones that fall off. *)
Theorem event_log_keeps_newest_50
        (xs : list (string * AppUi.EventLine)) :
  pushAll xs [] = firstn 50 (rev (List.map entryOf xs))
  /\ List.length (pushAll xs []) = Nat.min (List.length xs) 50
  /\ (forall iso l prev,
         hd_error (AppUi.pushEvent iso l prev) = Some (entryOf (iso, l))
         /\ List.length (AppUi.pushEvent iso l prev) <= 50).
Proof.
  assert (E : pushAll xs [] = firstn 50 (rev (List.map entryOf xs))).
  { change (@nil AppUi.LogEntry)
      with (firstn AppUi.LOG_MAX (@nil AppUi.LogEntry)) at 1.
    rewrite pushAll_firstn, app_nil_r. reflexivity. }
  split; [exact E|]. split.
  - rewrite E, length_firstn, length_rev, length_map. lia.
  - intros iso l prev. split; [reflexivity|].
    unfold AppUi.pushEvent. rewrite length_firstn. unfold AppUi.LOG_MAX. lia.
Qed.

(** ** Strings: [replace], [includes], [split] *)

Lemma prefix_refl_app (p s : string) : String.prefix p (p ++ s) = true.
Proof.
  induction p as [|c p IH]; cbn.
  - destruct s; reflexivity.
  - destruct (ascii_dec c c); [exact IH | congruence].
Qed.

Lemma substring_all (s : string) (n : nat) :
  String.length s <= n -> substring 0 n s = s.
Proof.
  revert n. induction s as [|c s IH]; intros [|n] H; cbn in *; auto; try lia.
  f_equal. apply IH. lia.
Qed.

Lemma length_append (p s : string) :
  String.length (p ++ s) = String.length p + String.length s.
Proof. induction p as [|c p IH]; cbn; auto. Qed.

Lemma substring_drop (p s : string) (m : nat) :
  substring (String.length p) m (p ++ s) = substring 0 m s.
Proof. induction p as [|c p IH]; cbn; auto. Qed.

Lemma substring_skip (p s : string) :
  substring (String.length p) (String.length (p ++ s)) (p ++ s) = s.
Proof.
  rewrite substring_drop. apply substring_all. rewrite length_append. lia.
Qed.

Lemma includes_char_app (c : ascii) (a b : string) :
  includes_char c (a ++ b) = includes_char c a || includes_char c b.
Proof.
  induction a as [|d a IH]; cbn; auto. rewrite IH. apply orb_assoc.
Qed.

Lemma prefix_head_mismatch (c d : ascii) (p s : string) :
  Ascii.eqb c d = false -> String.prefix (String c p) (String d s) = false.
Proof.
  intros H. cbn. destruct (ascii_dec c d) as [->|]; auto.
  rewrite Ascii.eqb_refl in H. discriminate H.
Qed.

(** A text without the first character of the pattern is left alone. *)
Lemma replace_first_free (c : ascii) (p rep s : string) :
  free_of c s -> replace_first (String c p) rep s = s.
Proof.
  unfold free_of. induction s as [|d s IH]; cbn [includes_char]; auto.
  intros H. apply orb_false_iff in H. destruct H as [H1 H2].
  cbn [replace_first]. rewrite (prefix_head_mismatch c d p s H1).
  now rewrite IH.
Qed.

(** The first occurrence is the one replaced. *)
Lemma replace_first_at (c : ascii) (p rep pre post : string) :
  free_of c pre ->
  replace_first (String c p) rep (pre ++ String c p ++ post) =
  (pre ++ rep ++ post)%string.
Proof.
  unfold free_of. induction pre as [|d pre IH]; intros H.
  - change ("" ++ String c p ++ post)%string with (String c (p ++ post)).
    cbn [replace_first].
    change (String c (p ++ post)) with (String c p ++ post)%string.
    rewrite prefix_refl_app, substring_skip. reflexivity.
  - cbn [includes_char] in H. apply orb_false_iff in H.
    destruct H as [H1 H2].
    change (String d pre ++ String c p ++ post)%string
      with (String d (pre ++ String c p ++ post)).
    cbn [replace_first].
    rewrite (prefix_head_mismatch c d p _ H1), (IH H2). reflexivity.
Qed.

Lemma split_char_free (c : ascii) (s : string) :
  free_of c s -> split_char c s = [s].
Proof.
  unfold free_of. induction s as [|d s IH]; cbn [includes_char split_char];
    auto.
  intros H. apply orb_false_iff in H. destruct H as [H1 H2].
  now rewrite H1, (IH H2).
Qed.

Lemma split_char_at (c : ascii) (pre post : string) :
  free_of c pre ->
  split_char c (pre ++ String c post) = pre :: split_char c post.
Proof.
  unfold free_of. induction pre as [|d pre IH];
    cbn [includes_char append split_char].
  - intros _. now rewrite Ascii.eqb_refl.
  - intros H. apply orb_false_iff in H. destruct H as [H1 H2].
    now rewrite H1, (IH H2).
Qed.

Lemma append_cons_not_empty (a b : string) (c : ascii) :
  ((a ++ String c b) =? "")%string = false.
Proof. destruct a; reflexivity. Qed.

Lemma free_of_app (c : ascii) (a b : string) :
  free_of c a -> free_of c b -> free_of c (a ++ b).
Proof.
  unfold free_of. intros A B. now rewrite includes_char_app, A, B.
Qed.

(** ** Timestamps: [fmtTs], [fmtIso], the event stamp and the summary *)

Lemma iso_text_truthy (d t : string) :
  truthy (Some (JStr (d ++ "T" ++ t ++ "Z"))) = true.
Proof.
  cbn [truthy]. change ("T" ++ t ++ "Z")%string with (String "T" (t ++ "Z")).
  now rewrite append_cons_not_empty.
Qed.

Lemma append_assoc (a b c : string) :
  ((a ++ b) ++ c = a ++ (b ++ c))%string.
Proof. induction a as [|x a IH]; cbn; [reflexivity | now rewrite IH]. Qed.

Lemma append_empty_r (a : string) : (a ++ "")%string = a.
Proof. induction a as [|x a IH]; cbn; [reflexivity | now rewrite IH]. Qed.

(** The two replacements of [fmtTs] and [fmtIso] on a text [d T t Z]. *)
Lemma replace_T_then_Z (d t rep : string) :
  free_of charT d -> free_of charZ d -> free_of charZ t ->
  replace_first "Z" rep (replace_first "T" " " (d ++ "T" ++ t ++ "Z")) =
  (d ++ " " ++ t ++ rep)%string.
Proof.
  unfold charT, charZ. intros Td Zd Zt.
  rewrite (replace_first_at "T"%char "" " " d (t ++ "Z") Td).
  change (d ++ " " ++ t ++ "Z")%string
    with (d ++ (String " " t) ++ "Z")%string.
  rewrite <- append_assoc.
  change "Z"%string with (String "Z"%char "" ++ "")%string at 2.
  rewrite (replace_first_at "Z"%char "" rep (d ++ String " " t) "").
  - rewrite append_empty_r, append_assoc. reflexivity.
  - apply free_of_app; [exact Zd |].
    unfold free_of in *. cbn [includes_char]. now rewrite Zt.
Qed.

Lemma fmtIso_iso (d t : string) :
  free_of charT d -> free_of charZ d -> free_of charZ t ->
  MissionPage.fmtIso (Some (JStr (d ++ "T" ++ t ++ "Z"))) =
  (d ++ " " ++ t)%string.
Proof.
  intros Td Zd Zt. unfold MissionPage.fmtIso. rewrite iso_text_truthy.
  rewrite replace_T_then_Z by assumption. now rewrite append_empty_r.
Qed.

(** X10.  A timestamp [<date>T<time>Z] (no [T] and no [Z] in the date, no
    [Z] in the time) is shown by the React application as
    [<date> <time> UTC] and by the mission page as [<date> <time>]. *)
Theorem iso_timestamp_display (d t : string) :
  free_of charT d -> free_of charZ d -> free_of charZ t ->
  AppUi.fmtTs (Some (JStr (d ++ "T" ++ t ++ "Z"))) =
    App.Ok (d ++ " " ++ t ++ " UTC")%string /\
  MissionPage.fmtIso (Some (JStr (d ++ "T" ++ t ++ "Z"))) =
    (d ++ " " ++ t)%string.
Proof.
  intros Td Zd Zt. split.
  - unfold AppUi.fmtTs. rewrite iso_text_truthy. cbn [negb].
    now rewrite replace_T_then_Z.
  - now apply fmtIso_iso.
Qed.

Lemma iso_timestamp_display_witness :
  AppUi.fmtTs (Some (JStr "2026-01-10T14:51:56Z")) =
    App.Ok "2026-01-10 14:51:56 UTC"%string /\
  MissionPage.fmtIso (Some (JStr "2026-01-10T14:51:56Z")) =
    "2026-01-10 14:51:56"%string.
Proof.
  exact (iso_timestamp_display "2026-01-10" "14:51:56"
           eq_refl eq_refl eq_refl).
Defined.

(** X11.  [fmtTs] throws a TypeError exactly on the truthy values that are
    not strings (a number, [true], an array, an object), where [fmtIso]
    answers ["-"]; on every falsy value both answer ["-"]. *)
Theorem fmtTs_throws_where_fmtIso_does_not (v : value) :
  (AppUi.fmtTs v = App.Throw App.TypeError <->
   truthy v = true /\ is_text v = false) /\
  (is_text v = false -> MissionPage.fmtIso v = "-"%string) /\
  (truthy v = false ->
   AppUi.fmtTs v = App.Ok "-"%string /\ MissionPage.fmtIso v = "-"%string).
Proof.
  split; [split|split].
  - unfold AppUi.fmtTs. destruct (truthy v) eqn:T; cbn [negb].
    + destruct v as [[|b|x|s|a l|a fs]|]; intros H; try discriminate H;
        split; reflexivity.
    + discriminate.
  - intros [T S]. unfold AppUi.fmtTs. rewrite T. cbn [negb].
    destruct v as [[|b|x|s|a l|a fs]|]; try reflexivity; discriminate.
  - intros S. destruct v as [[|b|x|s|a l|a fs]|]; try reflexivity;
      discriminate S.
  - intros F. split.
    + unfold AppUi.fmtTs. rewrite F. reflexivity.
    + unfold MissionPage.fmtIso.
      destruct v as [[|b|x|s|a l|a fs]|]; try reflexivity.
      rewrite F. reflexivity.
Qed.

Lemma fmtTs_throws_where_fmtIso_does_not_witness :
  AppUi.fmtTs (Some (JNum (of_Z 1768056716))) = App.Throw App.TypeError
  /\ MissionPage.fmtIso (Some (JNum (of_Z 1768056716))) = "-"%string.
Proof.
  split.
  - apply (proj1 (fmtTs_throws_where_fmtIso_does_not
                    (Some (JNum (of_Z 1768056716))))).
    split; reflexivity.
  - apply (proj1 (proj2 (fmtTs_throws_where_fmtIso_does_not
                           (Some (JNum (of_Z 1768056716)))))).
    reflexivity.
Defined.

(** When the pattern's first character occurs but the pattern does not
    match there, and it cannot match later, the text is left alone. *)
Lemma replace_first_miss (c : ascii) (p rep pre rest : string) :
  free_of c pre -> String.prefix p rest = false -> free_of c rest ->
  replace_first (String c p) rep (pre ++ String c rest) =
  (pre ++ String c rest)%string.
Proof.
  unfold free_of. intros H P R. induction pre as [|d pre IH].
  - change ("" ++ String c rest)%string with (String c rest).
    cbn [replace_first String.prefix].
    destruct (ascii_dec c c) as [_|N]; [|congruence].
    rewrite P. now rewrite (replace_first_free c p rep rest R).
  - cbn [includes_char] in H. apply orb_false_iff in H.
    destruct H as [H1 H2].
    change (String d pre ++ String c rest)%string
      with (String d (pre ++ String c rest)).
    cbn [replace_first].
    rewrite (prefix_head_mismatch c d p _ H1), (IH H2). reflexivity.
Qed.

Lemma free_of_cons (c d : ascii) (s : string) :
  Ascii.eqb c d = false -> free_of c s -> free_of c (String d s).
Proof. unfold free_of. cbn [includes_char]. now intros -> ->. Qed.

(** X12.  The stamp of an event is the ISO time with [T] turned into a
    space and [Z] into [ UTC]; the milliseconds are dropped when they are
    [000] and kept otherwise. *)
Theorem event_stamp_drops_zero_millis (d t : string) :
  free_of charDot d -> free_of charT d -> free_of charZ d ->
  free_of charDot t -> free_of charZ t ->
  AppUi.stamp (d ++ "T" ++ t ++ ".000Z") = (d ++ " " ++ t ++ " UTC")%string
  /\ (forall ms,
         free_of charDot ms -> free_of charZ ms ->
         String.prefix "000" (ms ++ "Z") = false ->
         AppUi.stamp (d ++ "T" ++ t ++ "." ++ ms ++ "Z") =
         (d ++ " " ++ t ++ "." ++ ms ++ " UTC")%string).
Proof.
  unfold charDot, charT, charZ. intros Dd Td Zd Dt Zt. unfold AppUi.stamp.
  split.
  - assert (E : (d ++ "T" ++ t ++ ".000Z")%string =
                ((d ++ "T" ++ t) ++ String "." "000" ++ "Z")%string).
    { rewrite append_assoc. reflexivity. }
    rewrite E, replace_first_at.
    + change ("" ++ "Z")%string with "Z"%string.
      rewrite append_assoc. apply replace_T_then_Z; assumption.
    + apply free_of_app; [exact Dd|]. now apply free_of_cons.
  - intros ms Dm Zm P.
    assert (E : (d ++ "T" ++ t ++ "." ++ ms ++ "Z")%string =
                ((d ++ "T" ++ t) ++ String "." (ms ++ "Z"))%string).
    { rewrite append_assoc. reflexivity. }
    rewrite E, replace_first_miss.
    + rewrite <- E.
      assert (E2 : (d ++ "T" ++ t ++ "." ++ ms ++ "Z")%string =
                   (d ++ "T" ++ (t ++ "." ++ ms) ++ "Z")%string).
      { cbn [append]. rewrite append_assoc. reflexivity. }
      rewrite E2, replace_T_then_Z; try assumption.
      * cbn [append]. rewrite append_assoc. reflexivity.
      * apply free_of_app; [exact Zt|]. now apply free_of_cons.
    + apply free_of_app; [exact Dd|]. now apply free_of_cons.
    + exact P.
    + apply free_of_app; [exact Dm|]. reflexivity.
Qed.

Lemma event_stamp_drops_zero_millis_witness :
  AppUi.stamp "2026-01-10T14:51:56.000Z" = "2026-01-10 14:51:56 UTC"%string
  /\ AppUi.stamp "2026-01-10T14:51:56.250Z" =
     "2026-01-10 14:51:56.250 UTC"%string.
Proof.
  destruct (event_stamp_drops_zero_millis "2026-01-10" "14:51:56"
              eq_refl eq_refl eq_refl eq_refl eq_refl) as [A B].
  split; [exact A|].
  exact (B "250"%string eq_refl eq_refl eq_refl).
Defined.

Lemma spaced_not_dash (d t : string) :
  ((d ++ String " " t) =? "-")%string = false.
Proof.
  destruct d as [|c d]; [reflexivity|].
  cbn [append String.eqb]. rewrite append_cons_not_empty.
  destruct (Ascii.eqb c "-"); reflexivity.
Qed.

Lemma summary_time_iso (m : value) (d t : string) :
  get "updated_ts" m = Some (JStr (d ++ "T" ++ t ++ "Z")) ->
  free_of charT d -> free_of charZ d -> free_of MissionPage.space d ->
  free_of charZ t -> free_of MissionPage.space t ->
  MissionPage.updated (MissionPage.summaryOf m) = Some (JStr t).
Proof.
  intros E Td Zd Sd Zt St. unfold MissionPage.summaryOf.
  cbn [MissionPage.updated]. rewrite E.
  rewrite (fmtIso_iso d t Td Zd Zt).
  change (d ++ " " ++ t)%string with (d ++ String " " t)%string.
  rewrite spaced_not_dash, includes_char_app.
  unfold MissionPage.space in *. cbn [includes_char negb andb].
  rewrite Ascii.eqb_refl, orb_true_r.
  rewrite (split_char_at " " d t Sd), (split_char_free " " t St).
  reflexivity.
Qed.

Lemma summary_time_none (m : value) :
  truthy (get "updated_ts" m) = false
  \/ is_text (get "updated_ts" m) = false ->
  MissionPage.updated (MissionPage.summaryOf m) = Some (JStr "-").
Proof.
  intros H. unfold MissionPage.summaryOf. cbn [MissionPage.updated].
  assert (F : MissionPage.fmtIso (get "updated_ts" m) = "-"%string).
  { destruct H as [H|H].
    - unfold MissionPage.fmtIso.
      destruct (get "updated_ts" m) as [[|b|x|s|a l|a fs]|];
        try reflexivity.
      now rewrite H.
    - destruct (get "updated_ts" m) as [[|b|x|s|a l|a fs]|];
        try reflexivity; discriminate H. }
  rewrite F. reflexivity.
Qed.

Lemma summary_time_plain (m : value) (s : string) :
  get "updated_ts" m = Some (JStr s) ->
  free_of charT s -> free_of MissionPage.space s ->
  MissionPage.updated (MissionPage.summaryOf m) = Some (JStr "-").
Proof.
  intros E Ts Ss. unfold MissionPage.summaryOf.
  cbn [MissionPage.updated]. rewrite E. unfold MissionPage.fmtIso.
  destruct (truthy (Some (JStr s))); [|reflexivity].
  rewrite (replace_first_free "T" "" " " s Ts).
  assert (I : includes_char MissionPage.space (replace_first "Z" "" s)
              = false).
  { clear E Ts. unfold MissionPage.space, free_of in *.
    induction s as [|c s IH]; [reflexivity|].
    cbn [includes_char] in Ss. apply orb_false_iff in Ss.
    destruct Ss as [S1 S2]. cbn [replace_first String.prefix].
    destruct (ascii_dec "Z" c) as [<-|N].
    - destruct s; cbn [String.length substring append];
        [reflexivity|].
      rewrite substring_all by (cbn; lia). exact S2.
    - cbn [includes_char]. now rewrite S1, (IH S2). }
  rewrite I, andb_false_r. reflexivity.
Qed.

(** X13.  What [renderMission] does to the status line of the mission
    page.  Without the output element it changes nothing.  Otherwise,
    when the mission's id ([missionObj?.id ?? "-"]) can be converted to
    text, the status line becomes the summary, and the update time in it
    is the time of day of [updated_ts]: for a timestamp
    [<date>T<time>Z] without spaces it is [<time>]; it is ["-"] when
    [updated_ts] is missing, empty or not a text, or is a text without
    [T] and without a space.  When the id cannot be converted to text
    (an object with a property [toString]), the status line stays as it
    was, while the mission shown is still replaced. *)
Theorem mission_summary_time (pg : MissionPage.Page) (m : value) :
  MissionPage.renderMission false pg m = pg
  /\ (can_text (MissionPage.sid (MissionPage.summaryOf m)) = true ->
      MissionPage.status (MissionPage.renderMission true pg m) =
      MissionPage.StSummary (MissionPage.summaryOf m)
      /\ (forall d t,
             get "updated_ts" m = Some (JStr (d ++ "T" ++ t ++ "Z")) ->
             free_of charT d -> free_of charZ d ->
             free_of MissionPage.space d ->
             free_of charZ t -> free_of MissionPage.space t ->
             MissionPage.updated (MissionPage.summaryOf m)
             = Some (JStr t))
      /\ (truthy (get "updated_ts" m) = false
          \/ is_text (get "updated_ts" m) = false ->
          MissionPage.updated (MissionPage.summaryOf m)
          = Some (JStr "-"))
      /\ (forall s,
             get "updated_ts" m = Some (JStr s) ->
             free_of charT s -> free_of MissionPage.space s ->
             MissionPage.updated (MissionPage.summaryOf m)
             = Some (JStr "-")))
  /\ (can_text (MissionPage.sid (MissionPage.summaryOf m)) = false ->
      MissionPage.status (MissionPage.renderMission true pg m) =
      MissionPage.status pg
      /\ MissionPage.shown (MissionPage.renderMission true pg m) = m)
  /\ MissionPage.sid (MissionPage.summaryOf m) =
     coalesce (get "id" m) (Some (JStr "-")).
Proof.
  split; [reflexivity|]. split; [|split; [|reflexivity]].
  - intros C. unfold MissionPage.renderMission.
    cbn [negb MissionPage.status]. rewrite C.
    split; [reflexivity|]. split; [|split].
    + intros d t. apply summary_time_iso.
    + apply summary_time_none.
    + intros s. apply summary_time_plain.
  - intros C. unfold MissionPage.renderMission.
    cbn [negb MissionPage.status MissionPage.shown]. rewrite C.
    split; reflexivity.
Qed.

Lemma mission_summary_time_witness :
  MissionPage.status
    (MissionPage.renderMission true
       {| MissionPage.shown := None;
          MissionPage.status := MissionPage.StNoMission |}
       missionUntextable)
  = MissionPage.StNoMission
  /\ MissionPage.updated
       (MissionPage.summaryOf
          (Some (JObj 1 [("id"%string, JStr "m1");
                         ("updated_ts"%string,
                          JStr "2026-01-10T14:51:56Z")])))
     = Some (JStr "14:51:56").
Proof.
  split.
  - exact (proj1 (proj1 (proj2 (proj2
             (mission_summary_time
                {| MissionPage.shown := None;
                   MissionPage.status := MissionPage.StNoMission |}
                missionUntextable)))
             eq_refl)).
  - exact (proj1 (proj2 (proj1 (proj2
             (mission_summary_time
                {| MissionPage.shown := None;
                   MissionPage.status := MissionPage.StNoMission |}
                (Some (JObj 1 [("id"%string, JStr "m1");
                               ("updated_ts"%string,
                                JStr "2026-01-10T14:51:56Z")]))))
             eq_refl))
             "2026-01-10"%string "14:51:56"%string
             eq_refl eq_refl eq_refl eq_refl eq_refl eq_refl).
Defined.

(** ** The React application: commands, target updates, the map centre *)

Lemma commandFailure_replyOk (r : AppUi.Reply) :
  replyOk r = match AppUi.commandFailure r with
              | None => true
              | Some _ => false
              end.
Proof.
  destruct r as [|ok|ok j]; try reflexivity.
  destruct j, ok; cbn; try reflexivity;
    match goal with
    | |- context [truthy (assoc "ok" ?fs)] =>
        destruct (truthy (assoc "ok" fs)); reflexivity
    end.
Qed.

Lemma patchFailure_replyOk (r : AppUi.Reply) :
  replyOk r = match AppUi.patchFailure r with
              | None => true
              | Some _ => false
              end.
Proof.
  destruct r as [|ok|ok j]; try reflexivity.
  destruct j, ok; cbn; try reflexivity;
    match goal with
    | |- context [truthy (assoc "ok" ?fs)] =>
        destruct (truthy (assoc "ok" fs)); reflexivity
    end.
Qed.

Lemma commandThrows_commandOk (target : value) (r : AppUi.Reply) :
  commandOk target r = match AppUi.commandThrows target r with
                       | None => true
                       | Some _ => false
                       end.
Proof.
  unfold commandOk, AppUi.commandThrows.
  rewrite (commandFailure_replyOk r).
  destruct (AppUi.commandFailure r); cbn [andb]; [reflexivity|].
  destruct (can_text target && can_text (AppUi.delivered_of r));
    reflexivity.
Qed.

(** X14.  [sendCommand] in two steps.  Before it waits for the server it
    turns [sending] on and clears the banner.  When the reply is there it
    always turns [sending] off and never touches the mission.  The
    command succeeded exactly when the HTTP status is ok, the body is an
    object with a truthy [ok], and the target and the body's [delivered]
    can be converted to text for the event line: then one event is
    logged, the health is refreshed, and the banner keeps what it holds
    at that time (it is not cleared again, so it is empty when nothing
    else set it while the command waited).  In every other case nothing
    is logged, the health is not refreshed and the banner reports the
    failure: for a refused command the reason is the body's [err] when
    that is truthy and can be converted to text, a TypeError when it is
    truthy and cannot, and the default text otherwise; for a command the
    server accepted but whose event line cannot be written it is a
    TypeError. *)
Theorem command_outcome (iso : string) (target : value) (command : string)
        (r : AppUi.Reply) (c c1 : AppUi.Console) :
  let c0 := AppUi.sendCommand_begin c in
  let c' := AppUi.sendCommand_end iso target command r c1 in
  (AppUi.sending c0 = true
   /\ AppUi.banner c0 = AppUi.BannerEmpty
   /\ AppUi.events c0 = AppUi.events c
   /\ AppUi.healthRefreshes c0 = AppUi.healthRefreshes c
   /\ AppUi.mission c0 = AppUi.mission c)
  /\ AppUi.sending c' = false
  /\ AppUi.mission c' = AppUi.mission c1
  /\ (commandOk target r = true ->
      AppUi.banner c' = AppUi.banner c1
      /\ AppUi.events c' =
         AppUi.pushEvent iso
           (AppUi.Cmd command target (AppUi.delivered_of r))
           (AppUi.events c1)
      /\ AppUi.healthRefreshes c' = S (AppUi.healthRefreshes c1))
  /\ (commandOk target r = false ->
      AppUi.events c' = AppUi.events c1
      /\ AppUi.healthRefreshes c' = AppUi.healthRefreshes c1
      /\ exists f, AppUi.banner c' = AppUi.BannerCommand f)
  /\ (forall ok a fs,
         r = AppUi.Json ok (JObj a fs) -> replyOk r = false ->
         AppUi.banner c' =
         AppUi.BannerCommand
           (if truthy (assoc "err" fs)
            then if can_text (assoc "err" fs)
                 then AppUi.FailReason (assoc "err" fs)
                 else AppUi.FailType
            else AppUi.FailDefault))
  /\ (replyOk r = true -> commandOk target r = false ->
      AppUi.banner c' = AppUi.BannerCommand AppUi.FailType)
  /\ (commandOk target r = true ->
      AppUi.banner
        (AppUi.sendCommand_end iso target command r
           (AppUi.sendCommand_begin c))
      = AppUi.BannerEmpty).
Proof.
  intros c0 c'. subst c0 c'. split; [repeat split|].
  unfold AppUi.sendCommand_end.
  rewrite (commandThrows_commandOk target r).
  unfold AppUi.commandThrows. rewrite (commandFailure_replyOk r).
  destruct (AppUi.commandFailure r) as [f|] eqn:F;
    cbn [AppUi.sending AppUi.healthRefreshes AppUi.mission AppUi.events
         AppUi.banner].
  - split; [reflexivity|]. split; [reflexivity|].
    split; [discriminate|]. split; [|split; [|split]].
    + intros _. split; [reflexivity|]. split; [reflexivity|]. now exists f.
    + intros ok a fs -> _. cbn in F.
      destruct (negb ok || negb (truthy (assoc "ok" fs)));
        [|discriminate F].
      injection F as <-. reflexivity.
    + discriminate.
    + discriminate.
  - destruct (can_text target && can_text (AppUi.delivered_of r));
      cbn [AppUi.sending AppUi.healthRefreshes AppUi.mission AppUi.events
           AppUi.banner].
    + split; [reflexivity|]. split; [reflexivity|].
      split; [intros _; repeat split|]. split; [discriminate|].
      split; [intros ok a fs _ H; discriminate H|].
      split; [discriminate | reflexivity].
    + split; [reflexivity|]. split; [reflexivity|].
      split; [discriminate|]. split.
      * intros _. split; [reflexivity|]. split; [reflexivity|].
        now exists AppUi.FailType.
      * split; [intros ok a fs _ H; discriminate H|].
        split; [reflexivity | discriminate].
Qed.

Lemma command_outcome_witness :
  AppUi.banner
    (AppUi.sendCommand_end "2026-01-10T14:51:56.000Z" (Some (JStr "all"))
       "HOLD" replyUntextable consoleParseError)
  = AppUi.BannerCommand AppUi.FailType
  /\ AppUi.banner
       (AppUi.sendCommand_end "2026-01-10T14:51:56.000Z"
          (Some (JStr "all")) "HOLD"
          (AppUi.Json true (JObj 1 [("ok"%string, JBool true)]))
          consoleParseError)
     = AppUi.BannerWsParse App.SyntaxError.
Proof.
  split.
  - exact (proj1 (proj2 (proj2 (proj2 (proj2 (proj2 (proj2
             (command_outcome "2026-01-10T14:51:56.000Z"
                (Some (JStr "all")) "HOLD" replyUntextable
                consoleParseError consoleParseError)))))))
             eq_refl eq_refl).
  - exact (proj1 (proj1 (proj2 (proj2 (proj2
             (command_outcome "2026-01-10T14:51:56.000Z"
                (Some (JStr "all")) "HOLD"
                (AppUi.Json true (JObj 1 [("ok"%string, JBool true)]))
                consoleParseError consoleParseError))))
             eq_refl)).
Defined.

(** X15.  [onMapClickSetTarget] succeeds exactly when the HTTP status is
    ok and the body is an object with a truthy [ok].  On success the
    mission becomes the body's [mission] (undefined when the body has
    none), one event is logged, and the banner stays as it was: an earlier
    error is not cleared.  On failure the mission and the log are
    unchanged and the banner reports the failure; for a refused update
    the reason is the body's [error] when that is truthy and can be
    converted to text, and a TypeError when it is truthy and cannot.
    [sending] and the health are never touched.  The target it posts
    always carries an altitude and a radius that are not NaN. *)
Theorem target_update_outcome (iso : string) (clickLat clickLon : num)
        (r : AppUi.Reply) (c : AppUi.Console) :
  let c' := AppUi.onMapClickSetTarget iso clickLat clickLon r c in
  AppUi.sending c' = AppUi.sending c
  /\ AppUi.healthRefreshes c' = AppUi.healthRefreshes c
  /\ (replyOk r = true ->
      AppUi.mission c' = AppUi.mission_of r
      /\ AppUi.events c' =
         AppUi.pushEvent iso (AppUi.TargetSet clickLat clickLon)
           (AppUi.events c)
      /\ AppUi.banner c' = AppUi.banner c)
  /\ (replyOk r = false ->
      AppUi.mission c' = AppUi.mission c
      /\ AppUi.events c' = AppUi.events c
      /\ exists f, AppUi.banner c' = AppUi.BannerMission f)
  /\ (forall ok a fs,
         r = AppUi.Json ok (JObj a fs) -> replyOk r = false ->
         truthy (assoc "error" fs) = true ->
         AppUi.banner c' =
         AppUi.BannerMission
           (if can_text (assoc "error" fs)
            then AppUi.FailReason (assoc "error" fs)
            else AppUi.FailType))
  /\ (forall targetLL,
         AppUi.alt_m (AppUi.targetPatch targetLL clickLat clickLon)
         <> S754_nan
         /\ AppUi.radius_m (AppUi.targetPatch targetLL clickLat clickLon)
            <> S754_nan).
Proof.
  intros c'. subst c'. unfold AppUi.onMapClickSetTarget.
  rewrite (patchFailure_replyOk r).
  destruct (AppUi.patchFailure r) as [f|] eqn:F; cbn [AppUi.sending
    AppUi.healthRefreshes AppUi.mission AppUi.events AppUi.banner].
  - split; [reflexivity|]. split; [reflexivity|].
    split; [discriminate|]. split; [|split].
    + intros _. split; [reflexivity|]. split; [reflexivity|]. now exists f.
    + intros ok a fs -> _ E. cbn in F.
      destruct (negb ok || negb (truthy (assoc "ok" fs)));
        [|discriminate F].
      rewrite E in F. injection F as <-. reflexivity.
    + intros t. unfold AppUi.targetPatch, AppUi.isNum.
      cbn [AppUi.alt_m AppUi.radius_m]. split.
      * destruct (truthy t); cbn [andb]; [|discriminate].
        destruct (get "alt_m" t) as [[|b|[]|s|a l|a l]|]; discriminate.
      * destruct (truthy t); cbn [andb]; [|discriminate].
        destruct (get "radius_m" t) as [[|b|[]|s|a l|a l]|]; discriminate.
  - split; [reflexivity|]. split; [reflexivity|].
    split; [intros _; repeat split|]. split; [discriminate|].
    split; [intros ok a fs _ H; discriminate H|].
    intros t. unfold AppUi.targetPatch, AppUi.isNum.
    cbn [AppUi.alt_m AppUi.radius_m]. split.
    + destruct (truthy t); cbn [andb]; [|discriminate].
      destruct (get "alt_m" t) as [[|b|[]|s|a l|a l]|]; discriminate.
    + destruct (truthy t); cbn [andb]; [|discriminate].
      destruct (get "radius_m" t) as [[|b|[]|s|a l|a l]|]; discriminate.
Qed.

Lemma target_update_outcome_witness :
  AppUi.mission
    (AppUi.onMapClickSetTarget "2026-01-10T14:51:56.000Z"
       (of_Z 40) (of_Z 33) replyUntextable consoleParseError)
  = undefined
  /\ AppUi.banner
       (AppUi.onMapClickSetTarget "2026-01-10T14:51:56.000Z"
          (of_Z 40) (of_Z 33) replyUntextable consoleParseError)
     = AppUi.BannerWsParse App.SyntaxError.
Proof.
  destruct (proj1 (proj2 (proj2
             (target_update_outcome "2026-01-10T14:51:56.000Z"
                (of_Z 40) (of_Z 33) replyUntextable consoleParseError)))
             eq_refl)
    as (A & _ & B).
  split; [exact A | exact B].
Defined.

Lemma find_first {A} (f : A -> bool) (pre post : list A) (x : A) :
  forallb (fun y => negb (f y)) pre = true -> f x = true ->
  find f (pre ++ x :: post) = Some x.
Proof.
  intros P X. induction pre as [|y pre IH]; cbn in *.
  - now rewrite X.
  - apply andb_true_iff in P. destruct P as [P1 P2].
    apply negb_true_iff in P1. rewrite P1. now apply IH.
Qed.

Lemma find_none_forallb {A} (f : A -> bool) (l : list A) :
  forallb (fun y => negb (f y)) l = true -> find f l = None.
Proof.
  induction l as [|y l IH]; cbn; [reflexivity|].
  intros P. apply andb_true_iff in P. destruct P as [P1 P2].
  apply negb_true_iff in P1. rewrite P1. now apply IH.
Qed.

Lemma hasLatLon_numbers (v : value) :
  AppUi.hasLatLon v = true ->
  num_of (get "lat" v) <> S754_nan /\ num_of (get "lon" v) <> S754_nan.
Proof.
  unfold AppUi.hasLatLon, AppUi.isNum. intros H.
  apply andb_true_iff in H. destruct H as [H1 H2]. split.
  - destruct (get "lat" v) as [[|b|[]|s|a l|a l]|]; discriminate.
  - destruct (get "lon" v) as [[|b|[]|s|a l|a l]|]; discriminate.
Qed.

(** X16.  The centre the React application gives the map is never NaN,
    whatever the mission and the nodes hold.  It is the mission's
    [base_ll] when that carries numeric [lat] and [lon]; otherwise the
    position of the first node, in display order, whose [pos] carries
    both; otherwise Ankara. *)
Theorem map_centre_is_numeric (m : value) (sorted : list json) :
  let base := AppUi.baseLL_of m in
  let c := AppUi.mapCenter base sorted in
  (fst c <> S754_nan /\ snd c <> S754_nan)
  /\ (AppUi.hasLatLon base = true ->
      c = (num_of (get "lat" base), num_of (get "lon" base)))
  /\ (AppUi.hasLatLon base = false ->
      (forall pre n post,
          sorted = pre ++ n :: post ->
          forallb (fun y => negb (AppUi.hasLatLon (get "pos" (Some y)))) pre
          = true ->
          AppUi.hasLatLon (get "pos" (Some n)) = true ->
          c = (num_of (get "lat" (get "pos" (Some n))),
               num_of (get "lon" (get "pos" (Some n)))))
      /\ (forallb (fun y => negb (AppUi.hasLatLon (get "pos" (Some y))))
            sorted = true ->
          c = AppUi.ANKARA)).
Proof.
  intros base c. subst c. unfold AppUi.mapCenter.
  assert (B : AppUi.hasLatLon base = true -> truthy base = true).
  { unfold AppUi.hasLatLon, AppUi.isNum.
    destruct base as [[|b|x|s|a l|a fs]|]; try discriminate; reflexivity. }
  destruct (AppUi.hasLatLon base) eqn:H.
  - rewrite (B eq_refl). cbn [andb fst snd].
    split; [now apply hasLatLon_numbers|]. split; [reflexivity|discriminate].
  - rewrite andb_false_r. split; [|split; [discriminate|]].
    + destruct (find _ sorted) as [n|] eqn:F.
      * apply find_some in F. destruct F as [_ F].
        now apply hasLatLon_numbers.
      * split; vm_compute; discriminate.
    + intros _. split.
      * intros pre n post -> P N.
        now rewrite (find_first _ pre post n P N).
      * intros P. now rewrite (find_none_forallb _ sorted P).
Qed.

Lemma map_centre_is_numeric_witness :
  AppUi.mapCenter
    (AppUi.baseLL_of
       (Some (JObj 1 [("base_ll"%string,
                       JObj 2 [("lat"%string, JNum (of_Z 41))])])))
    [bareRecord 3 "UAV1"; record 4 "UAV2" (geo 5 10 20)]
  = (of_Z 10, of_Z 20).
Proof.
  exact (proj1 (proj2 (proj2
           (map_centre_is_numeric
              (Some (JObj 1 [("base_ll"%string,
                              JObj 2 [("lat"%string, JNum (of_Z 41))])]))
              [bareRecord 3 "UAV1"; record 4 "UAV2" (geo 5 10 20)]))
           eq_refl)
           [bareRecord 3 "UAV1"] (record 4 "UAV2" (geo 5 10 20)) []
           eq_refl eq_refl eq_refl).
Defined.

(** ** Numbers: the order of binary64 and [clamp] *)

Lemma SFcompare_antisym (x y : num) :
  SFcompare y x = option_map CompOpp (SFcompare x y).
Proof.
  destruct x as [sx|sx| |sx mx ex], y as [sy|sy| |sy my ey]; cbn;
    try reflexivity;
    try (destruct sx; reflexivity); try (destruct sy; reflexivity);
    try (destruct sx, sy; reflexivity).
  change (PosDef.Pos.compare_cont Eq my mx) with (my ?= mx)%positive.
  change (PosDef.Pos.compare_cont Eq mx my) with (mx ?= my)%positive.
  rewrite (Z.compare_antisym ex ey), (Pos.compare_antisym mx my).
  destruct sx, sy, (ex ?= ey)%Z, (mx ?= my)%positive; reflexivity.
Qed.

Lemma SFcompare_refl (x : num) : x <> S754_nan -> SFcompare x x = Some Eq.
Proof.
  destruct x as [s|s| |s m e]; cbn; try congruence.
  - destruct s; reflexivity.
  - intros _. change (PosDef.Pos.compare_cont Eq m m) with (m ?= m)%positive.
    rewrite Z.compare_refl, Pos.compare_refl.
    destruct s; reflexivity.
Qed.

Lemma SFcompare_some (x y : num) :
  x <> S754_nan -> y <> S754_nan -> exists c, SFcompare x y = Some c.
Proof.
  destruct x as [sx|sx| |sx mx ex], y as [sy|sy| |sy my ey]; cbn;
    try congruence; eauto.
Qed.

Lemma fltb_fleb (x y : num) : fltb x y = true -> fleb x y = true.
Proof.
  unfold fltb, fleb, SFltb, SFleb.
  destruct (SFcompare x y) as [[]|]; congruence.
Qed.

Lemma fleb_refl (x : num) : x <> S754_nan -> fleb x x = true.
Proof.
  intros H. unfold fleb, SFleb. now rewrite (SFcompare_refl x H).
Qed.

Lemma not_fltb_fleb (x y : num) :
  x <> S754_nan -> y <> S754_nan -> fltb y x = false -> fleb x y = true.
Proof.
  intros X Y. unfold fltb, fleb, SFltb, SFleb.
  rewrite (SFcompare_antisym x y).
  destruct (SFcompare_some x y X Y) as [c ->]. destruct c; cbn; congruence.
Qed.

Lemma fltb_asym (x y : num) : fltb x y = true -> fltb y x = false.
Proof.
  unfold fltb, SFltb. rewrite (SFcompare_antisym x y).
  destruct (SFcompare x y) as [[]|]; cbn; congruence.
Qed.

Lemma Math_min_numbers (x y : num) :
  x <> S754_nan -> y <> S754_nan ->
  Math_min x y =
  if fltb x y then x else if fltb y x then y
  else if is_neg_zero x then x else y.
Proof.
  destruct x as [sx|sx| |sx mx ex], y as [sy|sy| |sy my ey];
    congruence || reflexivity.
Qed.

Lemma Math_max_numbers (x y : num) :
  x <> S754_nan -> y <> S754_nan ->
  Math_max x y =
  if fltb x y then y else if fltb y x then x
  else if is_neg_zero x then y else x.
Proof.
  destruct x as [sx|sx| |sx mx ex], y as [sy|sy| |sy my ey];
    congruence || reflexivity.
Qed.

Lemma Math_min_nan_r (x : num) : Math_min x S754_nan = S754_nan.
Proof. destruct x; reflexivity. Qed.

Lemma Math_max_nan_r (x : num) : Math_max x S754_nan = S754_nan.
Proof. destruct x; reflexivity. Qed.

(** X17.  [clamp(n, a, b)] for bounds [a <= b]: a NaN stays NaN; every
    other [n], the infinities included, comes out within the bounds; and
    an [n] strictly between the bounds comes out unchanged. *)
Theorem clamp_within_bounds (n a b : num) :
  a <> S754_nan -> b <> S754_nan -> fleb a b = true ->
  (n = S754_nan -> AppUi.clamp n a b = S754_nan)
  /\ (n <> S754_nan ->
      fleb a (AppUi.clamp n a b) = true
      /\ fleb (AppUi.clamp n a b) b = true)
  /\ (fltb a n = true -> fltb n b = true -> AppUi.clamp n a b = n).
Proof.
  intros A B AB. unfold AppUi.clamp. split; [|split].
  - intros ->. now rewrite Math_min_nan_r, Math_max_nan_r.
  - intros N. rewrite (Math_min_numbers b n B N).
    assert (R : forall m, m = b \/ (m = n /\ fltb b n = false) ->
                fleb a (Math_max a m) = true
                /\ fleb (Math_max a m) b = true).
    { intros m Hm.
      assert (Mn : m <> S754_nan) by (destruct Hm as [->|[-> _]]; assumption).
      assert (Mb : fleb m b = true).
      { destruct Hm as [->|[-> L]];
          [now apply fleb_refl | now apply not_fltb_fleb]. }
      rewrite (Math_max_numbers a m A Mn).
      destruct (fltb a m) eqn:L1.
      - split; [now apply fltb_fleb | exact Mb].
      - destruct (fltb m a) eqn:L2.
        + split; [now apply fleb_refl | exact AB].
        + destruct (is_neg_zero a).
          * split; [now apply not_fltb_fleb | exact Mb].
          * split; [now apply fleb_refl | exact AB]. }
    destruct (fltb b n) eqn:L; [apply R; now left|].
    destruct (fltb n b); [apply R; now right|].
    destruct (is_neg_zero b); apply R; [now left | now right].
  - intros L1 L2.
    assert (N : n <> S754_nan) by (intros ->; destruct a; discriminate L1).
    rewrite (Math_min_numbers b n B N), (fltb_asym n b L2), L2.
    now rewrite (Math_max_numbers a n A N), L1.
Qed.

Lemma clamp_within_bounds_witness :
  AppUi.clamp (of_Z 80) (of_Z 10) (of_Z 5000) = of_Z 80
  /\ fleb (AppUi.clamp (S754_infinity false) (of_Z 10) (of_Z 5000))
       (of_Z 5000) = true.
Proof.
  destruct (clamp_within_bounds (of_Z 80) (of_Z 10) (of_Z 5000))
    as (_ & _ & I); [vm_compute; discriminate ..| reflexivity |].
  destruct (clamp_within_bounds (S754_infinity false) (of_Z 10) (of_Z 5000))
    as (_ & Bd & _); [vm_compute; discriminate ..| reflexivity |].
  split; [apply I; reflexivity | apply Bd; discriminate].
Defined.

(** ** The connection: what the status line tells *)

Lemma step_status_sound (n n' : FmMap.Net) (ev : FmMap.Event) :
  status_sound n -> FmMap.step n ev = Some n' -> status_sound n'.
Proof.
  unfold status_sound. intros I. destruct ev as [dt|i|i|i|j ok];
    cbn [FmMap.step].
  - destruct (0 <=? dt)%Z; [|discriminate]. intros [= <-]. exact I.
  - destruct (nth_error (FmMap.sockets n) i) as [[]|] eqn:E;
      try discriminate.
    intros [= <-]. net_fields.
    pose proof (nth_error_live _ _ _ E eq_refl) as L.
    pose proof (liveCount_set_nth i FmMap.OPEN E) as C. cbn in C.
    destruct (FmMap.hud n) as [[]|]; try contradiction;
      destruct I as [I1 I2]; split; auto; lia.
  - destruct (nth_error (FmMap.sockets n) i) as [[]|] eqn:E;
      try discriminate; intros [= <-]; net_fields;
      pose proof (nth_error_live _ _ _ E eq_refl) as L;
      destruct (FmMap.hud n) as [[]|]; try contradiction;
      destruct I as [I1 I2]; split; auto; lia.
  - destruct (nth_error (FmMap.sockets n) i) as [[]|] eqn:E;
      try discriminate; intros [= <-]; net_fields;
      pose proof (nth_error_live _ _ _ E eq_refl) as L;
      pose proof (liveCount_set_nth i FmMap.CLOSED E) as C; cbn in C;
      destruct (FmMap.hud n) as [[]|]; try contradiction;
      destruct I as [I1 I2]; try lia; rewrite I2; split;
      try reflexivity; lia.
  - destruct (nth_error (FmMap.timers n) j) as [t|] eqn:E; [|discriminate].
    destruct (FmMap.due t <=? FmMap.clock n)%Z; [|discriminate].
    intros [= <-].
    pose proof (remove_nth_length j _ _ E) as R.
    destruct (FmMap.hud n) as [[]|]; try contradiction;
      destruct I as [I1 I2];
      try (rewrite I2 in E; destruct j; discriminate E).
    assert (T : FmMap.remove_nth j (FmMap.timers n) = []).
    { destruct (FmMap.remove_nth j (FmMap.timers n)); [reflexivity|].
      cbn in R. lia. }
    destruct ok; net_fields.
    + rewrite liveCount_app. cbn. split; [lia | exact T].
    + split; [exact I1 | exact T].
Qed.

Lemma exec_status_sound (evs : list FmMap.Event) (n n' : FmMap.Net) :
  status_sound n -> FmMap.exec n evs = Some n' -> status_sound n'.
Proof.
  revert n. induction evs as [|ev evs IH]; intros n I; cbn.
  - now intros [= <-].
  - destruct (FmMap.step n ev) as [n1|] eqn:S; [|discriminate].
    apply IH. eapply step_status_sound; eauto.
Qed.

Lemma boot_status_sound (ok : bool) : status_sound (FmMap.boot ok).
Proof. destruct ok; unfold status_sound; cbn; auto. Qed.

(** X19.  At every point of a session the status line tells the state of
    the connection: while it reads CONNECTING, OK or ERROR exactly one
    socket is live and no reconnect is pending; while it reads
    CLOSED - RETRY no socket is live and exactly one reconnect is pending;
    once it reads INIT ERROR nothing is live or pending.  So there are
    never two live sockets, and never a reconnect pending beside a live
    socket. *)
Theorem status_tells_connection_state (ok : bool) (evs : list FmMap.Event)
        (n : FmMap.Net) :
  FmMap.exec (FmMap.boot ok) evs = Some n ->
  status_sound n
  /\ liveCount (FmMap.sockets n) + List.length (FmMap.timers n) <= 1.
Proof.
  intros E. split.
  - eapply exec_status_sound; [apply boot_status_sound | exact E].
  - apply (exec_single_flight evs (FmMap.boot ok) n); auto.
    apply boot_single_flight.
Qed.

Lemma status_tells_connection_state_witness :
  status_sound
    {| FmMap.clock := 1500; FmMap.hud := Some FmMap.WS_CONNECTING;
       FmMap.sockets := [FmMap.CLOSED; FmMap.CONNECTING];
       FmMap.timers := [] |}.
Proof.
  exact (proj1 (status_tells_connection_state true
                  [FmMap.SocketOpen 0; FmMap.SocketError 0;
                   FmMap.SocketClose 0; FmMap.Elapse 1500;
                   FmMap.TimerFire 0 true] _ eq_refl)).
Defined.

Lemma dead_step (n n' : FmMap.Net) (ev : FmMap.Event) :
  liveCount (FmMap.sockets n) = 0 -> FmMap.timers n = [] ->
  FmMap.step n ev = Some n' ->
  is_elapse ev = true
  /\ FmMap.sockets n' = FmMap.sockets n
  /\ FmMap.timers n' = []
  /\ FmMap.hud n' = FmMap.hud n.
Proof.
  intros L T. destruct ev as [dt|i|i|i|j ok]; cbn [FmMap.step].
  - destruct (0 <=? dt)%Z; [|discriminate]. intros [= <-]. cbn. auto.
  - destruct (nth_error (FmMap.sockets n) i) as [[]|] eqn:E;
      try discriminate.
    pose proof (nth_error_live _ _ _ E eq_refl). lia.
  - destruct (nth_error (FmMap.sockets n) i) as [[]|] eqn:E;
      try discriminate; pose proof (nth_error_live _ _ _ E eq_refl); lia.
  - destruct (nth_error (FmMap.sockets n) i) as [[]|] eqn:E;
      try discriminate; pose proof (nth_error_live _ _ _ E eq_refl); lia.
  - rewrite T. destruct j; discriminate.
Qed.

Lemma dead_exec (evs : list FmMap.Event) (n n' : FmMap.Net) :
  liveCount (FmMap.sockets n) = 0 -> FmMap.timers n = [] ->
  FmMap.exec n evs = Some n' ->
  forallb is_elapse evs = true
  /\ FmMap.sockets n' = FmMap.sockets n
  /\ FmMap.timers n' = []
  /\ FmMap.hud n' = FmMap.hud n.
Proof.
  revert n. induction evs as [|ev evs IH]; intros n L T; cbn.
  - intros [= <-]. auto.
  - destruct (FmMap.step n ev) as [n1|] eqn:S; [|discriminate].
    destruct (dead_step n n1 ev L T S) as (A & B & C & D).
    intros E. rewrite <- B in L.
    destruct (IH n1 L C E) as (A' & B' & C' & D').
    rewrite A, A', B', C', D'. auto.
Qed.

(** X20.  When [new WebSocket] throws, at load time or in a reconnect,
    [connectWs] sets the status to INIT ERROR and schedules nothing.
    From a point of a session where the status reads INIT ERROR, time can
    pass but no socket event and no timer can fire, no socket is ever
    created again, and the status stays INIT ERROR. *)
Theorem failed_constructor_ends_reconnects :
  FmMap.hud (FmMap.boot false) = Some FmMap.WS_INIT_ERROR
  /\ (forall n j n1,
         FmMap.step n (FmMap.TimerFire j false) = Some n1 ->
         FmMap.hud n1 = Some FmMap.WS_INIT_ERROR
         /\ FmMap.sockets n1 = FmMap.sockets n)
  /\ (forall ok evs n evs' n2,
         FmMap.exec (FmMap.boot ok) evs = Some n ->
         FmMap.hud n = Some FmMap.WS_INIT_ERROR ->
         FmMap.exec n evs' = Some n2 ->
         forallb is_elapse evs' = true
         /\ FmMap.sockets n2 = FmMap.sockets n
         /\ FmMap.timers n2 = []
         /\ FmMap.hud n2 = Some FmMap.WS_INIT_ERROR).
Proof.
  split; [reflexivity|]. split.
  - intros n j n1 S. cbn [FmMap.step] in S.
    destruct (nth_error (FmMap.timers n) j) as [t|]; [|discriminate].
    destruct (FmMap.due t <=? FmMap.clock n)%Z; [|discriminate].
    injection S as <-. split; reflexivity.
  - intros ok evs n evs' n2 E H E'.
    assert (I : status_sound n).
    { eapply exec_status_sound; [apply boot_status_sound | exact E]. }
    unfold status_sound in I. rewrite H in I. destruct I as [L T].
    destruct (dead_exec evs' n n2 L T E') as (A & B & C & D).
    rewrite D. auto.
Qed.

Lemma failed_constructor_ends_reconnects_witness :
  forallb is_elapse [FmMap.Elapse 60000] = true
  /\ FmMap.exec (FmMap.boot true)
       [FmMap.SocketClose 0; FmMap.Elapse 1500; FmMap.TimerFire 0 false;
        FmMap.Elapse 60000]
     = Some {| FmMap.clock := 61500;
               FmMap.hud := Some FmMap.WS_INIT_ERROR;
               FmMap.sockets := [FmMap.CLOSED]; FmMap.timers := [] |}.
Proof.
  split; [|reflexivity].
  exact (proj1 (proj2 (proj2 failed_constructor_ends_reconnects) true
                  [FmMap.SocketClose 0; FmMap.Elapse 1500;
                   FmMap.TimerFire 0 false]
                  _ [FmMap.Elapse 60000] _ eq_refl eq_refl eq_refl)).
Defined.

(** ** The tactical map of the React application (v2): picking a node *)

Lemma fsub_self (x : num) :
  is_finite x = true -> fsub x x = S754_zero false.
Proof.
  destruct x as [s|s| |s m e]; try discriminate; intros _.
  - destruct s; reflexivity.
  - unfold fsub, SFsub. rewrite Z.sub_diag. reflexivity.
Qed.

(** X18.  A click on the tactical map of v2 without a canvas changes
    nothing.  Otherwise the first circle, in drawing order, that holds the
    click is picked and becomes both the selected node and the command
    target; a click that no circle holds clears the selected node and
    leaves the command target as it was.  A click at the very centre of a
    circle is held by it exactly when its radius is not below zero, and a
    circle whose radius is NaN holds no click. *)
Theorem canvas_click_picks_first_hit (clientX clientY left top : num)
        (hits : list AppV2.Hit) (p : AppV2.Pick) :
  let mx := fsub clientX left in
  let my := fsub clientY top in
  let p' := AppV2.onMapClick true clientX clientY left top hits p in
  AppV2.onMapClick false clientX clientY left top hits p = p
  /\ (forallb (fun h => negb (AppV2.inside mx my h)) hits = true ->
      AppV2.selectedNode p' = null /\ AppV2.target p' = AppV2.target p)
  /\ (forall pre h post,
         hits = pre ++ h :: post ->
         forallb (fun h' => negb (AppV2.inside mx my h')) pre = true ->
         AppV2.inside mx my h = true ->
         AppV2.selectedNode p' = AppV2.node_id h
         /\ AppV2.target p' = AppV2.node_id h)
  /\ (forall h,
         is_finite (AppV2.cx h) = true -> is_finite (AppV2.cy h) = true ->
         AppV2.inside (AppV2.cx h) (AppV2.cy h) h =
         fleb (S754_zero false) (AppV2.r h))
  /\ (forall h x y, AppV2.r h = S754_nan -> AppV2.inside x y h = false).
Proof.
  intros mx my p'. subst p'. unfold AppV2.onMapClick. cbn [negb].
  fold mx my. split; [reflexivity|]. split; [|split; [|split]].
  - intros M. rewrite (find_none_forallb _ hits M). split; reflexivity.
  - intros pre h post -> M H. rewrite (find_first _ pre post h M H).
    split; reflexivity.
  - intros h X Y. unfold AppV2.inside. cbv zeta.
    rewrite (fsub_self _ X), (fsub_self _ Y). reflexivity.
  - intros h x y R. unfold AppV2.inside. cbv zeta. rewrite R.
    unfold fleb, SFleb.
    destruct (Math_sqrt _); reflexivity.
Qed.

Lemma canvas_click_picks_first_hit_witness :
  AppV2.selectedNode
    (AppV2.onMapClick true (of_Z 113) (of_Z 124) (of_Z 10) (of_Z 20)
       [hitUAV1; hitUAV2] pickNone)
  = Some (JStr "UAV1").
Proof.
  assert (H : AppV2.inside (fsub (of_Z 113) (of_Z 10))
                (fsub (of_Z 124) (of_Z 20)) hitUAV1 = true)
    by (vm_compute; reflexivity).
  exact (proj1 (proj1 (proj2 (proj2
           (canvas_click_picks_first_hit (of_Z 113) (of_Z 124) (of_Z 10)
              (of_Z 20) [hitUAV1; hitUAV2] pickNone)))
           [] hitUAV1 [hitUAV2] eq_refl eq_refl H)).
Defined.

(** ** The mission overlay *)

Section OverlayFacts.
Context {M : MathLib}.

Lemma pointToLatLon_geo (st : FmMap.State) (p : value) (a b : num) :
  get "lat" p = Some (JNum a) -> get "lon" p = Some (JNum b) ->
  FmMap.pointToLatLon st p = Some (a, b).
Proof.
  intros A B. unfold FmMap.pointToLatLon.
  destruct p as [[|c|x|s|ad l|ad fs]|]; try discriminate A.
  cbn [truthy is_object negb orb]. rewrite A, B. reflexivity.
Qed.

Lemma pointToLatLon_planar (st : FmMap.State) (p : value) (x y : num) :
  is_number (get "lat" p) && is_number (get "lon" p) = false ->
  get "x" p = Some (JNum x) -> get "y" p = Some (JNum y) ->
  FmMap.pointToLatLon st p = Some (FmMap.xyToLatLon st x y).
Proof.
  intros G X Y. unfold FmMap.pointToLatLon.
  destruct p as [[|c|z|s|ad l|ad fs]|]; try discriminate X.
  cbn [truthy is_object negb orb]. rewrite G, X, Y. reflexivity.
Qed.

Lemma stagingFrom_In (st : FmMap.State) (ps : list json) (idx : nat)
      (c : FmOverlay.Circle) :
  In c (FmOverlay.stagingFrom st idx ps) <->
  exists i p ll,
    nth_error ps i = Some p
    /\ FmMap.pointToLatLon st (Some p) = Some ll
    /\ c = {| FmOverlay.center := ll;
              FmOverlay.radius := FmOverlay.radiusOf (Some p) 60;
              FmOverlay.tooltip := FmOverlay.TipStaging (S (idx + i)) |}.
Proof.
  revert idx. induction ps as [|p ps IH]; intros idx;
    cbn [FmOverlay.stagingFrom].
  - split; [intros []|]. intros (i & q & ll & N & _). destruct i; discriminate.
  - split.
    + intros H.
      assert (T : In c (FmOverlay.stagingFrom st (S idx) ps) ->
                  exists i q ll,
                    nth_error (p :: ps) i = Some q
                    /\ FmMap.pointToLatLon st (Some q) = Some ll
                    /\ c = {| FmOverlay.center := ll;
                              FmOverlay.radius :=
                                FmOverlay.radiusOf (Some q) 60;
                              FmOverlay.tooltip :=
                                FmOverlay.TipStaging (S (idx + i)) |}).
      { intros H'. apply IH in H'. destruct H' as (i & q & ll & N & P & E).
        exists (S i), q, ll. repeat split; auto.
        rewrite E. do 3 f_equal. lia. }
      destruct (FmMap.pointToLatLon st (Some p)) as [ll|] eqn:P; auto.
      destruct H as [<-|H]; auto.
      exists 0, p, ll. repeat split; auto. do 3 f_equal. lia.
    + intros (i & q & ll & N & P & E). destruct i as [|i].
      * injection N as <-. rewrite P. left. rewrite E. do 3 f_equal. lia.
      * assert (T : In c (FmOverlay.stagingFrom st (S idx) ps)).
        { apply IH. exists i, q, ll. repeat split; auto.
          rewrite E. do 3 f_equal. lia. }
        destruct (FmMap.pointToLatLon st (Some p)); [right|]; exact T.
Qed.

(** X21.  The circles [drawMissionOverlay] draws for a mission object.
    Every staging point with a resolvable position gets a circle, labelled
    with its place in the mission's array (counting from 1, skipped points
    included), and there are no others.  With a geographic base the base
    circle stands on the base, the anchor moves there, and a planar target
    is placed relative to the base.  With a planar base the base circle is
    placed relative to the anchor as it was, and the anchor stays. *)
Theorem mission_overlay_placement (st : FmMap.State) (mission : value) :
  truthy mission = true -> is_object mission = true ->
  let st' := FmMap.drawMissionOverlay st mission in
  let ly := FmOverlay.missionLayers st mission in
  (forall c,
      In c (FmOverlay.stagingCircles ly) <->
      exists i p ll,
        is_array (get "staging_points" mission) = true
        /\ nth_error (items_of (get "staging_points" mission)) i = Some p
        /\ FmMap.pointToLatLon st' (Some p) = Some ll
        /\ c = {| FmOverlay.center := ll;
                  FmOverlay.radius := FmOverlay.radiusOf (Some p) 60;
                  FmOverlay.tooltip := FmOverlay.TipStaging (S i) |})
  /\ (forall lat lon,
         get "lat" (get "base" mission) = Some (JNum lat) ->
         get "lon" (get "base" mission) = Some (JNum lon) ->
         option_map FmOverlay.center (FmOverlay.baseCircle ly)
         = Some (lat, lon)
         /\ (FmMap.anchorLat st', FmMap.anchorLon st') = (lat, lon)
         /\ (forall x y,
                is_number (get "lat" (get "target" mission))
                && is_number (get "lon" (get "target" mission)) = false ->
                get "x" (get "target" mission) = Some (JNum x) ->
                get "y" (get "target" mission) = Some (JNum y) ->
                option_map FmOverlay.center (FmOverlay.targetCircle ly)
                = Some (FmMap.xyToLatLon st' x y)))
  /\ (forall x y,
         is_number (get "lat" (get "base" mission))
         && is_number (get "lon" (get "base" mission)) = false ->
         get "x" (get "base" mission) = Some (JNum x) ->
         get "y" (get "base" mission) = Some (JNum y) ->
         option_map FmOverlay.center (FmOverlay.baseCircle ly)
         = Some (FmMap.xyToLatLon st x y)
         /\ (FmMap.anchorLat st', FmMap.anchorLon st')
            = (FmMap.anchorLat st, FmMap.anchorLon st)).
Proof.
  intros T O st' ly. subst ly. unfold FmOverlay.missionLayers.
  rewrite T, O. cbn [negb orb]. fold st'.
  cbn [FmOverlay.stagingCircles FmOverlay.baseCircle FmOverlay.targetCircle].
  split; [|split].
  - intros c. destruct (is_array (get "staging_points" mission)) eqn:A.
    + rewrite stagingFrom_In. split.
      * intros (i & p & ll & N & P & E). exists i, p, ll. auto.
      * intros (i & p & ll & _ & N & P & E). exists i, p, ll. auto.
    + split; [intros []|]. intros (i & p & ll & D & _). discriminate D.
  - intros lat lon A B.
    assert (Tb : truthy (get "base" mission) = true).
    { destruct (get "base" mission) as [[|c|z|s|ad l|ad fs]|];
        try discriminate A; reflexivity. }
    rewrite Tb, (pointToLatLon_geo st _ lat lon A B). cbn [option_map
      FmOverlay.center]. split; [reflexivity|]. split.
    + unfold st'. rewrite drawMissionOverlay_anchor, O, A, B. reflexivity.
    + intros x y G X Y.
      assert (Tt : truthy (get "target" mission) = true).
      { destruct (get "target" mission) as [[|c|z|s|ad l|ad fs]|];
          try discriminate X; reflexivity. }
      rewrite Tt, (pointToLatLon_planar st' _ x y G X Y). reflexivity.
  - intros x y G X Y.
    assert (Tb : truthy (get "base" mission) = true).
    { destruct (get "base" mission) as [[|c|z|s|ad l|ad fs]|];
        try discriminate X; reflexivity. }
    rewrite Tb, (pointToLatLon_planar st _ x y G X Y). cbn [option_map
      FmOverlay.center]. split; [reflexivity|].
    unfold st'. rewrite drawMissionOverlay_anchor, O.
    cbn [andb]. rewrite G. reflexivity.
Qed.

End OverlayFacts.

Lemma mission_overlay_placement_witness :
  option_map FmOverlay.center
    (FmOverlay.targetCircle
       (FmOverlay.missionLayers (M := sampleMath) FmMap.init sampleMission))
  = Some (FmMap.xyToLatLon (M := sampleMath)
            (FmMap.drawMissionOverlay (M := sampleMath) FmMap.init
               sampleMission)
            (of_Z 0) (of_Z 111320)).
Proof.
  exact (proj2 (proj2 (proj1 (proj2
           (@mission_overlay_placement sampleMath FmMap.init sampleMission
              eq_refl eq_refl))
           (of_Z 41) (of_Z 29) eq_refl eq_refl))
           (of_Z 0) (of_Z 111320) eq_refl eq_refl eq_refl).
Defined.

(** ** The HUD of the map page *)


Lemma strict_eq_text_refl (s : string) :
  strict_eq (Some (JStr s)) (Some (JStr s)) = true.
Proof. unfold strict_eq. now rewrite same_key_refl. Qed.




(** ** The mission page, and the frame handler of v2 *)

(** X23.  The mission page renders a mission for exactly the frames the
    map page routes to its mission overlay, and ignores every other frame;
    without its output element it changes nothing.  From the REST
    endpoint it renders exactly the replies for which the map page draws
    an overlay; otherwise it keeps what it shows and reports a REST error
    or that there is no mission. *)
Theorem mission_page_follows_mission_frames {M : MathLib}
        (out : bool) (pg : MissionPage.Page) :
  MissionPage.onmessage out pg FmMap.Unparseable = pg
  /\ (forall msg,
         MissionPage.onmessage out pg (FmMap.Parsed msg) =
         match FmMap.classify msg with
         | FmMap.RMission =>
             MissionPage.renderMission out pg (get "mission" (Some msg))
         | _ => pg
         end)
  /\ (forall f, MissionPage.onmessage false pg f = pg)
  /\ (forall st fetched res_ok body,
         let pg' := MissionPage.fetchInitial out pg fetched res_ok body in
         match snd (FmOverlay.fetchMissionOnce st fetched res_ok body) with
         | Some _ =>
             pg' = MissionPage.renderMission out pg
                     (get "mission" body)
         | None =>
             MissionPage.shown pg' = MissionPage.shown pg
             /\ (MissionPage.status pg' = MissionPage.StRestError
                 \/ MissionPage.status pg' = MissionPage.StNoMission)
         end).
Proof.
  split; [reflexivity|]. split; [|split].
  - intros msg. unfold MissionPage.onmessage, FmMap.classify.
    cbn zeta.
    destruct (truthy (Some msg) && is_string "snapshot" (get "type" (Some msg))
              && is_array (get "nodes" (Some msg))) eqn:S.
    + apply andb_true_iff in S. destruct S as [S _].
      apply andb_true_iff in S. destruct S as [_ S].
      destruct (get "type" (Some msg)) as [[|b|x|s|a l|a fs]|];
        try discriminate S.
      cbn in S. apply String.eqb_eq in S. subst s.
      rewrite andb_false_r. reflexivity.
    + destruct (truthy (Some msg)
                && is_string "mission_update" (get "type" (Some msg))
                && truthy (get "mission" (Some msg))); [reflexivity|].
      destruct (truthy (Some msg) && truthy (get "node_id" (Some msg)));
        reflexivity.
  - intros [|msg]; [reflexivity|]. unfold MissionPage.onmessage.
    destruct (_ && _); reflexivity.
  - intros st fetched res_ok body pg'. subst pg'.
    unfold MissionPage.fetchInitial, FmOverlay.fetchMissionOnce.
    destruct (negb fetched || negb res_ok); cbn [snd].
    + split; [reflexivity | now left].
    + destruct body as [j|]; cbn [snd].
      * destruct (truthy (Some j) && truthy (get "mission" (Some j)));
          cbn [snd]; [reflexivity|]. split; [reflexivity | now right].
      * split; [reflexivity | now left].
Qed.

(** X24.  The frame handler of v2 has no branch for mission updates.  It
    treats every frame whose type is not ["mission_update"] as v3 does;
    a mission update it hands to [upsertNode], so one that carries a
    truthy [node_id] is stored as an entity and the mission is not
    touched, where v3 sets the mission and stores nothing. *)
Theorem v2_routes_mission_updates_as_deltas (st : App.State) (msg : json) :
  AppV2.onmessage st App.Unparseable = App.onmessage st App.Unparseable
  /\ (typed "mission_update" msg = false ->
      AppV2.onmessage st (App.Parsed msg) = App.onmessage st (App.Parsed msg))
  /\ (typed "mission_update" msg = true ->
      AppV2.onmessage st (App.Parsed msg) = App.upsertNode st (Some msg)
      /\ App.mission (AppV2.onmessage st (App.Parsed msg)) = App.mission st
      /\ App.byId (App.onmessage st (App.Parsed msg)) = App.byId st
      /\ (hasId msg = true ->
          map_get (idOf msg) (App.byId (AppV2.onmessage st (App.Parsed msg)))
          = Some msg)).
Proof.
  split; [reflexivity|]. unfold typed.
  unfold AppV2.onmessage, App.onmessage, AppV2.handle, App.handle,
    App.classify. cbn zeta.
  destruct (get "type" (Some msg)) as [[|b|x|s|a l|a fs]|] eqn:Ty;
    cbn [is_string]; try rewrite !andb_false_r;
    try (split; [reflexivity | discriminate]).
  destruct (s =? "snapshot")%string eqn:S.
  - apply String.eqb_eq in S. subst s. cbn [String.eqb Ascii.eqb].
    split; [|discriminate]. intros _.
    destruct (truthy (Some msg)); reflexivity.
  - rewrite !andb_false_r. split.
    + intros ->. rewrite andb_false_r. reflexivity.
    + intros ->. rewrite andb_true_r.
      assert (T : truthy (Some msg) = true).
      { destruct msg; try discriminate Ty; reflexivity. }
      rewrite T. split; [reflexivity|]. split.
      * unfold App.upsertNode.
        destruct (negb (truthy (get "node_id" (Some msg)))); reflexivity.
      * split; [reflexivity|]. unfold hasId, idOf, App.upsertNode.
        intros ->. cbn [negb App.byId]. now rewrite map_get_set_same.
Qed.

Lemma v2_routes_mission_updates_as_deltas_witness :
  map_get (Some (JStr "UAV1"))
    (App.byId (AppV2.onmessage App.init (App.Parsed missionWithId)))
  = Some missionWithId.
Proof.
  exact (proj2 (proj2 (proj2
           (proj2 (proj2
              (v2_routes_mission_updates_as_deltas App.init missionWithId))
              eq_refl)))
           eq_refl).
Defined.
